(** * ConvLayer: a shallow embedding of [conv_layer.py]

    The layer keeps its caches, gradients and Adam moments in instance
    fields and mutates them in place.  The embedding follows the source
    method by method:

    - array elements are an interface [Scalar]; the instance of the
      program is [binary64], IEEE 754 double precision as specified by
      the standard library's [SpecFloat].  A contraction adds its terms
      in the order of its indices; the library the source calls leaves
      that order open, and the values of the contractions are stated
      where the sums are exact, on integers below 2^53;
    - a NumPy array is its shape together with its elements in row-major
      (C) order, an [as_strided] result is a shape, a tuple of strides
      and the buffer it looks into;
    - Python integers are [Z]; the quotient [a / b] of two of them is
      the binary64 nearest to the exact quotient;
    - a method is a computation over the layer that either returns or
      raises, the mutations made before a [raise] staying in place. *)

From Stdlib Require Import String ZArith List Lia Bool.
From Stdlib Require Import SpecFloat.
Import ListNotations.
Local Open Scope Z_scope.

Set Implicit Arguments.

(** ** Array elements *)

Class Scalar (T : Type) : Type := {
  szero : T;
  sone : T;
  sadd : T -> T -> T;
  ssub : T -> T -> T;
  smul : T -> T -> T;
  sdiv : T -> T -> T;
  ssqrt : T -> T;
  (** [x > 0] *)
  spositive : T -> bool;
  (** [np.maximum(x, y)] *)
  smaximum : T -> T -> T;
  (** conversion of a Python [int] *)
  of_int : Z -> T;
  (** the quotient [p / q] of two Python [int]s, [q <> 0] *)
  of_quotient : Z -> Z -> T
}.

(** *** IEEE 754 binary64 *)

Module B64.

Definition prec : Z := 53.
Definition emax : Z := 1024.

Definition float : Type := spec_float.

Definition zero : float := S754_zero false.
Definition add : float -> float -> float := SFadd prec emax.
Definition sub : float -> float -> float := SFsub prec emax.
Definition mul : float -> float -> float := SFmul prec emax.
Definition div : float -> float -> float := SFdiv prec emax.
Definition sqrt : float -> float := SFsqrt prec emax.
Definition of_Z (z : Z) : float := binary_normalize prec emax z 0 false.
Definition one : float := of_Z 1.

Definition is_nan (x : float) : bool :=
  match x with S754_nan => true | _ => false end.

Definition gt0 (x : float) : bool := SFltb zero x.

(** NumPy's [maximum] keeps a NaN of either argument and otherwise
    takes the first argument unless the second is greater.  Of two
    zeros of different signs NumPy may return either one; here it is
    the first. *)
Definition maximum (x y : float) : float :=
  if is_nan x then x else if SFleb y x then x else y.

(** The quotient of two integers, [p / q] with [q <> 0]. *)
Definition ratio (p q : Z) : float := div (of_Z p) (of_Z q).

(** The quotient [p / q] of two Python integers, [q <> 0]: the exact
    quotient is rounded once, to the nearest binary64, whatever the
    size of [p] and [q]; the mantissas of the division are the two
    integers themselves. *)
Definition true_quotient (p q : Z) : float :=
  match p with
  | Z0 => S754_zero (q <? 0)
  | _ => div (S754_finite (p <? 0) (Z.to_pos (Z.abs p)) 0)
             (S754_finite (q <? 0) (Z.to_pos (Z.abs q)) 0)
  end.

Definition fexp : Z -> Z := SpecFloat.fexp prec emax.

(** [int(x)]: the integer part of [x], toward zero; [None] stands for
    the exception raised on an infinity or a NaN. *)
Definition to_int (x : float) : option Z :=
  match x with
  | S754_zero _ => Some 0
  | S754_finite s m e =>
      let v := match e with
               | Z0 => Zpos m
               | Zpos _ => Zpos m * 2 ^ e
               | Zneg _ => Zpos m / 2 ^ (- e)
               end in
      Some (if s then - v else v)
  | _ => None
  end.

End B64.

#[export] Instance binary64 : Scalar B64.float := {
  szero := B64.zero;
  sone := B64.one;
  sadd := B64.add;
  ssub := B64.sub;
  smul := B64.mul;
  sdiv := B64.div;
  ssqrt := B64.sqrt;
  spositive := B64.gt0;
  smaximum := B64.maximum;
  of_int := B64.of_Z;
  of_quotient := B64.true_quotient
}.

(** ** Python integers, ranges and slices *)

(** [range(n)] *)
Definition range (n : Z) : list Z := map Z.of_nat (seq 0 (Z.to_nat n)).

(** Normalisation of one bound of a slice against the length of the axis
    (CPython's [PySlice_AdjustIndices]). *)
Definition adjust_index (i len step : Z) : Z :=
  if i <? 0 then
    (if i + len <? 0 then (if step <? 0 then -1 else 0) else i + len)
  else if len <=? i then (if step <? 0 then len - 1 else len)
  else i.

(** A slice [start:stop:step]; [None] is an omitted bound. *)
Record slice : Type := Slice {
  sl_start : option Z;
  sl_stop : option Z;
  sl_step : Z
}.

(** The positions selected on one axis: [sel_len] positions
    [sel_start + k * sel_step]. *)
Record selection : Type := Selection {
  sel_start : Z;
  sel_step : Z;
  sel_len : Z
}.

Definition slice_indices (s : slice) (len : Z) : selection :=
  let step := sl_step s in
  let start := match sl_start s with
               | Some i => adjust_index i len step
               | None => if step <? 0 then len - 1 else 0
               end in
  let stop := match sl_stop s with
              | Some i => adjust_index i len step
              | None => if step <? 0 then -1 else len
              end in
  let n := if step <? 0
           then (if stop <? start then (start - stop - 1) / (- step) + 1 else 0)
           else (if start <? stop then (stop - start - 1) / step + 1 else 0) in
  Selection start step n.

(** [a:b] *)
Definition from_to (a b : Z) : slice := Slice (Some a) (Some b) 1.
(** [:] *)
Definition whole : slice := Slice None None 1.

(** Position [k] of the selection, and the rank of an index in it. *)
Definition sel_pos (s : selection) (k : Z) : Z := sel_start s + k * sel_step s.

Definition sel_rank (s : selection) (i : Z) : option Z :=
  let d := i - sel_start s in
  if sel_step s =? 0 then None
  else if negb (d mod sel_step s =? 0) then None
  else let k := d / sel_step s in
       if (0 <=? k) && (k <? sel_len s) then Some k else None.

Fixpoint same_shape (s1 s2 : list Z) : bool :=
  match s1, s2 with
  | [], [] => true
  | n :: s1', m :: s2' => (n =? m) && same_shape s1' s2'
  | _, _ => false
  end.

(** ** Outcomes *)

Inductive exn : Type :=
| ValueError
| IndexError
| ZeroDivisionError
| OverflowError
(** the call leaves what the embedding describes: a strided view that
    reads outside its buffer, an array of more than four axes, a
    negative dimension passed to [reshape] *)
| Unmodelled.

Inductive outcome (A : Type) : Type :=
| Returned (a : A)
| Raised (e : exn).
Arguments Raised {A} e.

Definition obind {A B} (o : outcome A) (k : A -> outcome B) : outcome B :=
  match o with
  | Returned a => k a
  | Raised e => Raised e
  end.

Definition returns {A} (o : outcome A) : bool :=
  match o with Returned _ => true | Raised _ => false end.

(** [int(a / b)] on two Python integers: the division returns a
    binary64, or raises when the quotient is beyond the range of
    binary64, and [int] takes the integer part. *)
Definition int_truediv (a b : Z) : outcome Z :=
  if b =? 0 then Raised ZeroDivisionError
  else match B64.to_int (B64.true_quotient a b) with
       | Some q => Returned q
       | None => Raised OverflowError
       end.

Declare Scope outcome_scope.
Delimit Scope outcome_scope with outcome.
Notation "x <- e ;; k" := (obind e (fun x => k))
  (at level 61, e at next level, right associativity) : outcome_scope.
Notation "' p <- e ;; k" := (obind e (fun x => match x with p => k end))
  (at level 61, p pattern, e at next level, right associativity)
  : outcome_scope.
Notation "'require' b 'orelse' e ;; k" := (if b then k else Raised e)
  (at level 61, b at level 99, e at level 0, right associativity)
  : outcome_scope.

(** ** Arrays *)

Section Arrays.

Context {T : Type} `{Scalar T}.

(** An array in C order. *)
Record ndarray : Type := NDArray {
  shape : list Z;
  data : list T
}.

(** A strided view (the result of [as_strided]); strides count
    elements, the item size being the same everywhere. *)
Record view : Type := View {
  vshape : list Z;
  vstrides : list Z;
  vbuf : list T
}.

Definition size_of (sh : list Z) : Z := fold_right Z.mul 1 sh.

Definition ndim (a : ndarray) : Z := Z.of_nat (length (shape a)).

Definition well_formed (a : ndarray) : Prop :=
  Forall (fun n => 0 <= n) (shape a) /\
  Z.of_nat (length (data a)) = size_of (shape a).

Definition item (l : list T) (i : Z) : T := nth (Z.to_nat i) l szero.

(** The array of shape [(n0, n1, n2, n3)] whose element [(i, j, k, l)]
    is [g i j k l]. *)
Definition build4 (n0 n1 n2 n3 : Z) (g : Z -> Z -> Z -> Z -> T) : ndarray :=
  NDArray [n0; n1; n2; n3]
    (flat_map (fun i =>
       flat_map (fun j =>
         flat_map (fun k =>
           map (fun l => g i j k l) (range n3)) (range n2)) (range n1))
       (range n0)).

(** The array of shape [(n0, n1, n2, n3)] filled with [v]. *)
Definition full (n0 n1 n2 n3 : Z) (v : T) : ndarray :=
  build4 n0 n1 n2 n3 (fun _ _ _ _ => v).

(** Element [(i, j, k, l)] of a four-axis array. *)
Definition get4 (a : ndarray) (i j k l : Z) : T :=
  match shape a with
  | [_; n1; n2; n3] => item (data a) (((i * n1 + j) * n2 + k) * n3 + l)
  | _ => szero
  end.

(** Fewer than four axes are completed with leading axes of length 1,
    as broadcasting does. *)
Definition shape4 (a : ndarray) : outcome (Z * Z * Z * Z) :=
  match shape a with
  | [] => Returned (1, 1, 1, 1)
  | [n3] => Returned (1, 1, 1, n3)
  | [n2; n3] => Returned (1, 1, n2, n3)
  | [n1; n2; n3] => Returned (1, n1, n2, n3)
  | [n0; n1; n2; n3] => Returned (n0, n1, n2, n3)
  | _ => Raised Unmodelled
  end.

Definition at_least_4d (a : ndarray) : ndarray :=
  match shape a with
  | [] => NDArray [1; 1; 1; 1] (data a)
  | [n3] => NDArray [1; 1; 1; n3] (data a)
  | [n2; n3] => NDArray [1; 1; n2; n3] (data a)
  | [n1; n2; n3] => NDArray [1; n1; n2; n3] (data a)
  | _ => a
  end.

(** The shape of an array that must have exactly four axes; [e] is
    raised otherwise. *)
Definition exactly4 (e : exn) (a : ndarray) : outcome (Z * Z * Z * Z) :=
  match shape a with
  | [n0; n1; n2; n3] => Returned (n0, n1, n2, n3)
  | _ => Raised e
  end.

(** Sum of [g i] for [i] in [range(n)], and of the elements of a list. *)
Definition sum_list (l : list T) : T :=
  fold_left sadd l szero.

Definition sum_range (n : Z) (g : Z -> T) : T :=
  sum_list (map g (range n)).

(** [np.zeros(shape)] *)
Definition zeros (n0 n1 n2 n3 : Z) : outcome ndarray :=
  (require (0 <=? n0) && (0 <=? n1) && (0 <=? n2) && (0 <=? n3)
     orelse ValueError ;;
   Returned (full n0 n1 n2 n3 szero))%outcome.

(** *** Broadcasting *)

(** The common length of two axes. *)
Definition broadcast_dim (n m : Z) : outcome Z :=
  if n =? m then Returned n
  else if n =? 1 then Returned m
  else if m =? 1 then Returned n
  else Raised ValueError.

(** An axis of length [n] can be stretched to length [m]. *)
Definition stretches (n m : Z) : bool := (n =? m) || (n =? 1).

(** The index read on an axis of length [n]. *)
Definition bidx (n i : Z) : Z := if n =? 1 then 0 else i.

(** [a] read as if it had been broadcast. *)
Definition bget4 (a : ndarray) (i j k l : Z) : T :=
  match shape a with
  | [n0; n1; n2; n3] => get4 a (bidx n0 i) (bidx n1 j) (bidx n2 k) (bidx n3 l)
  | _ => szero
  end.

(** An element-wise binary operation [op(a, b)]. *)
Definition broadcast2 (op : T -> T -> T) (a b : ndarray) : outcome ndarray :=
  ('(a0, a1, a2, a3) <- shape4 a ;;
   '(b0, b1, b2, b3) <- shape4 b ;;
   n0 <- broadcast_dim a0 b0 ;;
   n1 <- broadcast_dim a1 b1 ;;
   n2 <- broadcast_dim a2 b2 ;;
   n3 <- broadcast_dim a3 b3 ;;
   let a' := at_least_4d a in
   let b' := at_least_4d b in
   let r := build4 n0 n1 n2 n3
              (fun i j k l => op (bget4 a' i j k l) (bget4 b' i j k l)) in
   let rank := Nat.max (length (shape a)) (length (shape b)) in
   Returned (NDArray (skipn (4 - rank) (shape r)) (data r)))%outcome.

(** An element-wise unary operation; an operation with a Python scalar
    on one side is one of these. *)
Definition map_array (g : T -> T) (a : ndarray) : ndarray :=
  NDArray (shape a) (map g (data a)).

(** An in-place operation [a op= b]: [a] keeps its shape, [b] is
    stretched to it. *)
Definition inplace2 (op : T -> T -> T) (a b : ndarray) : outcome ndarray :=
  ('(b0, b1, b2, b3) <- shape4 b ;;
   match shape a with
   | [a0; a1; a2; a3] =>
       require stretches b0 a0 && stretches b1 a1 && stretches b2 a2
               && stretches b3 a3 orelse ValueError ;;
       let b' := at_least_4d b in
       Returned (build4 a0 a1 a2 a3
                   (fun i j k l => op (get4 a i j k l) (bget4 b' i j k l)))
   | _ => Raised Unmodelled
   end)%outcome.

(** The shape seen by a subscript with four entries. *)
Definition four_axes (a : ndarray) : outcome (Z * Z * Z * Z) :=
  match shape a with
  | [n0; n1; n2; n3] => Returned (n0, n1, n2, n3)
  | _ :: _ :: _ :: _ :: _ :: _ => Raised Unmodelled
  | _ => Raised IndexError
  end.

(** [a[:, :, :, :] = 0] *)
Definition fill_zero (a : ndarray) : outcome ndarray :=
  ('(n0, n1, n2, n3) <- four_axes a ;;
   Returned (full n0 n1 n2 n3 szero))%outcome.

(** [np.pad(a, ((0, 0), (p, p), (p, p), (0, 0)), mode='constant',
    constant_values=(0, 0))] *)
Definition np_pad (a : ndarray) (p : Z) : outcome ndarray :=
  ('(n0, n1, n2, n3) <- exactly4 ValueError a ;;
   require 0 <=? p orelse ValueError ;;
   Returned (build4 n0 (n1 + 2 * p) (n2 + 2 * p) n3
               (fun i j k l =>
                  if (p <=? j) && (j <? n1 + p) && (p <=? k) && (k <? n2 + p)
                  then get4 a i (j - p) (k - p) l
                  else szero)))%outcome.

(** [a[:, s1, s2, :]] *)
Definition take12 (a : ndarray) (s1 s2 : slice) : outcome ndarray :=
  ('(n0, n1, n2, n3) <- four_axes a ;;
   require negb (sl_step s1 =? 0) && negb (sl_step s2 =? 0)
     orelse ValueError ;;
   let r1 := slice_indices s1 n1 in
   let r2 := slice_indices s2 n2 in
   Returned (build4 n0 (sel_len r1) (sel_len r2) n3
               (fun i j k l => get4 a i (sel_pos r1 j) (sel_pos r2 k) l)))%outcome.

(** [a[:, s1, s2, :] = v] and [a[:, s1, s2, :] op= v]: the new [a]. *)
Definition update12 (op : T -> T -> T) (a : ndarray) (s1 s2 : slice)
    (v : ndarray) : outcome ndarray :=
  ('(n0, n1, n2, n3) <- four_axes a ;;
   require negb (sl_step s1 =? 0) && negb (sl_step s2 =? 0)
     orelse ValueError ;;
   let r1 := slice_indices s1 n1 in
   let r2 := slice_indices s2 n2 in
   '(v0, v1, v2, v3) <- shape4 v ;;
   require stretches v0 n0 && stretches v1 (sel_len r1)
           && stretches v2 (sel_len r2) && stretches v3 n3
     orelse ValueError ;;
   let v' := at_least_4d v in
   Returned (build4 n0 n1 n2 n3
               (fun i j k l =>
                  match sel_rank r1 j, sel_rank r2 k with
                  | Some j', Some k' =>
                      op (get4 a i j k l) (bget4 v' i j' k' l)
                  | _, _ => get4 a i j k l
                  end)))%outcome.

Definition assign12 : ndarray -> slice -> slice -> ndarray -> outcome ndarray :=
  update12 (fun _ new => new).

(** [np.zeros(a.shape)] *)
Definition zeros_like (a : ndarray) : outcome ndarray :=
  ('(n0, n1, n2, n3) <- exactly4 Unmodelled a ;;
   zeros n0 n1 n2 n3)%outcome.

(** [np.rot90(a, 2)]: both leading axes are reversed. *)
Definition rot90_2 (a : ndarray) : outcome ndarray :=
  ('(n0, n1, n2, n3) <- four_axes a ;;
   Returned (build4 n0 n1 n2 n3
               (fun i j k l => get4 a (n0 - 1 - i) (n1 - 1 - j) k l)))%outcome.

(** [a.reshape(n0, n1, n2, n3)] *)
Definition reshape4 (a : ndarray) (n0 n1 n2 n3 : Z) : outcome ndarray :=
  (require (0 <=? n0) && (0 <=? n1) && (0 <=? n2) && (0 <=? n3)
     orelse Unmodelled ;;
   require size_of (shape a) =? size_of [n0; n1; n2; n3]
     orelse ValueError ;;
   Returned (NDArray [n0; n1; n2; n3] (data a)))%outcome.

(** [a.shape[k]] *)
Definition axis (a : ndarray) (k : nat) : outcome Z :=
  match nth_error (shape a) k with
  | Some n => Returned n
  | None => Raised IndexError
  end.

(** [a.shape[-1]] *)
Definition last_axis (a : ndarray) : outcome Z :=
  match rev (shape a) with
  | n :: _ => Returned n
  | [] => Raised IndexError
  end.

(** [a[:, :, :, c]], three axes. *)
Definition channel (a : ndarray) (c : Z) : outcome ndarray :=
  ('(n0, n1, n2, n3) <- four_axes a ;;
   require (0 <=? c) && (c <? n3) orelse IndexError ;;
   Returned (NDArray [n0; n1; n2]
               (data (build4 1 n0 n1 n2 (fun _ i j k => get4 a i j k c)))))%outcome.

(** [a[:, h, w, c]], one axis. *)
Definition fibre (a : ndarray) (h w c : Z) : outcome ndarray :=
  ('(n0, n1, n2, n3) <- four_axes a ;;
   require (0 <=? h) && (h <? n1) && (0 <=? w) && (w <? n2)
           && (0 <=? c) && (c <? n3) orelse IndexError ;;
   Returned (NDArray [n0]
               (data (build4 1 1 1 n0 (fun _ _ _ i => get4 a i h w c)))))%outcome.

(** [np.sum(a)] of a one-axis array, as a zero-axis array. *)
Definition np_sum (a : ndarray) : ndarray :=
  NDArray [] [sum_list (data a)].

(** [np.sum(a, axis=0)] of a four-axis array. *)
Definition sum_axis0 (a : ndarray) : outcome ndarray :=
  ('(n0, n1, n2, n3) <- exactly4 Unmodelled a ;;
   Returned (NDArray [n1; n2; n3]
               (data (build4 1 n1 n2 n3 (fun _ j k l =>
                  sum_range n0 (fun i => get4 a i j k l))))))%outcome.

(** [a[:, :, :, c] += v], the new [a]; [v] has at most three axes. *)
Definition iadd_channel (a : ndarray) (c : Z) (v : ndarray) : outcome ndarray :=
  ('(n0, n1, n2, n3) <- four_axes a ;;
   require (0 <=? c) && (c <? n3) orelse IndexError ;;
   require (length (shape v) <=? 3)%nat orelse ValueError ;;
   '(_, v1, v2, v3) <- shape4 v ;;
   require stretches v1 n0 && stretches v2 n1 && stretches v3 n2
     orelse ValueError ;;
   let v' := at_least_4d v in
   Returned (build4 n0 n1 n2 n3
               (fun i j k l =>
                  if l =? c
                  then sadd (get4 a i j k l) (bget4 v' 0 i j k)
                  else get4 a i j k l)))%outcome.

(** *** Strided views and contractions *)

(** [a.strides], in elements. *)
Fixpoint c_strides (sh : list Z) : list Z :=
  match sh with
  | [] => []
  | _ :: sh' => size_of sh' :: c_strides sh'
  end.

Definition strides (a : ndarray) : list Z := c_strides (shape a).

Fixpoint offset (idx st : list Z) : Z :=
  match idx, st with
  | i :: idx', s :: st' => i * s + offset idx' st'
  | _, _ => 0
  end.

Definition vget (v : view) (idx : list Z) : T :=
  item (vbuf v) (offset idx (vstrides v)).

(** The least and the greatest offset a view reads. *)
Definition lowest (sh st : list Z) : Z :=
  offset (map (fun n => n - 1) sh) (map (Z.min 0) st).
Definition highest (sh st : list Z) : Z :=
  offset (map (fun n => n - 1) sh) (map (Z.max 0) st).

(** [np.lib.stride_tricks.as_strided(a, shape=sh, strides=st,
    writeable=False)].  NumPy does not check that the view stays inside
    the buffer of [a]; what it would read outside is not described, and
    the embedding stops there. *)
Definition as_strided (a : ndarray) (sh st : list Z) : outcome view :=
  (require (length sh =? length st)%nat orelse ValueError ;;
   require forallb (fun n => 0 <=? n) sh orelse ValueError ;;
   require existsb (fun n => n =? 0) sh
           || ((0 <=? lowest sh st)
               && (highest sh st <? Z.of_nat (length (data a))))
     orelse Unmodelled ;;
   Returned (View sh st (data a)))%outcome.

(** [contract('pqrs,pqrtbmn->tbms', w, m)] *)
Definition contract_pqrs_pqrtbmn (w : ndarray) (m : view) : outcome ndarray :=
  ('(np, nq, nr, ns) <- exactly4 ValueError w ;;
   match vshape m with
   | [mp; mq; mr; nt; nb; nm; nn] =>
       require (np =? mp) && (nq =? mq) && (nr =? mr) orelse ValueError ;;
       Returned (build4 nt nb nm ns (fun t b' m' s =>
         sum_range np (fun p => sum_range nq (fun q =>
         sum_range nr (fun r => sum_range nn (fun n =>
           smul (get4 w p q r s) (vget m [p; q; r; t; b'; m'; n])))))))
   | _ => Raised ValueError
   end)%outcome.

(** [contract('pqrs,bmnspq->bmnr', w, m)] *)
Definition contract_pqrs_bmnspq (w : ndarray) (m : view) : outcome ndarray :=
  ('(np, nq, nr, ns) <- exactly4 ValueError w ;;
   match vshape m with
   | [nb; nm; nn; ms; mp; mq] =>
       require (np =? mp) && (nq =? mq) && (ns =? ms) orelse ValueError ;;
       Returned (build4 nb nm nn nr (fun b' m' n r =>
         sum_range np (fun p => sum_range nq (fun q =>
         sum_range ns (fun s =>
           smul (get4 w p q r s) (vget m [b'; m'; n; s; p; q]))))))
   | _ => Raised ValueError
   end)%outcome.

(** [contract('abcd,pqsabc->pqsd', z, m)] *)
Definition contract_abcd_pqsabc (z : ndarray) (m : view) : outcome ndarray :=
  ('(na, nb, nc, nd) <- exactly4 ValueError z ;;
   match vshape m with
   | [np; nq; ns; ma; mb; mc] =>
       require (na =? ma) && (nb =? mb) && (nc =? mc) orelse ValueError ;;
       Returned (build4 np nq ns nd (fun p q s d =>
         sum_range na (fun a => sum_range nb (fun b' =>
         sum_range nc (fun c =>
           smul (get4 z a b' c d) (vget m [p; q; s; a; b'; c]))))))
   | _ => Raised ValueError
   end)%outcome.

(** [contract('abcd->d', z).reshape(1, 1, 1, n)] *)
Definition contract_abcd_d (z : ndarray) (n : Z) : outcome ndarray :=
  ('(na, nb, nc, nd) <- exactly4 ValueError z ;;
   require 0 <=? n orelse Unmodelled ;;
   require nd =? n orelse ValueError ;;
   Returned (build4 1 1 1 n (fun _ _ _ d =>
     sum_range na (fun a => sum_range nb (fun b' => sum_range nc (fun c =>
       get4 z a b' c d))))))%outcome.

End Arrays.

Arguments ndarray : clear implicits.
Arguments view : clear implicits.

(** ** The layer *)

(** [l[k:]], [l[:-k]] and [l[-k]] on tuples of integers. *)
Definition py_from (k : nat) (l : list Z) : list Z := skipn k l.
Definition py_upto_back (k : nat) (l : list Z) : list Z :=
  firstn (length l - k) l.
Definition py_back (k : nat) (l : list Z) : Z := nth (length l - k) l 0.

Section Layer.

Context {T : Type} `{Scalar T}.

Definition dims : Type := Z * Z * Z * Z.

(** The instance fields.  [Zcache] is the field [Z] of the source. *)
Record ConvLayer : Type := {
  dim_in : dims;
  dim_out : dims;
  f : Z;
  n_c : Z;
  stride : Z;
  pad : Z;
  activation : string;
  lamb : T;
  X : ndarray T;
  Zcache : ndarray T;
  W : ndarray T;
  b : ndarray T;
  dX : ndarray T;
  dW : ndarray T;
  db : ndarray T;
  vW : ndarray T;
  vb : ndarray T;
  sW : ndarray T;
  sb : ndarray T;
  dZ_pad : ndarray T
}.

Definition set_X (v : ndarray T) (s : ConvLayer) : ConvLayer :=
  {| dim_in := dim_in s; dim_out := dim_out s; f := f s; n_c := n_c s;
     stride := stride s; pad := pad s; activation := activation s;
     lamb := lamb s; X := v; Zcache := Zcache s; W := W s; b := b s;
     dX := dX s; dW := dW s; db := db s; vW := vW s; vb := vb s;
     sW := sW s; sb := sb s; dZ_pad := dZ_pad s |}.
Definition set_Z (v : ndarray T) (s : ConvLayer) : ConvLayer :=
  {| dim_in := dim_in s; dim_out := dim_out s; f := f s; n_c := n_c s;
     stride := stride s; pad := pad s; activation := activation s;
     lamb := lamb s; X := X s; Zcache := v; W := W s; b := b s;
     dX := dX s; dW := dW s; db := db s; vW := vW s; vb := vb s;
     sW := sW s; sb := sb s; dZ_pad := dZ_pad s |}.
Definition set_W (v : ndarray T) (s : ConvLayer) : ConvLayer :=
  {| dim_in := dim_in s; dim_out := dim_out s; f := f s; n_c := n_c s;
     stride := stride s; pad := pad s; activation := activation s;
     lamb := lamb s; X := X s; Zcache := Zcache s; W := v; b := b s;
     dX := dX s; dW := dW s; db := db s; vW := vW s; vb := vb s;
     sW := sW s; sb := sb s; dZ_pad := dZ_pad s |}.
Definition set_b (v : ndarray T) (s : ConvLayer) : ConvLayer :=
  {| dim_in := dim_in s; dim_out := dim_out s; f := f s; n_c := n_c s;
     stride := stride s; pad := pad s; activation := activation s;
     lamb := lamb s; X := X s; Zcache := Zcache s; W := W s; b := v;
     dX := dX s; dW := dW s; db := db s; vW := vW s; vb := vb s;
     sW := sW s; sb := sb s; dZ_pad := dZ_pad s |}.
Definition set_dX (v : ndarray T) (s : ConvLayer) : ConvLayer :=
  {| dim_in := dim_in s; dim_out := dim_out s; f := f s; n_c := n_c s;
     stride := stride s; pad := pad s; activation := activation s;
     lamb := lamb s; X := X s; Zcache := Zcache s; W := W s; b := b s;
     dX := v; dW := dW s; db := db s; vW := vW s; vb := vb s;
     sW := sW s; sb := sb s; dZ_pad := dZ_pad s |}.
Definition set_dW (v : ndarray T) (s : ConvLayer) : ConvLayer :=
  {| dim_in := dim_in s; dim_out := dim_out s; f := f s; n_c := n_c s;
     stride := stride s; pad := pad s; activation := activation s;
     lamb := lamb s; X := X s; Zcache := Zcache s; W := W s; b := b s;
     dX := dX s; dW := v; db := db s; vW := vW s; vb := vb s;
     sW := sW s; sb := sb s; dZ_pad := dZ_pad s |}.
Definition set_db (v : ndarray T) (s : ConvLayer) : ConvLayer :=
  {| dim_in := dim_in s; dim_out := dim_out s; f := f s; n_c := n_c s;
     stride := stride s; pad := pad s; activation := activation s;
     lamb := lamb s; X := X s; Zcache := Zcache s; W := W s; b := b s;
     dX := dX s; dW := dW s; db := v; vW := vW s; vb := vb s;
     sW := sW s; sb := sb s; dZ_pad := dZ_pad s |}.
Definition set_vW (v : ndarray T) (s : ConvLayer) : ConvLayer :=
  {| dim_in := dim_in s; dim_out := dim_out s; f := f s; n_c := n_c s;
     stride := stride s; pad := pad s; activation := activation s;
     lamb := lamb s; X := X s; Zcache := Zcache s; W := W s; b := b s;
     dX := dX s; dW := dW s; db := db s; vW := v; vb := vb s;
     sW := sW s; sb := sb s; dZ_pad := dZ_pad s |}.
Definition set_vb (v : ndarray T) (s : ConvLayer) : ConvLayer :=
  {| dim_in := dim_in s; dim_out := dim_out s; f := f s; n_c := n_c s;
     stride := stride s; pad := pad s; activation := activation s;
     lamb := lamb s; X := X s; Zcache := Zcache s; W := W s; b := b s;
     dX := dX s; dW := dW s; db := db s; vW := vW s; vb := v;
     sW := sW s; sb := sb s; dZ_pad := dZ_pad s |}.
Definition set_sW (v : ndarray T) (s : ConvLayer) : ConvLayer :=
  {| dim_in := dim_in s; dim_out := dim_out s; f := f s; n_c := n_c s;
     stride := stride s; pad := pad s; activation := activation s;
     lamb := lamb s; X := X s; Zcache := Zcache s; W := W s; b := b s;
     dX := dX s; dW := dW s; db := db s; vW := vW s; vb := vb s;
     sW := v; sb := sb s; dZ_pad := dZ_pad s |}.
Definition set_sb (v : ndarray T) (s : ConvLayer) : ConvLayer :=
  {| dim_in := dim_in s; dim_out := dim_out s; f := f s; n_c := n_c s;
     stride := stride s; pad := pad s; activation := activation s;
     lamb := lamb s; X := X s; Zcache := Zcache s; W := W s; b := b s;
     dX := dX s; dW := dW s; db := db s; vW := vW s; vb := vb s;
     sW := sW s; sb := v; dZ_pad := dZ_pad s |}.
Definition set_dZ_pad (v : ndarray T) (s : ConvLayer) : ConvLayer :=
  {| dim_in := dim_in s; dim_out := dim_out s; f := f s; n_c := n_c s;
     stride := stride s; pad := pad s; activation := activation s;
     lamb := lamb s; X := X s; Zcache := Zcache s; W := W s; b := b s;
     dX := dX s; dW := dW s; db := db s; vW := vW s; vb := vb s;
     sW := sW s; sb := sb s; dZ_pad := v |}.

(** *** Methods

    A method runs on the layer and leaves a layer behind, whether it
    returns or raises. *)

Definition method (A : Type) : Type := ConvLayer -> ConvLayer * outcome A.

Definition mret {A} (a : A) : method A := fun self => (self, Returned a).

Definition mbind {A B} (m : method A) (k : A -> method B) : method B :=
  fun self =>
    match m self with
    | (self', Returned a) => k a self'
    | (self', Raised e) => (self', Raised e)
    end.

(** A computation that does not touch the layer. *)
Definition lift {A} (o : outcome A) : method A := fun self => (self, o).

(** [self.field] *)
Definition read {A} (field : ConvLayer -> A) : method A :=
  fun self => (self, Returned (field self)).

(** [self.field = v], with [field_setter] one of the [set_] functions. *)
Definition write (setter : ConvLayer -> ConvLayer) : method unit :=
  fun self => (setter self, Returned tt).

End Layer.

Arguments ConvLayer : clear implicits.
Arguments method : clear implicits.

Declare Scope method_scope.
Delimit Scope method_scope with method.
Notation "x <- e ;; k" := (mbind e (fun x => k))
  (at level 61, e at next level, right associativity) : method_scope.
Notation "' p <- e ;; k" := (mbind e (fun x => match x with p => k end))
  (at level 61, p pattern, e at next level, right associativity)
  : method_scope.
Notation "e ;; k" := (mbind e (fun _ => k))
  (at level 61, right associativity) : method_scope.

Section Methods.

Context {T : Type} `{Scalar T}.
Local Open Scope method_scope.

(** [for i in l: acc = body(i, acc)] *)
Fixpoint for_each {S : Type} (l : list Z) (body : Z -> S -> method T S)
    (acc : S) : method T S :=
  match l with
  | [] => mret acc
  | i :: l' => acc' <- body i acc ;; for_each l' body acc'
  end.

(** [_relu] *)
Definition relu (z : ndarray T) : ndarray T :=
  map_array (smaximum szero) z.

(** [_deriv_relu]: [np.float64(z > 0)] *)
Definition deriv_relu (z : ndarray T) : ndarray T :=
  map_array (fun x => if spositive x then sone else szero) z.

(** [_allocate_dZ_pad] *)
Definition allocate_dZ_pad (m : Z) : method T (ndarray T) :=
  x <- read X ;;
  w <- read W ;;
  z <- read Zcache ;;
  x1 <- lift (axis x 1) ;;
  w0 <- lift (axis w 0) ;;
  let in_h := x1 + (w0 - 1) in
  x2 <- lift (axis x 2) ;;
  let in_w := x2 + (w0 - 1) in
  zc <- lift (last_axis z) ;;
  lift (zeros m in_h in_w zc).

(** [forward]; the result is [None] when the activation is neither
    ['relu'] nor ['none']. *)
Definition forward (x : ndarray T) : method T (option (ndarray T)) :=
  write (set_X x) ;;
  f <- read f ;;
  pad <- read pad ;;
  stride <- read stride ;;
  x1 <- lift (axis x 1) ;;
  q_h <- lift (int_truediv (x1 - f + 2 * pad) stride) ;;
  let n_h := q_h + 1 in
  x2 <- lift (axis x 2) ;;
  q_w <- lift (int_truediv (x2 - f + 2 * pad) stride) ;;
  let n_w := q_w + 1 in
  x_pad <- lift (if negb (pad =? 0) then np_pad x pad else Returned x) ;;
  '(_, _, _, c_in) <- read dim_in ;;
  x0 <- lift (axis x 0) ;;
  let sh := [f; f; c_in; x0; n_h; n_w; 1] in
  let st := py_from 1 (strides x_pad ++ strides x_pad) in
  let st := py_upto_back 3 st
            ++ [py_back 3 st * stride; py_back 2 st * stride; py_back 1 st] in
  M <- lift (as_strided x_pad sh st) ;;
  w <- read W ;;
  z <- lift (contract_pqrs_pqrtbmn w M) ;;
  write (set_Z z) ;;
  z <- read Zcache ;;
  b <- read b ;;
  z <- lift (broadcast2 sadd z b) ;;
  write (set_Z z) ;;
  act <- read activation ;;
  if (act =? "relu")%string then z <- read Zcache ;; mret (Some (relu z))
  else if (act =? "none")%string then z <- read Zcache ;; mret (Some z)
  else mret None.

(** The regularisation step shared by both backward passes:
    [self.dW += self.lamb/self.dim_in[0]*self.W]; [lamb] is a Python
    float, as the default of the constructor is, so that a batch size
    of 0 in [dim_in] raises. *)
Definition add_regularisation : method T unit :=
  g <- read dW ;;
  lamb <- read lamb ;;
  '(m0, _, _, _) <- read dim_in ;;
  lift (if m0 =? 0 then Raised ZeroDivisionError else Returned tt) ;;
  w <- read W ;;
  g <- lift (inplace2 sadd g (map_array (smul (sdiv lamb (of_int m0))) w)) ;;
  write (set_dW g).

(** [conv_backward], the body of the innermost loop: the contributions
    of output position [(h, w)] and channel [c]; the result is the new
    [dx_pad]. *)
Definition conv_backward_body (x_pad dZ : ndarray T)
    (h w c v_s v_e h_s h_e : Z) (dx_pad : ndarray T)
    : method T (ndarray T) :=
  (* dx_pad[:, v_s:v_e, h_s:h_e, :] += W[:, :, :, c] * dZ[:, h, w, c].reshape(dZ.shape[0], 1, 1, 1) *)
  wt <- read W ;;
  w_c <- lift (channel wt c) ;;
  col <- lift (fibre dZ h w c) ;;
  dZ0 <- lift (axis dZ 0) ;;
  col <- lift (reshape4 col dZ0 1 1 1) ;;
  term <- lift (broadcast2 smul w_c col) ;;
  dx_pad <- lift (update12 sadd dx_pad (from_to v_s v_e)
                    (from_to h_s h_e) term) ;;
  (* self.dW[:, :, :, c] += np.sum(x_pad[:, v_s:v_e, h_s:h_e] * dZ[:, h, w, c].reshape(dZ.shape[0], 1, 1, 1), axis=0) *)
  g <- read dW ;;
  lift (channel g c) ;;
  win <- lift (take12 x_pad (from_to v_s v_e) (from_to h_s h_e)) ;;
  term <- lift (broadcast2 smul win col) ;;
  term <- lift (sum_axis0 term) ;;
  g <- lift (iadd_channel g c term) ;;
  write (set_dW g) ;;
  (* self.db[:, :, :, c] += np.sum(dZ[:, h, w, c]) *)
  g <- read db ;;
  lift (channel g c) ;;
  col <- lift (fibre dZ h w c) ;;
  g <- lift (iadd_channel g c (np_sum col)) ;;
  write (set_db g) ;;
  mret dx_pad.

(** [conv_backward], up to the assignment of [dX]: the gradients before
    regularisation. *)
Definition conv_backward_accumulate (dA : ndarray T) : method T unit :=
  g <- read dW ;;
  g <- lift (fill_zero g) ;;
  write (set_dW g) ;;
  g <- read db ;;
  g <- lift (fill_zero g) ;;
  write (set_db g) ;;
  '(m, n_h, n_w, n_c) <- lift (exactly4 ValueError dA) ;;
  x <- read X ;;
  pad <- read pad ;;
  stride <- read stride ;;
  f <- read f ;;
  x_pad <- lift (np_pad x pad) ;;
  g <- read dX ;;
  dx_pad <- lift (np_pad g pad) ;;
  z <- read Zcache ;;
  dZ <- lift (broadcast2 smul dA (deriv_relu z)) ;;
  dx_pad <-
    for_each (range n_h) (fun h dx_pad =>
      let v_s := h * stride in
      let v_e := h * stride + f in
      for_each (range n_w) (fun w dx_pad =>
        let h_s := w * stride in
        let h_e := w * stride + f in
        for_each (range n_c) (fun c dx_pad =>
          conv_backward_body x_pad dZ h w c v_s v_e h_s h_e dx_pad)
          dx_pad) dx_pad) dx_pad ;;
  (* self.dX[:, :, :, :] = dx_pad[:, self.pad:-self.pad, self.pad:-self.pad, :] *)
  inner <- lift (take12 dx_pad (from_to pad (- pad)) (from_to pad (- pad))) ;;
  g <- read dX ;;
  g <- lift (assign12 g whole whole inner) ;;
  write (set_dX g).

(** [conv_backward] *)
Definition conv_backward (dA : ndarray T) : method T (ndarray T) :=
  conv_backward_accumulate dA ;;
  add_regularisation ;;
  read dX.

(** [backward], its first statement: [dZ]. *)
Definition backward_dZ (dA : ndarray T) : method T (ndarray T) :=
  z <- read Zcache ;;
  if (length (shape dA) =? 2)%nat
  then m <- lift (axis dA 1) ;;
       '(_, d1, d2, d3) <- read dim_out ;;
       r <- lift (reshape4 dA m d1 d2 d3) ;;
       lift (broadcast2 smul r (deriv_relu z))
  else lift (broadcast2 smul dA (deriv_relu z)).

(** [backward], up to the contraction that yields [dW]: the gradients
    of the input and of the weights before regularisation; the result
    is [dZ]. *)
Definition backward_contract (dA : ndarray T) : method T (ndarray T) :=
  dZ <- backward_dZ dA ;;
  dZ0 <- lift (axis dZ 0) ;;
  p <- read dZ_pad ;;
  p0 <- lift (axis p 0) ;;
  (if negb (dZ0 =? p0)
   then p <- allocate_dZ_pad dZ0 ;; write (set_dZ_pad p)
   else mret tt) ;;
  g <- read dW ;;
  g <- lift (fill_zero g) ;;
  write (set_dW g) ;;
  g <- read db ;;
  g <- lift (fill_zero g) ;;
  write (set_db g) ;;
  x <- read X ;;
  lift (exactly4 ValueError x) ;;
  w <- read W ;;
  '(_, f, n_C_prev, _) <- lift (exactly4 ValueError w) ;;
  stride <- read stride ;;
  pad <- read pad ;;
  '(m, n_H, n_W, n_C) <- lift (exactly4 ValueError dZ) ;;
  W_rot <- lift (rot90_2 w) ;;
  w0 <- lift (axis w 0) ;;
  let pad_dZ := w0 - (pad + 1) in
  p <- read dZ_pad ;;
  lift (exactly4 Unmodelled p) ;;
  p <- lift (if pad_dZ =? 0
             then assign12 p (Slice (Some 0) None stride)
                    (Slice (Some 0) None stride) dZ
             else assign12 p (Slice (Some pad_dZ) (Some (- pad_dZ)) stride)
                    (Slice (Some pad_dZ) (Some (- pad_dZ)) stride) dZ) ;;
  write (set_dZ_pad p) ;;
  p <- read dZ_pad ;;
  p0 <- lift (axis p 0) ;;
  p1 <- lift (axis p 1) ;;
  p2 <- lift (axis p 2) ;;
  p3 <- lift (axis p 3) ;;
  r0 <- lift (axis W_rot 0) ;;
  r1 <- lift (axis W_rot 1) ;;
  let sh := [p0; p1 - r0 + 1; p2 - r1 + 1; p3; r0; r1] in
  let st := strides p in
  let st := [nth 0 st 0; nth 1 st 0; nth 2 st 0; nth 3 st 0;
             nth 1 st 0; nth 2 st 0] in
  M <- lift (as_strided p sh st) ;;
  g <- lift (contract_pqrs_bmnspq W_rot M) ;;
  write (set_dX g) ;;
  X_pad <- lift (np_pad x pad) ;;
  let shape_Z := [f; f; n_C_prev; m; n_H; n_W] in
  let strides_Z := py_from 1 (strides X_pad) ++ firstn 3 (strides X_pad) in
  let strides_Z := py_upto_back 2 strides_Z
                   ++ [py_back 2 strides_Z * stride;
                       py_back 1 strides_Z * stride] in
  M <- lift (as_strided X_pad shape_Z strides_Z) ;;
  g <- lift (contract_abcd_pqsabc dZ M) ;;
  write (set_dW g) ;;
  mret dZ.

(** [backward] *)
Definition backward (dA : ndarray T) : method T (ndarray T) :=
  dZ <- backward_contract dA ;;
  add_regularisation ;;
  n_C <- lift (axis dZ 3) ;;
  g <- lift (contract_abcd_d dZ n_C) ;;
  write (set_db g) ;;
  read dX.

(** [update_parameters]; [pow x t] is [x**t] on a Python float and a
    Python integer, which the interpreter hands to the platform's
    [pow]. *)
Definition update_parameters (pow : T -> Z -> T)
    (rate : T) (t : Z) (beta1 beta2 epsilon : T) : method T unit :=
  v <- read vW ;;
  g <- read dW ;;
  v <- lift (broadcast2 sadd (map_array (smul beta1) v)
               (map_array (smul (ssub sone beta1)) g)) ;;
  write (set_vW v) ;;
  v <- read vb ;;
  g <- read db ;;
  v <- lift (broadcast2 sadd (map_array (smul beta1) v)
               (map_array (smul (ssub sone beta1)) g)) ;;
  write (set_vb v) ;;
  v <- read sW ;;
  g <- read dW ;;
  v <- lift (broadcast2 sadd (map_array (smul beta2) v)
               (map_array (smul (ssub sone beta2))
                  (map_array (fun d => smul d d) g))) ;;
  write (set_sW v) ;;
  v <- read sb ;;
  g <- read db ;;
  v <- lift (broadcast2 sadd (map_array (smul beta2) v)
               (map_array (smul (ssub sone beta2))
                  (map_array (fun d => smul d d) g))) ;;
  write (set_sb v) ;;
  v <- read vW ;;
  let vW_hat := map_array (fun e => sdiv e (ssub sone (pow beta1 t))) v in
  v <- read vb ;;
  let vb_hat := map_array (fun e => sdiv e (ssub sone (pow beta1 t))) v in
  v <- read sW ;;
  let sW_hat := map_array (fun e => sdiv e (ssub sone (pow beta2 t))) v in
  v <- read sb ;;
  let sb_hat := map_array (fun e => sdiv e (ssub sone (pow beta2 t))) v in
  w <- read W ;;
  step <- lift (broadcast2 sdiv (map_array (smul rate) vW_hat)
                  (map_array (fun e => sadd (ssqrt e) epsilon) sW_hat)) ;;
  w <- lift (inplace2 ssub w step) ;;
  write (set_W w) ;;
  w <- read b ;;
  step <- lift (broadcast2 sdiv (map_array (smul rate) vb_hat)
                  (map_array (fun e => sadd (ssqrt e) epsilon) sb_hat)) ;;
  w <- lift (inplace2 ssub w step) ;;
  write (set_b w).

(** [__init_weights]; [randn] is the array drawn by
    [np.random.randn(f, f, dim_in[-1], c)]. *)
Definition init_weights (f c : Z) (dim_in : dims) (randn : ndarray T)
    : outcome (ndarray T) :=
  (let '(_, h, w, c_in) := dim_in in
   require (0 <=? f) && (0 <=? c_in) && (0 <=? c) orelse ValueError ;;
   require same_shape (shape randn) [f; f; c_in; c] orelse Unmodelled ;;
   require negb (h * w =? 0) orelse ZeroDivisionError ;;
   let scale := ssqrt (of_quotient 2 (h * w)) in
   Returned (map_array (fun e => smul e scale) randn))%outcome.

(** [__init__] *)
Definition init (dim_in : dims) (f c stride pad : Z) (activation : string)
    (lamb : T) (randn : ndarray T) : outcome (ConvLayer T) :=
  (let '(m0, h, w, c_in) := dim_in in
   q_h <- int_truediv (h - f + 2 * pad) stride ;;
   q_w <- int_truediv (w - f + 2 * pad) stride ;;
   let dim_out := (m0, 1 + q_h, 1 + q_w, c) in
   x <- zeros m0 h w c_in ;;
   z <- zeros m0 (1 + q_h) (1 + q_w) c ;;
   wt <- init_weights f c dim_in randn ;;
   bias <- zeros 1 1 1 c ;;
   gx <- zeros_like x ;;
   gw <- zeros_like wt ;;
   gb <- zeros_like bias ;;
   mw <- zeros_like wt ;;
   mb <- zeros_like bias ;;
   qw <- zeros_like wt ;;
   qb <- zeros_like bias ;;
   let self :=
     {| dim_in := dim_in; dim_out := dim_out; f := f; n_c := c;
        stride := stride; pad := pad; activation := activation;
        lamb := lamb; X := x; Zcache := z; W := wt; b := bias;
        dX := gx; dW := gw; db := gb; vW := mw; vb := mb;
        sW := qw; sb := qb; dZ_pad := NDArray [] [] |} in
   p <- snd (allocate_dZ_pad m0 self) ;;
   Returned (set_dZ_pad p self))%outcome.

End Methods.

(** * Vocabulary of the properties *)

Section Vocabulary.

Context {T : Type} `{Scalar T}.

(** The method [m] returns from [s], and the layer and the value it
    leaves satisfy [Q]. *)
Definition returns_with {A} (m : method T A) (s : ConvLayer T)
    (Q : ConvLayer T -> A -> Prop) : Prop :=
  exists s' a, m s = (s', Returned a) /\ Q s' a.

(** The method [m] never changes what [field] reads, whether it
    returns or raises. *)
Definition preserves {A B} (field : ConvLayer T -> B) (m : method T A)
    : Prop :=
  forall s, field (fst (m s)) = field s.

(** The backward passes write [dX], [dW], [db] and [dZ_pad] only. *)
Definition gradient_free {B} (field : ConvLayer T -> B) : Prop :=
  (forall v s, field (set_dX v s) = field s) /\
  (forall v s, field (set_dW v s) = field s) /\
  (forall v s, field (set_db v s) = field s) /\
  (forall v s, field (set_dZ_pad v s) = field s).

(** [g'] is [g] plus [lamb / dim_in[0]] times the weights, with the
    fields of the layer [s]. *)
Definition regularised (s : ConvLayer T) (g g' : ndarray T) : Prop :=
  let '(m0, _, _, _) := dim_in s in
  m0 <> 0 /\
  inplace2 sadd g (map_array (smul (sdiv (lamb s) (of_int m0))) (W s))
  = Returned g'.

(** The layer without the gradients selected by [x], [w] and [b0]. *)
Definition without (x w b0 : bool) (s : ConvLayer T) : ConvLayer T :=
  let s := if b0 then set_db (NDArray [] []) s else s in
  let s := if w then set_dW (NDArray [] []) s else s in
  if x then set_dX (NDArray [] []) s else s.

(** Two layers that differ at most in the selected gradients; [dW] and
    [db] have the same shape in both. *)
Definition same_but (x w b0 : bool) (s1 s2 : ConvLayer T) : Prop :=
  without x w b0 s1 = without x w b0 s2 /\
  shape (dW s1) = shape (dW s2) /\
  shape (db s1) = shape (db s2).

(** Two runs that end alike: both raise the same exception, or both
    return the same value and leave layers related by [R]. *)
Definition alike {A} (R : ConvLayer T -> ConvLayer T -> Prop)
    (r1 r2 : ConvLayer T * outcome A) : Prop :=
  match snd r1, snd r2 with
  | Returned a1, Returned a2 => a1 = a2 /\ R (fst r1) (fst r2)
  | Raised e1, Raised e2 => e1 = e2
  | _, _ => False
  end.

(** From layers related by [R] the method [m] ends alike, the layers it
    leaves being related by [R']. *)
Definition related {A} (R R' : ConvLayer T -> ConvLayer T -> Prop)
    (m : method T A) : Prop :=
  forall s1 s2, R s1 s2 -> alike R' (m s1) (m s2).

(** Element [(i, j, k, l)] of [x] padded with [p] zeros on both sides of
    its two spatial axes, of lengths [h] and [w]. *)
Definition padded_at (x : ndarray T) (h w p : Z) (i j k l : Z) : T :=
  if (p <=? j) && (j <? h + p) && (p <=? k) && (k <? w + p)
  then get4 x i (j - p) (k - p) l
  else szero.

(** The sum over the window of [f * f * c_in] inputs at output position
    [(i, j)] of image [t], weighted by channel [l] of [w]; [xp] reads
    the padded input.  The innermost sum runs over the last axis of the
    view of [forward], of length 1. *)
Definition window_sum (w : ndarray T) (xp : Z -> Z -> Z -> Z -> T)
    (f c_in stride : Z) (t i j l : Z) : T :=
  sum_range f (fun p => sum_range f (fun q => sum_range c_in (fun r =>
    sum_range 1 (fun _ =>
      smul (get4 w p q r l) (xp t (i * stride + p) (j * stride + q) r))))).

(** What [forward] reads of the layer, and what it leaves in it. *)
Definition same_parameters (s1 s2 : ConvLayer T) : Prop :=
  W s1 = W s2 /\ b s1 = b s2 /\ f s1 = f s2 /\ pad s1 = pad s2 /\
  stride s1 = stride s2 /\ dim_in s1 = dim_in s2 /\
  activation s1 = activation s2.

Definition same_caches (s1 s2 : ConvLayer T) : Prop :=
  X s1 = X s2 /\ Zcache s1 = Zcache s2.

End Vocabulary.

(** ** Integers in binary64 *)

(** The binary64 of an integer below 2^53: the mantissa is shifted to 53
    digits. *)
Definition canon (k : Z) : B64.float :=
  match k with
  | Z0 => S754_zero false
  | _ => S754_finite (k <? 0)
           (Z.to_pos (Z.abs k * 2 ^ (53 - Zdigits2 k))) (Zdigits2 k - 53)
  end.

(** [x] is the integer [k]; a zero of either sign is the integer 0. *)
Definition holds_int (k : Z) (x : B64.float) : Prop :=
  x = B64.of_Z k \/ (k = 0 /\ x = S754_zero true).

(** The sum of [g 0], ..., [g (n - 1)]. *)
Definition int_sum (n : Z) (g : Z -> Z) : Z :=
  fold_left Z.add (map g (range n)) 0.

(** The integers of a padded input, and the sum over a window of
    integers: [padded_at] and [window_sum] on integers. *)
Definition int_padded (xi : Z -> Z -> Z -> Z -> Z) (h w p : Z)
    (i j k l : Z) : Z :=
  if (p <=? j) && (j <? h + p) && (p <=? k) && (k <? w + p)
  then xi i (j - p) (k - p) l
  else 0.

Definition int_window_sum (wi xp : Z -> Z -> Z -> Z -> Z)
    (f c_in stride : Z) (t i j l : Z) : Z :=
  int_sum f (fun p => int_sum f (fun q => int_sum c_in (fun r =>
    wi p q r l * xp t (i * stride + p) (j * stride + q) r))).

(** The second half of [binary_round_aux]: the rounded mantissa is
    brought back into range. *)
Definition renormalise (s : bool) (m e : Z) : spec_float :=
  let '(mrs, e') := shr_fexp B64.prec B64.emax m e loc_Exact in
  match shr_m mrs with
  | Z0 => S754_zero s
  | Zpos m' => if e' <=? B64.emax - B64.prec then S754_finite s m' e'
               else S754_infinity s
  | _ => S754_nan
  end.

(** ** Floating-point conditions of the Adam update *)

Definition nonneg_finite (x : B64.float) : bool :=
  match x with
  | S754_zero false | S754_finite false _ _ => true
  | _ => false
  end.

Definition finite (x : B64.float) : bool :=
  match x with
  | S754_zero _ | S754_finite _ _ _ => true
  | _ => false
  end.

Definition positive (x : B64.float) : bool :=
  match x with
  | S754_finite false _ _ | S754_infinity false => true
  | _ => false
  end.

(** What the scalars of a call have to satisfy. *)
Definition adam_scalars (rate beta1 beta2 epsilon : B64.float) : bool :=
  nonneg_finite rate && nonneg_finite beta1 && nonneg_finite beta2
  && finite (B64.sub B64.one beta1) && finite (B64.sub B64.one beta2)
  && positive epsilon.

Definition adam_step (pow : B64.float -> Z -> B64.float)
    (beta1 beta2 : B64.float) (t : Z) : bool :=
  positive (B64.sub B64.one (pow beta1 t))
  && positive (B64.sub B64.one (pow beta2 t)).

(** Successive calls of [update_parameters], one for each step index. *)
Fixpoint update_repeatedly (pow : B64.float -> Z -> B64.float)
    (rate beta1 beta2 epsilon : B64.float) (ts : list Z)
    : method B64.float unit :=
  match ts with
  | [] => mret tt
  | t :: ts' =>
      mbind (update_parameters pow rate t beta1 beta2 epsilon)
        (fun _ => update_repeatedly pow rate beta1 beta2 epsilon ts')
  end.

(** ** The layers of the examples

    The end-to-end example is a layer built with
    [input_shape = (2, 4, 4, 1)], [f = 2], one output channel, stride 1,
    no padding and the identity activation, whose weights are then set to
    one. *)

Definition ones (n0 n1 n2 n3 : Z) : ndarray B64.float :=
  full n0 n1 n2 n3 B64.one.

(** The array whose elements count up from [k] in row-major order. *)
Definition ramp (n0 n1 n2 n3 k : Z) : ndarray B64.float :=
  build4 n0 n1 n2 n3 (fun i j h l =>
    B64.of_Z (k + (((i * n1 + j) * n2 + h) * n3 + l))).

Definition example_init (lamb : B64.float) (randn : ndarray B64.float)
    : outcome (ConvLayer B64.float) :=
  init (2, 4, 4, 1) 2 1 1 0 "none" lamb randn.

(** The example layer once its weights are set. *)
Definition example_layer (lamb : B64.float) : ConvLayer B64.float :=
  {| dim_in := (2, 4, 4, 1); dim_out := (2, 3, 3, 1); f := 2; n_c := 1;
     stride := 1; pad := 0; activation := "none"; lamb := lamb;
     X := full 2 4 4 1 B64.zero; Zcache := full 2 3 3 1 B64.zero;
     W := ones 2 2 1 1; b := full 1 1 1 1 B64.zero;
     dX := full 2 4 4 1 B64.zero; dW := full 2 2 1 1 B64.zero;
     db := full 1 1 1 1 B64.zero;
     vW := full 2 2 1 1 B64.zero; vb := full 1 1 1 1 B64.zero;
     sW := full 2 2 1 1 B64.zero; sb := full 1 1 1 1 B64.zero;
     dZ_pad := full 2 5 5 1 B64.zero |}.

(** A layer with padding: input shape [(2, 3, 3, 1)], [f = 2], one output
    channel, stride 1, [pad = 1], weights set to one. *)
Definition padded_layer (lamb : B64.float) : ConvLayer B64.float :=
  {| dim_in := (2, 3, 3, 1); dim_out := (2, 4, 4, 1); f := 2; n_c := 1;
     stride := 1; pad := 1; activation := "relu"; lamb := lamb;
     X := full 2 3 3 1 B64.zero; Zcache := full 2 4 4 1 B64.zero;
     W := ones 2 2 1 1; b := full 1 1 1 1 B64.zero;
     dX := full 2 3 3 1 B64.zero; dW := full 2 2 1 1 B64.zero;
     db := full 1 1 1 1 B64.zero;
     vW := full 2 2 1 1 B64.zero; vb := full 1 1 1 1 B64.zero;
     sW := full 2 2 1 1 B64.zero; sb := full 1 1 1 1 B64.zero;
     dZ_pad := full 2 4 4 1 B64.zero |}.

(** [x**t] by repeated multiplication, for [t >= 0]. *)
Definition repeated_product (x : B64.float) (t : Z) : B64.float :=
  match t with
  | Zpos p => Pos.iter (B64.mul x) B64.one p
  | _ => B64.one
  end.

(** The example layer after [forward] on the all-ones input. *)
Definition after_forward : ConvLayer B64.float :=
  fst (forward (ones 2 4 4 1) (example_layer B64.zero)).

(** The padded layer after [forward] on the all-ones input. *)
Definition padded_after_forward : ConvLayer B64.float :=
  fst (forward (ones 2 3 3 1) (padded_layer B64.zero)).

Definition nan_or_infinity (x : B64.float) : Prop :=
  x = S754_nan \/ exists s, x = S754_infinity s.

(** * Properties *)

(** ** Running a method *)

Section Running.

Context {T : Type} `{Scalar T}.

Lemma mbind_cong {A B} (m1 m2 : method T A) (k : A -> method T B) s :
  m1 s = m2 s -> mbind m1 k s = mbind m2 k s.
Proof. unfold mbind. intros ->. reflexivity. Qed.

Lemma mbind_returned {A B} (m : method T A) (k : A -> method T B) s s' a :
  m s = (s', Returned a) -> mbind m k s = k a s'.
Proof. unfold mbind. intros ->. reflexivity. Qed.

Lemma mbind_raised {A B} (m : method T A) (k : A -> method T B) s s' e :
  m s = (s', Raised e) -> mbind m k s = (s', Raised e).
Proof. unfold mbind. intros ->. reflexivity. Qed.

Lemma mbind_read {A B} (field : ConvLayer T -> A) (k : A -> method T B) s :
  mbind (read field) k s = k (field s) s.
Proof. reflexivity. Qed.

Lemma mbind_write {B} (setter : ConvLayer T -> ConvLayer T)
    (k : unit -> method T B) s :
  mbind (write setter) k s = k tt (setter s).
Proof. reflexivity. Qed.

Lemma mbind_lift {A B} (o : outcome A) (k : A -> method T B) s :
  mbind (lift o) k s
  = match o with Returned a => k a s | Raised e => (s, Raised e) end.
Proof. unfold mbind, lift. destruct o; reflexivity. Qed.

Lemma mbind_mret {A B} (a : A) (k : A -> method T B) s :
  mbind (mret a) k s = k a s.
Proof. reflexivity. Qed.

(** What a method returns when it returns. *)
Lemma mbind_inv {A B} (m : method T A) (k : A -> method T B) s s' r :
  mbind m k s = (s', Returned r) ->
  exists s1 a, m s = (s1, Returned a) /\ k a s1 = (s', Returned r).
Proof.
  unfold mbind. destruct (m s) as [s1 [a|e]]; intros E.
  - exists s1, a. split; [reflexivity|exact E].
  - discriminate E.
Qed.

Lemma returns_with_mbind {A B} (m : method T A) (k : A -> method T B) s Q :
  returns_with m s (fun s1 a => returns_with (k a) s1 Q) ->
  returns_with (mbind m k) s Q.
Proof.
  intros (s1 & a & Em & s' & r & Ek & HQ). exists s', r.
  split; [|exact HQ]. unfold mbind. rewrite Em. exact Ek.
Qed.

Lemma returns_with_read {A} (field : ConvLayer T -> A) s
    (Q : ConvLayer T -> A -> Prop) :
  Q s (field s) -> returns_with (read field) s Q.
Proof. intros HQ. exists s, (field s). split; [reflexivity|exact HQ]. Qed.

Lemma returns_with_write (setter : ConvLayer T -> ConvLayer T) s
    (Q : ConvLayer T -> unit -> Prop) :
  Q (setter s) tt -> returns_with (write setter) s Q.
Proof. intros HQ. exists (setter s), tt. split; [reflexivity|exact HQ]. Qed.

Lemma returns_with_lift {A} (o : outcome A) a s
    (Q : ConvLayer T -> A -> Prop) :
  o = Returned a -> Q s a -> returns_with (lift o) s Q.
Proof. intros -> HQ. exists s, a. split; [reflexivity|exact HQ]. Qed.

Lemma returns_with_mret {A} (a : A) s (Q : ConvLayer T -> A -> Prop) :
  Q s a -> returns_with (mret a) s Q.
Proof. intros HQ. exists s, a. split; [reflexivity|exact HQ]. Qed.

Lemma read_inv {A} (field : ConvLayer T -> A) s s' a :
  read field s = (s', Returned a) -> s' = s /\ a = field s.
Proof. unfold read. intros E. injection E as <- <-. split; reflexivity. Qed.

Lemma write_inv (setter : ConvLayer T -> ConvLayer T) s s' u :
  write setter s = (s', Returned u) -> s' = setter s.
Proof. unfold write. intros E. injection E as <-. reflexivity. Qed.

Lemma lift_inv {A} (o : outcome A) (s s' : ConvLayer T) a :
  lift o s = (s', Returned a) -> s' = s /\ o = Returned a.
Proof. unfold lift. intros E. injection E as <- ->. split; reflexivity. Qed.

Lemma mret_inv {A} (a a' : A) (s s' : ConvLayer T) :
  mret a s = (s', Returned a') -> s' = s /\ a' = a.
Proof. unfold mret. intros E. injection E as <- <-. split; reflexivity. Qed.

End Running.

(** One step of a method that returned: [H] states that a sequence
    returned, and is replaced by the same statement about what follows
    its first command. *)
Ltac step_named H a E :=
  let s1 := fresh "s" in
  apply mbind_inv in H as (s1 & a & E & H);
  first [ apply read_inv in E as [-> ->]
        | apply write_inv in E as ->
        | apply lift_inv in E as [-> E]
        | apply mret_inv in E as [-> ->]
        | idtac ].

Tactic Notation "step" hyp(H) :=
  let a := fresh "a" in let E := fresh "E" in step_named H a E.
Tactic Notation "step" hyp(H) "as" ident(a) ident(E) :=
  step_named H a E.

(** All the leading steps of a method that returned. *)
Ltac steps H :=
  repeat lazymatch type of H with
         | mbind _ _ _ = _ => step H
         end.

(** The reads and writes at the head of a goal [returns_with m s Q]. *)
Ltac run :=
  repeat match goal with
         | |- returns_with (mbind _ _) _ _ => apply returns_with_mbind
         | |- returns_with (read _) _ _ => apply returns_with_read
         | |- returns_with (write _) _ _ => apply returns_with_write
         | |- returns_with (mret _) _ _ => apply returns_with_mret
         end.

(** ** Fields a method leaves alone *)

Section Frame.

Context {T : Type} `{Scalar T}.

Lemma preserves_mret {A B} (field : ConvLayer T -> B) (a : A) :
  preserves field (mret a).
Proof. intros s. reflexivity. Qed.

Lemma preserves_lift {A B} (field : ConvLayer T -> B) (o : outcome A) :
  preserves field (lift o).
Proof. intros s. reflexivity. Qed.

Lemma preserves_read {A B} (field : ConvLayer T -> B)
    (other : ConvLayer T -> A) :
  preserves field (read other).
Proof. intros s. reflexivity. Qed.

Lemma preserves_write {B} (field : ConvLayer T -> B)
    (setter : ConvLayer T -> ConvLayer T) :
  (forall s, field (setter s) = field s) ->
  preserves field (write setter).
Proof. intros Hs s. apply Hs. Qed.

Lemma preserves_mbind {A A' B} (field : ConvLayer T -> B)
    (m : method T A) (k : A -> method T A') :
  preserves field m -> (forall a, preserves field (k a)) ->
  preserves field (mbind m k).
Proof.
  intros Hm Hk s. unfold mbind. specialize (Hm s).
  destruct (m s) as [s1 [a|e]]; cbn [fst] in *.
  - rewrite Hk. exact Hm.
  - exact Hm.
Qed.

Lemma preserves_for_each {S B} (field : ConvLayer T -> B) (l : list Z)
    (body : Z -> S -> method T S) :
  (forall i acc, preserves field (body i acc)) ->
  forall acc, preserves field (for_each l body acc).
Proof.
  intros Hb. induction l as [|i l IH]; intros acc; cbn [for_each].
  - apply preserves_mret.
  - apply preserves_mbind; [apply Hb|exact IH].
Qed.


End Frame.

(** Decomposition of a goal [preserves field m] along the structure of
    the method. *)
Ltac frame :=
  repeat first
    [ apply preserves_mret
    | apply preserves_lift
    | apply preserves_read
    | apply preserves_write; intros ?; reflexivity
    | apply preserves_for_each; intros ? ?
    | apply preserves_mbind; [|intros ?]
    | match goal with
      | |- preserves _ (match ?x with _ => _ end) => destruct x
      end ].

(** The same decomposition where [tac] shows that a setter leaves
    [field] alone. *)
Ltac frame_by tac :=
  repeat first
    [ apply preserves_mret
    | apply preserves_lift
    | apply preserves_read
    | apply preserves_write; intros ?; tac
    | apply preserves_for_each; intros ? ?
    | apply preserves_mbind; [|intros ?]
    | match goal with
      | |- preserves _ (match ?x with _ => _ end) => destruct x
      end ].

Section FrameOfTheMethods.

Context {T : Type} `{Scalar T}.

Lemma allocate_dZ_pad_preserves {B} (field : ConvLayer T -> B) m :
  preserves field (allocate_dZ_pad m).
Proof. unfold allocate_dZ_pad. frame. Qed.

Lemma add_regularisation_preserves {B} (field : ConvLayer T -> B) :
  gradient_free field -> preserves field add_regularisation.
Proof.
  intros (_ & HW & _ & _). unfold add_regularisation.
  repeat first
    [ apply preserves_lift | apply preserves_read
    | apply preserves_write; intros ?; apply HW
    | apply preserves_mbind; [|intros ?]
    | match goal with
      | |- preserves _ (match ?x with _ => _ end) => destruct x
      end ].
Qed.

(** The same decomposition, for a field that the four setters of the
    backward passes do not reach. *)
Lemma preserves_write_gradient {B} (field : ConvLayer T -> B) v :
  gradient_free field ->
  preserves field (write (set_dX v)) /\
  preserves field (write (set_dW v)) /\
  preserves field (write (set_db v)) /\
  preserves field (write (set_dZ_pad v)).
Proof.
  intros (HX & HW & Hb & HP).
  repeat split; intros s; cbn [write fst]; auto.
Qed.

End FrameOfTheMethods.

Ltac frame_gradient Hfree :=
  repeat first
    [ apply preserves_mret
    | apply preserves_lift
    | apply preserves_read
    | apply allocate_dZ_pad_preserves
    | apply add_regularisation_preserves; exact Hfree
    | apply (proj1 (preserves_write_gradient _ Hfree))
    | apply (proj1 (proj2 (preserves_write_gradient _ Hfree)))
    | apply (proj1 (proj2 (proj2 (preserves_write_gradient _ Hfree))))
    | apply (proj2 (proj2 (proj2 (preserves_write_gradient _ Hfree))))
    | apply preserves_for_each; intros ? ?
    | apply preserves_mbind; [|intros ?]
    | match goal with
      | |- preserves _ (match ?x with _ => _ end) => destruct x
      end ].

Section FrameOfTheBackwardPasses.

Context {T : Type} `{Scalar T}.

Lemma backward_contract_preserves {B} (field : ConvLayer T -> B) dA :
  gradient_free field -> preserves field (backward_contract dA).
Proof.
  intros Hfree. unfold backward_contract, backward_dZ.
  frame_gradient Hfree.
Qed.

Lemma conv_backward_accumulate_preserves {B} (field : ConvLayer T -> B) dA :
  gradient_free field -> preserves field (conv_backward_accumulate dA).
Proof.
  intros Hfree. unfold conv_backward_accumulate, conv_backward_body.
  frame_gradient Hfree.
Qed.

Lemma gradient_free_lamb : gradient_free (@lamb T).
Proof. repeat split. Qed.
Lemma gradient_free_W : gradient_free (@W T).
Proof. repeat split. Qed.
Lemma gradient_free_dim_in : gradient_free (@dim_in T).
Proof. repeat split. Qed.
Lemma gradient_free_pad : gradient_free (@pad T).
Proof. repeat split. Qed.

End FrameOfTheBackwardPasses.

(** ** What each method writes *)

Section Footprints.

Context {T : Type} `{Scalar T}.

(** X5: [forward] assigns [self.X] and [self.Z] and nothing else: every
    other attribute of the layer reads the same after the call, whether
    it returns or raises. *)
Theorem forward_writes_X_Z {B} (field : ConvLayer T -> B) (x : ndarray T) :
  (forall v s, field (set_X v s) = field s) ->
  (forall v s, field (set_Z v s) = field s) ->
  preserves field (forward x).
Proof.
  intros HX HZ. unfold forward. frame_by ltac:(first [apply HX | apply HZ]).
Qed.

(** X12: [backward] assigns [dX], [dW], [db] and [dZ_pad] and nothing
    else: the weights, the bias, the cached [X] and [Z], the moments and
    the hyper-parameters read the same after the call, whether it
    returns or raises. *)
Theorem backward_writes_gradients {B} (field : ConvLayer T -> B)
    (dA : ndarray T) :
  gradient_free field -> preserves field (backward dA).
Proof.
  intros Hfree. unfold backward.
  apply preserves_mbind; [apply backward_contract_preserves, Hfree|intros dZ].
  frame_gradient Hfree.
Qed.

(** X16: [conv_backward] assigns [dX], [dW] and [db] and nothing else,
    whether it returns or raises; unlike [backward] it leaves [dZ_pad]
    alone too. *)
Theorem conv_backward_writes_gradients {B} (field : ConvLayer T -> B)
    (dA : ndarray T) :
  (forall v s, field (set_dX v s) = field s) ->
  (forall v s, field (set_dW v s) = field s) ->
  (forall v s, field (set_db v s) = field s) ->
  preserves field (conv_backward dA).
Proof.
  intros HX HW Hb.
  unfold conv_backward, conv_backward_accumulate, conv_backward_body,
    add_regularisation.
  frame_by ltac:(first [apply HX | apply HW | apply Hb]).
Qed.

(** X19: [update_parameters] assigns the four moments, [W] and [b] and
    nothing else: the gradients and the caches read the same after the
    call, whether it returns or raises. *)
Theorem update_parameters_writes_moments_and_parameters {B}
    (field : ConvLayer T -> B) pow rate t beta1 beta2 epsilon :
  (forall v s, field (set_vW v s) = field s) ->
  (forall v s, field (set_vb v s) = field s) ->
  (forall v s, field (set_sW v s) = field s) ->
  (forall v s, field (set_sb v s) = field s) ->
  (forall v s, field (set_W v s) = field s) ->
  (forall v s, field (set_b v s) = field s) ->
  preserves field (update_parameters pow rate t beta1 beta2 epsilon).
Proof.
  intros H1 H2 H3 H4 H5 H6. unfold update_parameters.
  frame_by ltac:(first [apply H1 | apply H2 | apply H3 | apply H4
                       | apply H5 | apply H6]).
Qed.

End Footprints.

(** ** Gradients left by an earlier call *)

Section Leftover.

Context {T : Type} `{Scalar T}.

Implicit Types R : ConvLayer T -> ConvLayer T -> Prop.

Lemma related_mbind {A B} R R1 R' (m : method T A) (k : A -> method T B) :
  related R R1 m -> (forall a, related R1 R' (k a)) ->
  related R R' (mbind m k).
Proof.
  intros Hm Hk s1 s2 HR. specialize (Hm s1 s2 HR). unfold alike, mbind in *.
  destruct (m s1) as [t1 [a1|e1]], (m s2) as [t2 [a2|e2]];
    cbn [fst snd] in *; try contradiction.
  - destruct Hm as [<- HR1]. apply (Hk a1 t1 t2 HR1).
  - exact Hm.
Qed.

Lemma related_lift {A} R (o : outcome A) : related R R (lift o).
Proof.
  intros s1 s2 HR. unfold alike, lift. cbn [fst snd].
  destruct o; [split|]; trivial.
Qed.

Lemma related_mret {A} R (a : A) : related R R (mret a).
Proof. intros s1 s2 HR. unfold alike, mret. cbn [fst snd]. split; trivial. Qed.

Lemma related_read {A} (R : ConvLayer T -> ConvLayer T -> Prop)
    (field : ConvLayer T -> A) :
  (forall s1 s2, R s1 s2 -> field s1 = field s2) ->
  related R R (read field).
Proof.
  intros Hf s1 s2 HR. unfold alike, read. cbn [fst snd].
  split; [apply Hf; exact HR|exact HR].
Qed.

Lemma related_write (R R' : ConvLayer T -> ConvLayer T -> Prop) setter :
  (forall s1 s2, R s1 s2 -> R' (setter s1) (setter s2)) ->
  related R R' (write setter).
Proof.
  intros Hs s1 s2 HR. unfold alike, write. cbn [fst snd].
  split; [reflexivity|apply Hs; exact HR].
Qed.

Lemma related_eq {A} (m : method T A) : related eq eq m.
Proof.
  intros s1 s2 <-. unfold alike. destruct (m s1) as [t [a|e]]; cbn [fst snd];
    [split|]; reflexivity.
Qed.

Lemma related_for_each {S} R (l : list Z) (body : Z -> S -> method T S) :
  (forall i acc, related R R (body i acc)) ->
  forall acc, related R R (for_each l body acc).
Proof.
  intros Hb. induction l as [|i l IH]; intros acc; cbn [for_each].
  - apply related_mret.
  - eapply related_mbind; [apply Hb|exact IH].
Qed.

Lemma fill_zero_shape (g1 g2 : ndarray T) :
  shape g1 = shape g2 -> fill_zero g1 = fill_zero g2.
Proof. intros E. unfold fill_zero, four_axes. rewrite E. reflexivity. Qed.

(** [g[:, :, :, :] = 0] on a field of which only the shape is known to
    be the same. *)
Lemma related_zero {B} R R1 R' (field : ConvLayer T -> ndarray T)
    (setter : ndarray T -> ConvLayer T -> ConvLayer T) (k : unit -> method T B) :
  (forall s1 s2, R s1 s2 -> shape (field s1) = shape (field s2)) ->
  (forall g, related R R1 (write (setter g))) ->
  (forall u, related R1 R' (k u)) ->
  related R R'
    (g <- read field ;; g <- lift (fill_zero g) ;;
     u <- write (setter g) ;; k u)%method.
Proof.
  intros Hf Hw Hk s1 s2 HR.
  assert (E : forall s,
    (g <- read field ;; g <- lift (fill_zero g) ;;
     u <- write (setter g) ;; k u)%method s =
    match fill_zero (field s) with
    | Returned g => (u <- write (setter g) ;; k u)%method s
    | Raised e => (s, Raised e)
    end).
  { intros s. unfold mbind at 1 2. unfold read, lift.
    destruct (fill_zero (field s)); reflexivity. }
  rewrite !E, (fill_zero_shape _ _ (Hf s1 s2 HR)).
  destruct (fill_zero (field s2)) as [g|e].
  - assert (Hr : related R R' (u <- write (setter g) ;; k u)%method)
      by (eapply related_mbind; [apply Hw|exact Hk]).
    exact (Hr s1 s2 HR).
  - unfold alike. reflexivity.
Qed.

Lemma same_but_eq (s1 s2 : ConvLayer T) :
  same_but false false false s1 s2 -> s1 = s2.
Proof. intros [E _]. exact E. Qed.

Lemma alike_weaken {A} (R R' : ConvLayer T -> ConvLayer T -> Prop)
    (r1 r2 : ConvLayer T * outcome A) :
  (forall s1 s2, R s1 s2 -> R' s1 s2) -> alike R r1 r2 -> alike R' r1 r2.
Proof.
  intros HR. unfold alike. destruct (snd r1), (snd r2); try tauto.
  intros [E HR1]. split; [exact E|apply HR, HR1].
Qed.

End Leftover.

(** Decomposition of a goal [related (same_but _ _ _) _ m] along the
    structure of the method; a write of a gradient drops it from the
    fields that may differ. *)
Ltac relate_field :=
  let E := fresh "E" in
  intros ? ? [E _];
  match goal with
  | |- ?field _ = ?field _ => apply (f_equal field) in E; exact E
  end.

Ltac relate_shape :=
  let Hw := fresh "Hw" in let Hb := fresh "Hb" in
  intros ? ? [_ [Hw Hb]]; first [exact Hw | exact Hb].

Ltac relate_setter :=
  let E := fresh "E" in let Hw := fresh "Hw" in let Hb := fresh "Hb" in
  intros ? ? [E [Hw Hb]];
  match goal with
  | |- same_but _ _ _ (?setter _) _ =>
      split; [apply (f_equal setter) in E; exact E
             |split; first [exact Hw | exact Hb | reflexivity]]
  end.

Ltac relate_write :=
  first
    [ apply related_write with (R' := same_but false false false); relate_setter
    | apply related_write with (R' := same_but true false false); relate_setter
    | apply related_write with (R' := same_but false true false); relate_setter
    | apply related_write with (R' := same_but false false true); relate_setter
    | apply related_write with (R' := same_but true true false); relate_setter
    | apply related_write with (R' := same_but true false true); relate_setter
    | apply related_write with (R' := same_but false true true); relate_setter
    | apply related_write with (R' := same_but true true true); relate_setter ].

Ltac relate :=
  repeat match goal with
  | |- related _ _ (mbind (read _) _) =>
      eapply related_zero; [relate_shape|intros ?; relate_write|intros ?]
  | |- related _ _ (mbind _ _) => eapply related_mbind; [|intros ?]
  | |- related _ _ (mret _) => apply related_mret
  | |- related _ _ (lift _) => apply related_lift
  | |- related _ _ (read _) => apply related_read; relate_field
  | |- related _ _ (write _) => relate_write
  | |- related _ _ (for_each _ _ _) => apply related_for_each; intros ? ?
  | |- related _ _ (match ?x with _ => _ end) => destruct x
  end.

Section Overwritten.

Context {T : Type} `{Scalar T}.

Lemma backward_contract_related (dA : ndarray T) :
  related (same_but true true true) (same_but false false false)
    (backward_contract dA).
Proof.
  unfold backward_contract, backward_dZ, allocate_dZ_pad. relate.
Qed.

Lemma add_regularisation_related :
  related (same_but false false false) (same_but false false false)
    add_regularisation.
Proof. unfold add_regularisation. relate. Qed.

Lemma backward_related (dA : ndarray T) :
  related (same_but true true true) (same_but false false false)
    (backward dA).
Proof.
  unfold backward.
  eapply related_mbind; [apply backward_contract_related|intros dZ].
  eapply related_mbind; [apply add_regularisation_related|intros _].
  relate.
Qed.

Lemma conv_backward_related (dA : ndarray T) :
  related (same_but false true true) (same_but false false false)
    (conv_backward dA).
Proof.
  unfold conv_backward.
  eapply related_mbind with (R1 := same_but false false false); [|intros _].
  - unfold conv_backward_accumulate, conv_backward_body. relate.
  - eapply related_mbind; [apply add_regularisation_related|intros _].
    relate.
Qed.

(** X13: [backward] overwrites the three gradients: on two layers that
    differ only in the elements of [dX], [dW] and [db] (and in the shape
    of [dX]) it ends alike, with the same value or the same exception,
    and when it returns it leaves the same layer. *)
Theorem backward_overwrites_gradients (dA : ndarray T) (s1 s2 : ConvLayer T) :
  same_but true true true s1 s2 ->
  alike eq (backward dA s1) (backward dA s2).
Proof.
  intros HR. eapply alike_weaken; [apply same_but_eq|].
  apply backward_related, HR.
Qed.

(** X17: [conv_backward] overwrites [dW] and [db]: on two layers that
    differ only in the elements of [dW] and [db] it ends alike, and when
    it returns it leaves the same layer; of the gradients left by an
    earlier call only [dX] can reach its outcome. *)
Theorem conv_backward_overwrites_dW_db (dA : ndarray T) (s1 s2 : ConvLayer T) :
  same_but false true true s1 s2 ->
  alike eq (conv_backward dA s1) (conv_backward dA s2).
Proof.
  intros HR. eapply alike_weaken; [apply same_but_eq|].
  apply conv_backward_related, HR.
Qed.

End Overwritten.

(** ** What [forward] reads *)

(** Decomposition of a goal [related R R' m] along a method that reads
    and writes under one relation; [tac] shows that [R] gives a field
    the same value on both sides, or that a setter keeps [R]. *)
Ltac relate_by tac :=
  repeat match goal with
  | |- related _ _ (mbind _ _) => eapply related_mbind; [|intros ?]
  | |- related _ _ (mret _) => apply related_mret
  | |- related _ _ (lift _) => apply related_lift
  | |- related _ _ (read _) => apply related_read; tac
  | |- related _ _ (match ?x with _ => _ end) => destruct x
  end.

Ltac same_field :=
  first
    [ intros ? ? (? & ? & ? & ? & ? & ? & ?); assumption
    | intros ? ? [(? & ? & ? & ? & ? & ? & ?) ?]; assumption
    | intros ? ? [_ [_ ?]]; assumption ].

Section ForwardReads.

Context {T : Type} `{Scalar T}.

(** X6: [forward] reads the weights, the bias and the hyper-parameters
    and nothing else: on two layers that agree on these, whatever
    earlier calls left in the caches, the gradients and the moments, it
    ends alike (the same value or the same exception), and when it
    returns both layers hold the same [X] and [Z]. *)
Theorem forward_reads_parameters_only (s1 s2 : ConvLayer T)
    (x : ndarray T) :
  same_parameters s1 s2 ->
  alike (fun t1 t2 => same_parameters t1 t2 /\ same_caches t1 t2)
    (forward x s1) (forward x s2).
Proof.
  revert s1 s2.
  change (related same_parameters
            (fun t1 t2 => same_parameters t1 t2 /\ same_caches t1 t2)
            (forward x)).
  unfold forward.
  eapply related_mbind with
    (R1 := fun t1 t2 => same_parameters t1 t2 /\ X t1 = X t2).
  { apply related_write. intros t1 t2 HR. split; [exact HR|reflexivity]. }
  intros _.
  do 3 (eapply related_mbind; [apply related_read; same_field|intros ?]).
  do 5 (eapply related_mbind; [apply related_lift|intros ?]).
  eapply related_mbind; [apply related_read; same_field|intros ?].
  match goal with
  | |- related _ _ (match ?d with _ => _ end) => destruct d as [[[? ?] ?] ?]
  end.
  do 2 (eapply related_mbind; [apply related_lift|intros ?]).
  eapply related_mbind; [apply related_read; same_field|intros ?].
  eapply related_mbind; [apply related_lift|intros ?].
  eapply related_mbind with
    (R1 := fun t1 t2 => same_parameters t1 t2 /\ same_caches t1 t2).
  { apply related_write. intros t1 t2 [HR HX].
    split; [exact HR|]. split; [exact HX|reflexivity]. }
  intros _.
  do 2 (eapply related_mbind; [apply related_read; same_field|intros ?]).
  eapply related_mbind; [apply related_lift|intros ?].
  eapply related_mbind.
  { apply related_write with
      (R' := fun t1 t2 => same_parameters t1 t2 /\ same_caches t1 t2).
    intros t1 t2 [HR [HX _]].
    split; [exact HR|]. split; [exact HX|reflexivity]. }
  intros _.
  eapply related_mbind; [apply related_read; same_field|intros ?].
  relate_by same_field.
Qed.

End ForwardReads.

(** ** Elements of arrays *)

Section Indexing.

Context {T : Type} `{Scalar T}.

Lemma in_range i n : In i (range n) <-> 0 <= i < n.
Proof.
  unfold range. rewrite in_map_iff. split.
  - intros (k & <- & Hk). apply in_seq in Hk. lia.
  - intros Hi. exists (Z.to_nat i). split; [lia|]. apply in_seq. lia.
Qed.

Lemma flat_map_ext_in {A B} (g g' : A -> list B) (l : list A) :
  (forall a, In a l -> g a = g' a) -> flat_map g l = flat_map g' l.
Proof.
  induction l as [|a l IH]; intros Hg; cbn [flat_map]; [reflexivity|].
  rewrite (Hg a (or_introl eq_refl)), IH; [reflexivity|].
  intros a' Ha'. apply Hg. right. exact Ha'.
Qed.

Lemma build4_ext n0 n1 n2 n3 (g g' : Z -> Z -> Z -> Z -> T) :
  (forall i j k l,
      0 <= i < n0 -> 0 <= j < n1 -> 0 <= k < n2 -> 0 <= l < n3 ->
      g i j k l = g' i j k l) ->
  build4 n0 n1 n2 n3 g = build4 n0 n1 n2 n3 g'.
Proof.
  intros Hg. unfold build4. f_equal.
  apply flat_map_ext_in. intros i Hi. apply in_range in Hi.
  apply flat_map_ext_in. intros j Hj. apply in_range in Hj.
  apply flat_map_ext_in. intros k Hk. apply in_range in Hk.
  apply map_ext_in. intros l Hl. apply in_range in Hl.
  apply Hg; assumption.
Qed.

(** Rows of equal length laid end to end. *)
Lemma nth_flat_map_seq {B} (g : nat -> list B) (k : nat) (d : B) :
  (forall a, length (g a) = k) ->
  forall n a i j, (i < n)%nat -> (j < k)%nat ->
    nth (i * k + j) (flat_map g (seq a n)) d = nth j (g (a + i)%nat) d.
Proof.
  intros Hg. induction n as [|n IH]; intros a i j Hi Hj; [lia|].
  cbn [seq flat_map]. destruct i as [|i].
  - cbn [Nat.mul Nat.add]. rewrite app_nth1 by (rewrite Hg; exact Hj).
    rewrite Nat.add_0_r. reflexivity.
  - rewrite app_nth2 by (rewrite Hg; lia). rewrite Hg.
    replace (S i * k + j - k)%nat with (i * k + j)%nat by lia.
    rewrite IH by lia. f_equal. f_equal. lia.
Qed.

Lemma nth_flat_map_range {B} (g : Z -> list B) (n k : Z) (d : B) i j :
  (forall a, Z.of_nat (length (g a)) = k) ->
  0 <= i < n -> 0 <= j < k ->
  nth (Z.to_nat (i * k + j)) (flat_map g (range n)) d
  = nth (Z.to_nat j) (g i) d.
Proof.
  intros Hg Hi Hj. unfold range. rewrite flat_map_concat_map, map_map.
  rewrite <- flat_map_concat_map.
  replace (Z.to_nat (i * k + j))
    with (Z.to_nat i * Z.to_nat k + Z.to_nat j)%nat by nia.
  rewrite (@nth_flat_map_seq _ (fun a => g (Z.of_nat a)) (Z.to_nat k) d);
    try lia.
  - cbn [Nat.add]. rewrite Z2Nat.id by lia. reflexivity.
  - intros a. specialize (Hg (Z.of_nat a)). lia.
Qed.

Lemma nth_map_range {B} (g : Z -> B) (n : Z) (d : B) j :
  0 <= j < n -> nth (Z.to_nat j) (map g (range n)) d = g j.
Proof.
  intros Hj. unfold range. rewrite map_map.
  rewrite nth_indep with (d' := g (Z.of_nat 0))
    by (rewrite length_map, length_seq; lia).
  rewrite (map_nth (fun a => g (Z.of_nat a)) (seq 0 (Z.to_nat n)) 0%nat).
  rewrite seq_nth by lia. cbn [Nat.add]. rewrite Z2Nat.id by lia.
  reflexivity.
Qed.

Lemma length_range n : Z.of_nat (length (range n)) = Z.max 0 n.
Proof. unfold range. rewrite length_map, length_seq. lia. Qed.

Lemma length_flat_map_const {A B} (g : A -> list B) (l : list A) (k : nat) :
  (forall a, length (g a) = k) ->
  length (flat_map g l) = (length l * k)%nat.
Proof.
  intros Hg. induction l as [|a l IH]; cbn [flat_map length]; [reflexivity|].
  rewrite length_app, Hg, IH. lia.
Qed.

(** An element of [build4] inside its bounds. *)
Lemma get4_build4 n0 n1 n2 n3 (g : Z -> Z -> Z -> Z -> T) i j k l :
  0 <= i < n0 -> 0 <= j < n1 -> 0 <= k < n2 -> 0 <= l < n3 ->
  get4 (build4 n0 n1 n2 n3 g) i j k l = g i j k l.
Proof.
  intros Hi Hj Hk Hl. unfold get4, build4, item. cbn [shape data].
  replace (((i * n1 + j) * n2 + k) * n3 + l)
    with (i * (n1 * (n2 * n3)) + (j * (n2 * n3) + (k * n3 + l))) by ring.
  assert (0 <= k * n3 + l < n2 * n3) as B1 by nia.
  assert (0 <= j * (n2 * n3) + (k * n3 + l) < n1 * (n2 * n3)) as B2 by nia.
  rewrite nth_flat_map_range with (k := n1 * (n2 * n3)); try assumption.
  - rewrite nth_flat_map_range with (k := n2 * n3); try assumption.
    + rewrite nth_flat_map_range with (k := n3); try assumption.
      * apply nth_map_range. exact Hl.
      * intros a. rewrite length_map, length_range. lia.
    + intros a.
      rewrite (length_flat_map_const _ _ (k := length (range n3)))
        by (intros; apply length_map).
      rewrite Nat2Z.inj_mul, !length_range. lia.
  - intros a.
    rewrite (length_flat_map_const _ _
               (k := (length (range n2) * length (range n3))%nat)).
    + rewrite !Nat2Z.inj_mul, !length_range. lia.
    + intros a'.
      rewrite (length_flat_map_const _ _ (k := length (range n3)))
        by (intros; apply length_map).
      reflexivity.
Qed.

Lemma length_build4 n0 n1 n2 n3 (g : Z -> Z -> Z -> Z -> T) :
  0 <= n0 -> 0 <= n1 -> 0 <= n2 -> 0 <= n3 ->
  Z.of_nat (length (data (build4 n0 n1 n2 n3 g))) = n0 * n1 * n2 * n3.
Proof.
  intros H0 H1 H2 H3. unfold build4. cbn [data].
  rewrite (length_flat_map_const _ _
             (k := (length (range n1) * (length (range n2) * length (range n3)))%nat)).
  - rewrite !Nat2Z.inj_mul, !length_range. lia.
  - intros i.
    rewrite (length_flat_map_const _ _
               (k := (length (range n2) * length (range n3))%nat)).
    + reflexivity.
    + intros j.
      rewrite (length_flat_map_const _ _ (k := length (range n3))).
      * reflexivity.
      * intros k. apply length_map.
Qed.

(** Every flat position is the position of one index. *)
Lemma flat_position n0 n1 n2 n3 p :
  0 <= p < n0 * n1 * n2 * n3 -> 0 <= n0 -> 0 <= n1 -> 0 <= n2 -> 0 <= n3 ->
  exists i j k l,
    0 <= i < n0 /\ 0 <= j < n1 /\ 0 <= k < n2 /\ 0 <= l < n3 /\
    p = ((i * n1 + j) * n2 + k) * n3 + l.
Proof.
  intros Hp H0 H1 H2 H3.
  assert (0 < n3) by nia. assert (0 < n2) by nia. assert (0 < n1) by nia.
  exists (p / n3 / n2 / n1), (p / n3 / n2 mod n1), (p / n3 mod n2), (p mod n3).
  pose proof (Z.div_mod p n3 ltac:(lia)).
  pose proof (Z.div_mod (p / n3) n2 ltac:(lia)).
  pose proof (Z.div_mod (p / n3 / n2) n1 ltac:(lia)).
  pose proof (Z.mod_pos_bound p n3 ltac:(lia)).
  pose proof (Z.mod_pos_bound (p / n3) n2 ltac:(lia)).
  pose proof (Z.mod_pos_bound (p / n3 / n2) n1 ltac:(lia)).
  assert (0 <= p / n3) by (apply Z.div_pos; lia).
  assert (0 <= p / n3 / n2) by (apply Z.div_pos; lia).
  assert (0 <= p / n3 / n2 / n1) by (apply Z.div_pos; lia).
  assert (p / n3 / n2 / n1 < n0).
  { apply Z.div_lt_upper_bound; [lia|].
    apply Z.div_lt_upper_bound; [lia|].
    apply Z.div_lt_upper_bound; [lia|]. nia. }
  repeat split; first [lia | nia].
Qed.

(** An array is rebuilt from its elements. *)
Lemma build4_get4 (a : ndarray T) n0 n1 n2 n3 :
  shape a = [n0; n1; n2; n3] ->
  0 <= n0 -> 0 <= n1 -> 0 <= n2 -> 0 <= n3 ->
  Z.of_nat (length (data a)) = n0 * n1 * n2 * n3 ->
  build4 n0 n1 n2 n3 (get4 a) = a.
Proof.
  intros Hsh H0 H1 H2 H3 Hlen. destruct a as [sh d]. cbn [shape data] in *.
  subst sh.
  assert (data (build4 n0 n1 n2 n3 (get4 (NDArray [n0; n1; n2; n3] d))) = d)
    as Hd.
  { apply nth_ext with (d := szero) (d' := szero).
    - apply Nat2Z.inj. rewrite length_build4 by assumption. lia.
    - intros p Hp.
      assert (Z.of_nat p < n0 * n1 * n2 * n3) as Hp'
        by (rewrite <- length_build4 with (g := get4 (NDArray [n0; n1; n2; n3] d));
            try assumption; lia).
      destruct (@flat_position n0 n1 n2 n3 (Z.of_nat p))
        as (i & j & k & l & Hi & Hj & Hk & Hl & Ep); try lia.
      rewrite <- (Nat2Z.id p).
      change (nth (Z.to_nat (Z.of_nat p))
                (data (build4 n0 n1 n2 n3 (get4 (NDArray [n0; n1; n2; n3] d))))
                szero)
        with (item (data (build4 n0 n1 n2 n3
                            (get4 (NDArray [n0; n1; n2; n3] d))))
                (Z.of_nat p)).
      change (nth (Z.to_nat (Z.of_nat p)) d szero)
        with (item d (Z.of_nat p)).
      rewrite Ep.
      change (item (data (build4 n0 n1 n2 n3
                            (get4 (NDArray [n0; n1; n2; n3] d))))
                (((i * n1 + j) * n2 + k) * n3 + l))
        with (get4 (build4 n0 n1 n2 n3 (get4 (NDArray [n0; n1; n2; n3] d)))
                i j k l).
      rewrite get4_build4 by assumption.
      reflexivity. }
  unfold build4 in *. cbn [data] in Hd. rewrite Hd. reflexivity.
Qed.
Lemma broadcast_dim_refl n : broadcast_dim n n = Returned n.
Proof. unfold broadcast_dim. rewrite Z.eqb_refl. reflexivity. Qed.

Lemma broadcast_dim_one n : broadcast_dim n 1 = Returned n.
Proof.
  unfold broadcast_dim. destruct (n =? 1) eqn:E; reflexivity.
Qed.

Lemma map_flat_map {A B C} (g : B -> C) (k : A -> list B) (l : list A) :
  map g (flat_map k l) = flat_map (fun a => map g (k a)) l.
Proof.
  induction l as [|a l IH]; cbn [flat_map map]; [reflexivity|].
  rewrite map_app, IH. reflexivity.
Qed.

Lemma map_array_full (g : T -> T) n0 n1 n2 n3 v :
  map_array g (full n0 n1 n2 n3 v) = full n0 n1 n2 n3 (g v).
Proof.
  unfold map_array, full, build4. cbn [shape data]. f_equal.
  rewrite map_flat_map. apply flat_map_ext. intros i.
  rewrite map_flat_map. apply flat_map_ext. intros j.
  rewrite map_flat_map. apply flat_map_ext. intros k.
  rewrite map_map. reflexivity.
Qed.

Lemma bidx_bounds n i : 0 <= i < n -> 0 <= bidx n i < n.
Proof. unfold bidx. destruct (Z.eqb_spec n 1); lia. Qed.

Lemma bget4_full n0 n1 n2 n3 (v : T) i j k l :
  0 <= i < n0 -> 0 <= j < n1 -> 0 <= k < n2 -> 0 <= l < n3 ->
  bget4 (full n0 n1 n2 n3 v) i j k l = v.
Proof.
  intros Hi Hj Hk Hl. unfold bget4, full. cbn [shape build4].
  apply (get4_build4 (fun _ _ _ _ => v)); apply bidx_bounds; assumption.
Qed.

Lemma broadcast2_full (op : T -> T -> T) n0 n1 n2 n3 u v :
  broadcast2 op (full n0 n1 n2 n3 u) (full n0 n1 n2 n3 v)
  = Returned (full n0 n1 n2 n3 (op u v)).
Proof.
  unfold broadcast2, shape4, obind.
  change (shape (full n0 n1 n2 n3 u)) with [n0; n1; n2; n3].
  change (shape (full n0 n1 n2 n3 v)) with [n0; n1; n2; n3].
  change (at_least_4d (full n0 n1 n2 n3 u)) with (full n0 n1 n2 n3 u).
  change (at_least_4d (full n0 n1 n2 n3 v)) with (full n0 n1 n2 n3 v).
  cbv beta iota. rewrite !broadcast_dim_refl. cbv beta iota.
  cbn [build4 shape data length Nat.max Nat.sub skipn].
  f_equal.
  change (build4 n0 n1 n2 n3
            (fun i j k l => op (bget4 (full n0 n1 n2 n3 u) i j k l)
                               (bget4 (full n0 n1 n2 n3 v) i j k l))
          = full n0 n1 n2 n3 (op u v)).
  unfold full at 3. apply build4_ext. intros i j k l Hi Hj Hk Hl.
  rewrite !bget4_full by assumption. reflexivity.
Qed.

Lemma inplace2_full (op : T -> T -> T) (a : ndarray T) n0 n1 n2 n3 v :
  shape a = [n0; n1; n2; n3] ->
  inplace2 op a (full n0 n1 n2 n3 v)
  = Returned (build4 n0 n1 n2 n3 (fun i j k l => op (get4 a i j k l) v)).
Proof.
  intros Hsh. unfold inplace2, shape4, obind.
  change (shape (full n0 n1 n2 n3 v)) with [n0; n1; n2; n3].
  change (at_least_4d (full n0 n1 n2 n3 v)) with (full n0 n1 n2 n3 v).
  cbv beta iota. rewrite Hsh. unfold stretches. rewrite !Z.eqb_refl. cbn [orb andb].
  f_equal. apply build4_ext. intros i j k l Hi Hj Hk Hl.
  rewrite bget4_full by assumption. reflexivity.
Qed.

Lemma inplace2_unchanged (op : T -> T -> T) (a : ndarray T) n0 n1 n2 n3 v :
  shape a = [n0; n1; n2; n3] ->
  0 <= n0 -> 0 <= n1 -> 0 <= n2 -> 0 <= n3 ->
  Z.of_nat (length (data a)) = n0 * n1 * n2 * n3 ->
  (forall x, op x v = x) ->
  inplace2 op a (full n0 n1 n2 n3 v) = Returned a.
Proof.
  intros Hsh H0 H1 H2 H3 Hlen Hop. rewrite inplace2_full by exact Hsh.
  f_equal. transitivity (build4 n0 n1 n2 n3 (get4 a)).
  - apply build4_ext. intros. apply Hop.
  - apply build4_get4; assumption.
Qed.
End Indexing.

(** ** The regularisation term *)

Section Regularisation.

Context {T : Type} `{Scalar T}.

Lemma add_regularisation_inv (s s' : ConvLayer T) u :
  add_regularisation s = (s', Returned u) ->
  regularised s (dW s) (dW s') /\ s' = set_dW (dW s') s.
Proof.
  intros E. unfold add_regularisation in E. unfold regularised.
  step E. step E. step E.
  destruct (dim_in s) as [[[m0 h] w] c].
  step E. step E. step E.
  apply write_inv in E. subst s'. cbn [dW set_dW].
  destruct (m0 =? 0) eqn:Em; [congruence|].
  apply Z.eqb_neq in Em. repeat split; assumption.
Qed.

(** C6: whenever a backward pass returns, the [dW] it leaves is the
    gradient it computed from [dA] and the caches plus
    [(lamb / dim_in[0]) * W]; the factor is read from the fields of the
    layer, whatever the batch size of [dA]. *)
Theorem weight_gradient_regularised (s s' : ConvLayer T) (dA g : ndarray T) :
  (backward dA s = (s', Returned g) ->
   exists s1 dZ,
     backward_contract dA s = (s1, Returned dZ) /\
     regularised s (dW s1) (dW s')) /\
  (conv_backward dA s = (s', Returned g) ->
   exists s1,
     conv_backward_accumulate dA s = (s1, Returned tt) /\
     regularised s (dW s1) (dW s')).
Proof.
  split; intros E.
  - unfold backward in E.
    apply mbind_inv in E as (s1 & dZ & Ec & E).
    apply mbind_inv in E as (s2 & u & Er & E).
    step E. step E. step E. apply read_inv in E as [-> _].
    cbn [dW set_db].
    apply add_regularisation_inv in Er as [Hr _].
    exists s1, dZ. split; [exact Ec|].
    unfold regularised in *.
    pose proof (backward_contract_preserves dA gradient_free_lamb s) as Hl.
    pose proof (backward_contract_preserves dA gradient_free_W s) as Hw.
    pose proof (backward_contract_preserves dA gradient_free_dim_in s) as Hd.
    rewrite Ec in Hl, Hw, Hd. cbn [fst] in Hl, Hw, Hd.
    rewrite Hl, Hw, Hd in Hr. exact Hr.
  - unfold conv_backward in E.
    apply mbind_inv in E as (s1 & u & Ec & E).
    apply mbind_inv in E as (s2 & u' & Er & E).
    apply read_inv in E as [-> _].
    apply add_regularisation_inv in Er as [Hr _].
    destruct u. exists s1. split; [exact Ec|].
    unfold regularised in *.
    pose proof (conv_backward_accumulate_preserves dA gradient_free_lamb s)
      as Hl.
    pose proof (conv_backward_accumulate_preserves dA gradient_free_W s)
      as Hw.
    pose proof (conv_backward_accumulate_preserves dA gradient_free_dim_in s)
      as Hd.
    rewrite Ec in Hl, Hw, Hd. cbn [fst] in Hl, Hw, Hd.
    rewrite Hl, Hw, Hd in Hr. exact Hr.
Qed.

End Regularisation.

(** ** The unpadding step of [conv_backward] *)

Section Unpadding.

Context {T : Type} `{Scalar T}.

Lemma update12_shape op (a v a' : ndarray T) s1 s2 :
  update12 op a s1 s2 v = Returned a' -> shape a' = shape a.
Proof.
  unfold update12, four_axes, obind.
  destruct (shape a) as [|n0 [|n1 [|n2 [|n3 [|]]]]]; try discriminate.
  destruct (negb (sl_step s1 =? 0) && negb (sl_step s2 =? 0)); [|discriminate].
  destruct (shape4 v) as [[[[v0 v1] v2] v3]|]; [|discriminate].
  match goal with |- (if ?c then _ else _) = _ -> _ => destruct c end;
    [|discriminate].
  intros E. injection E as <-. reflexivity.
Qed.

Lemma np_pad_shape (a a' : ndarray T) p :
  np_pad a p = Returned a' ->
  exists n0 n1 n2 n3,
    shape a = [n0; n1; n2; n3] /\ 0 <= p /\
    shape a' = [n0; n1 + 2 * p; n2 + 2 * p; n3].
Proof.
  unfold np_pad, exactly4, obind.
  destruct (shape a) as [|n0 [|n1 [|n2 [|n3 [|]]]]]; try discriminate.
  destruct (0 <=? p) eqn:Ep; [|discriminate].
  intros E. injection E as <-. exists n0, n1, n2, n3.
  apply Z.leb_le in Ep. repeat split; assumption.
Qed.













End Unpadding.

(** ** The output size *)

Lemma same_shape_eq s1 s2 : same_shape s1 s2 = true -> s1 = s2.
Proof.
  revert s2. induction s1 as [|n s1 IH]; intros [|m s2]; simpl;
    try discriminate; auto.
  intros E. apply andb_prop in E as [E1 E2].
  apply Z.eqb_eq in E1. subst m. f_equal. auto.
Qed.

(** ** The integer part of a quotient of integers

    [int(a / b)] goes through binary64.  Below 2^53 the rounding of the
    quotient never reaches the next integer, and the integer part is the
    one of the exact quotient. *)

Section TrueDivision.

Lemma digits2_pos_bounds (p : BinNums.positive) :
  2 ^ (Zpos (digits2_pos p) - 1) <= Zpos p < 2 ^ Zpos (digits2_pos p).
Proof.
  induction p as [p IH|p IH|]; cbn [digits2_pos].
  - rewrite Pos2Z.inj_succ.
    replace (Z.succ (Zpos (digits2_pos p)) - 1) with (Z.succ (Zpos (digits2_pos p) - 1)) by lia.
    rewrite !Z.pow_succ_r by lia. lia.
  - rewrite Pos2Z.inj_succ.
    replace (Z.succ (Zpos (digits2_pos p)) - 1) with (Z.succ (Zpos (digits2_pos p) - 1)) by lia.
    rewrite !Z.pow_succ_r by lia. lia.
  - cbn. lia.
Qed.

Lemma digits2_pos_unique (p : BinNums.positive) (d : Z) :
  2 ^ (d - 1) <= Zpos p < 2 ^ d -> Zpos (digits2_pos p) = d.
Proof.
  intros [Hl Hu]. pose proof (digits2_pos_bounds p) as [Bl Bu].
  assert (0 < d).
  { destruct (Z_lt_le_dec 0 d) as [|Hd]; [assumption|].
    exfalso. destruct (Z.eq_dec d 0) as [->|]; [cbn in Hu; lia|].
    rewrite Z.pow_neg_r in Hu by lia. lia. }
  destruct (Z_lt_le_dec (Zpos (digits2_pos p)) d) as [Hlt|Hge].
  - exfalso.
    assert (2 ^ Zpos (digits2_pos p) <= 2 ^ (d - 1)) by (apply Z.pow_le_mono_r; lia).
    lia.
  - destruct (Z_lt_le_dec d (Zpos (digits2_pos p))) as [Hlt|Hge']; [|lia].
    exfalso.
    assert (2 ^ d <= 2 ^ (Zpos (digits2_pos p) - 1)) by (apply Z.pow_le_mono_r; lia).
    lia.
Qed.

Lemma to_int_finite (s : bool) (m : BinNums.positive) (e : Z) :
  B64.to_int (S754_finite s m e)
  = Some (cond_Zopp s (if e <? 0 then Zpos m / 2 ^ (- e) else Zpos m * 2 ^ e)).
Proof.
  unfold B64.to_int, cond_Zopp. destruct e as [|e|e]; cbn [Z.ltb Z.compare].
  - rewrite Z.mul_1_r. reflexivity.
  - reflexivity.
  - reflexivity.
Qed.

Lemma binary_round_aux_eq (s : bool) (m e : Z) (l : location) :
  binary_round_aux B64.prec B64.emax s m e l
  = let '(mrs, e') := shr_fexp B64.prec B64.emax m e l in
    renormalise s (round_nearest_even (shr_m mrs) (loc_of_shr_record mrs)) e'.
Proof. reflexivity. Qed.

Lemma renormalise_to_int (s : bool) (m e : Z) :
  0 <= m -> e <= 0 ->
  B64.fexp (Zdigits2 m + e) - e <= 0
  \/ (B64.fexp (Zdigits2 m + e) - e = 1 /\ m = 2 ^ 53) ->
  B64.to_int (renormalise s m e) = Some (cond_Zopp s (m / 2 ^ (- e))).
Proof.
  intros Hm He Hk. unfold renormalise, shr_fexp.
  change (SpecFloat.fexp B64.prec B64.emax) with B64.fexp.
  destruct Hk as [Hk|[Hk ->]].
  - assert (E : shr (shr_record_of_loc m loc_Exact) e (B64.fexp (Zdigits2 m + e) - e)
                = (shr_record_of_loc m loc_Exact, e)).
    { unfold shr. destruct (B64.fexp (Zdigits2 m + e) - e); try reflexivity. lia. }
    rewrite E. cbn [shr_record_of_loc shr_m].
    destruct m as [|m|m]; [| |lia].
    + rewrite Z.div_0_l by (apply Z.pow_nonzero; lia). destruct s; reflexivity.
    + replace (e <=? B64.emax - B64.prec) with true
        by (symmetry; apply Z.leb_le; unfold B64.emax, B64.prec; lia).
      rewrite to_int_finite.
      destruct (Z.ltb_spec e 0); [reflexivity|].
      replace e with 0 by lia. cbn [Z.opp]. rewrite Z.pow_0_r, Z.mul_1_r, Z.div_1_r.
      reflexivity.
  - rewrite Hk. cbn [shr iter_pos].
    change (2 ^ 53) with (Zpos (xO (Z.to_pos (2 ^ 52)))).
    cbn [shr_record_of_loc shr_1 shr_m orb].
    replace (e + 1 <=? B64.emax - B64.prec) with true
      by (symmetry; apply Z.leb_le; unfold B64.emax, B64.prec; lia).
    rewrite to_int_finite. f_equal. f_equal.
    change (Zpos (xO (Z.to_pos (2 ^ 52)))) with (2 * 2 ^ 52).
    change (Zpos (Z.to_pos (2 ^ 52))) with (2 ^ 52).
    destruct (Z.ltb_spec (e + 1) 0).
    + replace (- e) with (Z.succ (- (e + 1))) by lia.
      rewrite Z.pow_succ_r by lia.
      rewrite Z.div_mul_cancel_l; [reflexivity| |lia].
      apply Z.pow_nonzero; lia.
    + destruct (Z.eq_dec e 0) as [->|].
      * reflexivity.
      * replace e with (-1) by lia. reflexivity.
Qed.

Lemma loc_of_shr_record_of_loc (m : Z) (l : location) :
  loc_of_shr_record (shr_record_of_loc m l) = l.
Proof. destruct l as [|[]]; reflexivity. Qed.

Lemma shr_m_shr_record_of_loc (m : Z) (l : location) :
  shr_m (shr_record_of_loc m l) = m.
Proof. destruct l as [|[]]; reflexivity. Qed.

Lemma round_nearest_even_range (m : Z) (l : location) :
  round_nearest_even m l = m \/ round_nearest_even m l = m + 1.
Proof.
  destruct l as [|[]]; cbn; auto. destruct (Z.even m); auto.
Qed.

(** Rounding up after a division needs a remainder of at least half the
    divisor. *)
Lemma round_up_new_location (q b r : Z) :
  0 < b -> 0 <= r < b ->
  round_nearest_even q (new_location b r) = q + 1 -> b <= 2 * r.
Proof.
  intros Hb Hr. unfold new_location, new_location_even, new_location_odd.
  destruct (Z.even b).
  - destruct (Z.eqb_spec r 0); cbn [round_nearest_even]; [lia|].
    destruct (Z.compare_spec (2 * r) b); cbn [round_nearest_even]; try lia.
    all: destruct (Z.even q); lia.
  - destruct (Z.eqb_spec r 0); cbn [round_nearest_even]; [lia|].
    destruct (Z.compare_spec (2 * r + 1) b); cbn [round_nearest_even]; lia.
Qed.

(** One shift to the right rounds up only from an odd mantissa. *)
Lemma round_up_shr_1 (p : BinNums.positive) (l : location) :
  let mrs := shr_1 (shr_record_of_loc (Zpos p) l) in
  let m := round_nearest_even (shr_m mrs) (loc_of_shr_record mrs) in
  (2 * m = Zpos p \/ 2 * m = Zpos p - 1 \/ 2 * m = Zpos p + 1).
Proof.
  destruct p as [p|p|]; destruct l as [|[]];
    cbn [shr_record_of_loc shr_1 shr_m loc_of_shr_record orb round_nearest_even];
    try (destruct (Z.even (Zpos p))); try (destruct (Z.even 0)); lia.
Qed.

Lemma scaled_quotient_bounds (a b q r S : Z) :
  0 <= a -> 0 < b < S -> q * b + r = a * S -> 0 <= r < b ->
  a / b * S <= q <= a / b * S + S - 2.
Proof.
  intros Ha Hb Hq Hr.
  pose proof (Z.div_mod a b ltac:(lia)) as Ea.
  pose proof (Z.mod_pos_bound a b ltac:(lia)) as Ht.
  set (n := a / b) in *. set (t := a mod b) in *.
  assert (E : b * (q - n * S) = t * S - r) by nia.
  split.
  - assert (- b < b * (q - n * S)) by nia. nia.
  - assert (b * (q - n * S) <= (b - 1) * S) by nia.
    assert (b * (q - n * S) < b * (S - 1)) by nia.
    nia.
Qed.

Lemma div_pos_floor (sa sb : bool) (pa pb : BinNums.positive) :
  Zpos pa < 2 ^ 53 ->
  B64.to_int (B64.div (S754_finite sa pa 0) (S754_finite sb pb 0))
  = Some (cond_Zopp (xorb sa sb) (Zpos pa / Zpos pb)).
Proof.
  intros Ha.
  pose proof (digits2_pos_bounds pa) as [Al Au].
  pose proof (digits2_pos_bounds pb) as [Bl Bu].
  set (a := Zpos pa) in *. set (b := Zpos pb) in *.
  set (d1 := Zpos (digits2_pos pa)) in *.
  set (d2 := Zpos (digits2_pos pb)) in *.
  assert (Hd1 : 1 <= d1 <= 53).
  { split; [subst d1; lia|].
    destruct (Z_lt_le_dec 53 d1) as [Hlt|]; [|lia].
    assert (2 ^ 53 <= 2 ^ (d1 - 1)) by (apply Z.pow_le_mono_r; lia). lia. }
  assert (Hd2 : 1 <= d2) by (subst d2; lia).
  unfold B64.div, SFdiv, SFdiv_core_binary.
  change (Zdigits2 (Zpos pa)) with d1. change (Zdigits2 (Zpos pb)) with d2.
  fold a b. change (SpecFloat.fexp B64.prec B64.emax) with B64.fexp.
  set (e' := Z.min (B64.fexp (d1 + 0 - (d2 + 0))) (0 - 0)).
  assert (He' : e' = Z.max (d1 - d2 - 53) (-1074)).
  { subst e'. unfold B64.fexp, SpecFloat.fexp, emin, B64.prec, B64.emax. lia. }
  assert (Hs : 0 - 0 - e' = - e') by lia. rewrite Hs.
  assert (Hm : match - e' with
               | 0 => a | Zpos _ => Z.shiftl a (- e') | Zneg _ => 0
               end = a * 2 ^ (- e')).
  { rewrite <- Z.shiftl_mul_pow2 by lia. destruct (- e') eqn:E; try reflexivity; lia. }
  rewrite Hm. clear Hm Hs.
  pose proof (Z_div_mod (a * 2 ^ (- e')) b ltac:(subst b; lia)) as Hqr.
  destruct (Z.div_eucl (a * 2 ^ (- e')) b) as [q r]. destruct Hqr as [Hq Hr].
  rewrite binary_round_aux_eq. unfold shr_fexp.
  change (SpecFloat.fexp B64.prec B64.emax) with B64.fexp.
  assert (Hb0 : 0 < b) by (subst b; lia).
  assert (Ha0 : 0 < a) by (subst a; lia).
  destruct (Z_le_gt_dec (-1074) (d1 - d2 - 53)) as [Hn|Hsub].
  - (* the quotient is a normal number *)
    assert (Ee : e' = d1 - d2 - 53) by lia.
    set (S := 2 ^ (- e')) in *.
    assert (HS : S = 2 ^ (53 - d1) * 2 ^ d2).
    { subst S. rewrite <- Z.pow_add_r by lia. f_equal. lia. }
    assert (HSA : S * 2 ^ (d1 - 1) = 2 ^ 53 * 2 ^ (d2 - 1)).
    { subst S. rewrite <- !Z.pow_add_r by lia. f_equal. lia. }
    assert (HK : 1 <= 2 ^ (53 - d1)) by (pose proof (Z.pow_pos_nonneg 2 (53 - d1)); lia).
    assert (HbS : b < S) by nia.
    assert (H2B : 2 ^ d2 = 2 * 2 ^ (d2 - 1)).
    { replace d2 with (Z.succ (d2 - 1)) at 1 by lia. apply Z.pow_succ_r. lia. }
    assert (H2A : 2 ^ d1 = 2 * 2 ^ (d1 - 1)).
    { replace d1 with (Z.succ (d1 - 1)) at 1 by lia. apply Z.pow_succ_r. lia. }
    set (A := 2 ^ (d1 - 1)) in *. set (B := 2 ^ (d2 - 1)) in *.
    assert (HB0 : 0 < B) by (subst B; apply Z.pow_pos_nonneg; lia).
    assert (Hqb : 2 ^ 52 <= q < 2 ^ 54).
    { split.
      - assert (2 ^ 53 * B <= a * S) by nia.
        assert (2 ^ 52 * b < 2 ^ 53 * B) by lia.
        assert (2 ^ 52 * b < (q + 1) * b) by lia. nia.
      - assert (a * S < 2 ^ 54 * B) by nia.
        assert (q * b < 2 ^ 54 * b) by nia. nia. }
    pose proof (@scaled_quotient_bounds a b q r S ltac:(lia) ltac:(lia) ltac:(lia) Hr) as Hn'.
    destruct q as [|pq|pq]; try lia.
    cbn [Zdigits2].
    destruct (Z_lt_le_dec (Zpos pq) (2 ^ 53)) as [Hq53|Hq53].
    + (* no shift *)
      rewrite (@digits2_pos_unique pq 53) by (change (53 - 1) with 52; lia).
      replace (B64.fexp (53 + e') - e') with 0
        by (unfold B64.fexp, SpecFloat.fexp, emin, B64.prec, B64.emax; lia).
      cbn [shr]. rewrite shr_m_shr_record_of_loc, loc_of_shr_record_of_loc.
      set (M := round_nearest_even (Zpos pq) (new_location b r)).
      assert (HM : M = Zpos pq \/ M = Zpos pq + 1) by apply round_nearest_even_range.
      rewrite renormalise_to_int.
      * f_equal. f_equal. fold S. symmetry.
        apply Z.div_unique with (M - a / b * S). lia. lia.
      * lia.
      * lia.
      * destruct (Z.eq_dec M (2 ^ 53)) as [EM|NM].
        -- right. split; [|assumption]. rewrite EM.
           change (Zdigits2 (2 ^ 53)) with 54.
           unfold B64.fexp, SpecFloat.fexp, emin, B64.prec, B64.emax; lia.
        -- left. assert (HMp : 2 ^ 52 <= M < 2 ^ 53) by lia.
           destruct M as [|pm|pm]; try lia. cbn [Zdigits2].
           rewrite (@digits2_pos_unique pm 53) by (change (53 - 1) with 52; lia).
           unfold B64.fexp, SpecFloat.fexp, emin, B64.prec, B64.emax; lia.
    + (* one shift *)
      rewrite (@digits2_pos_unique pq 54) by (change (54 - 1) with 53; lia).
      replace (B64.fexp (54 + e') - e') with 1
        by (unfold B64.fexp, SpecFloat.fexp, emin, B64.prec, B64.emax; lia).
      cbn [shr iter_pos].
      pose proof (round_up_shr_1 pq (new_location b r)) as HM. cbv zeta in HM.
      set (M := round_nearest_even _ _) in *.
      assert (HT : S = 2 * 2 ^ (- (e' + 1))).
      { subst S. replace (- e') with (Z.succ (- (e' + 1))) by lia.
        apply Z.pow_succ_r. lia. }
      set (T := 2 ^ (- (e' + 1))) in *.
      rewrite renormalise_to_int.
      * f_equal. f_equal. fold T. symmetry.
        rewrite HT in Hn'.
        apply Z.div_unique with (M - a / b * T); lia.
      * lia.
      * lia.
      * destruct (Z.eq_dec M (2 ^ 53)) as [EM|NM].
        -- right. split; [|assumption]. rewrite EM.
           change (Zdigits2 (2 ^ 53)) with 54.
           unfold B64.fexp, SpecFloat.fexp, emin, B64.prec, B64.emax; lia.
        -- left. assert (HMp : 2 ^ 52 <= M < 2 ^ 53) by lia.
           destruct M as [|pm|pm]; try lia. cbn [Zdigits2].
           rewrite (@digits2_pos_unique pm 53) by (change (53 - 1) with 52; lia).
           unfold B64.fexp, SpecFloat.fexp, emin, B64.prec, B64.emax; lia.
  - (* the quotient is below the normal numbers *)
    assert (Ee : e' = -1074) by lia. rewrite Ee in *.
    change (- -1074) with 1074 in *.
    assert (Hab : a * 2 ^ 1074 < 2 ^ 53 * b).
    { assert (2 ^ d1 * 2 ^ 1074 <= 2 ^ 53 * 2 ^ (d2 - 1)).
      { rewrite <- !Z.pow_add_r by lia. apply Z.pow_le_mono_r; lia. }
      assert (0 < 2 ^ 1074) by (apply Z.pow_pos_nonneg; lia).
      nia. }
    assert (Hq53 : 0 <= q < 2 ^ 53) by nia.
    assert (Hdq : 0 <= Zdigits2 q <= 53).
    { destruct q as [|pq|pq]; cbn [Zdigits2]; try lia.
      pose proof (digits2_pos_bounds pq) as [Ql Qu].
      destruct (Z_lt_le_dec 53 (Zpos (digits2_pos pq))) as [Hlt|]; [|lia].
      assert (2 ^ 53 <= 2 ^ (Zpos (digits2_pos pq) - 1)) by (apply Z.pow_le_mono_r; lia).
      lia. }
    replace (B64.fexp (Zdigits2 q + -1074) - -1074) with 0
      by (unfold B64.fexp, SpecFloat.fexp, emin, B64.prec, B64.emax; lia).
    cbn [shr]. rewrite shr_m_shr_record_of_loc, loc_of_shr_record_of_loc.
    set (M := round_nearest_even q (new_location b r)).
    assert (HM : M = q \/ M = q + 1) by apply round_nearest_even_range.
    rewrite renormalise_to_int.
    + f_equal. f_equal. change (- -1074) with 1074.
      assert (2 ^ 53 < 2 ^ 1074) by (apply Z.pow_lt_mono_r; lia).
      rewrite Z.div_small by lia.
      rewrite Z.div_small; [reflexivity|].
      assert (0 < 2 ^ 1074) by (apply Z.pow_pos_nonneg; lia).
      nia.
    + lia.
    + lia.
    + destruct (Z.eq_dec M (2 ^ 53)) as [EM|NM].
      * right. split; [|assumption]. rewrite EM. reflexivity.
      * left. assert (HdM : 0 <= Zdigits2 M <= 53).
        { assert (HMp : 0 <= M < 2 ^ 53) by lia.
          destruct M as [|pm|pm]; cbn [Zdigits2]; try lia.
          pose proof (digits2_pos_bounds pm) as [Ql Qu].
          destruct (Z_lt_le_dec 53 (Zpos (digits2_pos pm))) as [Hlt|]; [|lia].
          assert (2 ^ 53 <= 2 ^ (Zpos (digits2_pos pm) - 1))
            by (apply Z.pow_le_mono_r; lia).
          lia. }
        revert HdM. generalize (Zdigits2 M). intros dM HdM.
        unfold B64.fexp, SpecFloat.fexp, emin, B64.prec, B64.emax. lia.
Qed.

(** [int(a / b)] truncates the exact quotient toward zero as long as
    [a] is below 2^53 in absolute value. *)
Lemma int_truediv_quot (a b : Z) :
  Z.abs a < 2 ^ 53 -> b <> 0 -> int_truediv a b = Returned (Z.quot a b).
Proof.
  intros Ha Hb. unfold int_truediv.
  rewrite (proj2 (Z.eqb_neq b 0) Hb). unfold B64.true_quotient.
  destruct a as [|pa|pa].
  - rewrite Z.quot_0_l by exact Hb. reflexivity.
  - destruct b as [|pb|pb]; [contradiction| |];
      cbn [Z.abs Z.to_pos Z.ltb Z.compare];
      rewrite div_pos_floor by exact Ha; cbn [xorb cond_Zopp].
    + rewrite Z.quot_div_nonneg by lia. reflexivity.
    + change (Z.neg pb) with (- Z.pos pb).
      rewrite Z.quot_opp_r, Z.quot_div_nonneg by lia. reflexivity.
  - destruct b as [|pb|pb]; [contradiction| |];
      cbn [Z.abs Z.to_pos Z.ltb Z.compare];
      rewrite div_pos_floor by exact Ha; cbn [xorb cond_Zopp].
    + change (Z.neg pa) with (- Z.pos pa).
      rewrite Z.quot_opp_l, Z.quot_div_nonneg by lia. reflexivity.
    + change (Z.neg pa) with (- Z.pos pa). change (Z.neg pb) with (- Z.pos pb).
      rewrite Z.quot_opp_opp, Z.quot_div_nonneg by lia. reflexivity.
Qed.

Lemma int_truediv_floor (a b : Z) :
  0 <= a < 2 ^ 53 -> 0 < b -> int_truediv a b = Returned (a / b).
Proof.
  intros Ha Hb. rewrite int_truediv_quot by lia.
  rewrite Z.quot_div_nonneg by lia. reflexivity.
Qed.

End TrueDivision.

(** ** Sums of products of integers

    Integers below 2^53 are binary64 numbers, and their sums and
    products are computed exactly as long as they stay below 2^53. *)

Section ExactIntegers.

Lemma iter_pos_nat {A} (f : A -> A) (p : BinNums.positive) (x : A) :
  iter_pos f p x = Nat.iter (Pos.to_nat p) f x.
Proof.
  revert x. induction p as [p IH|p IH|]; intros x; cbn [iter_pos].
  - rewrite !IH, Pos2Nat.inj_xI.
    replace (S (2 * Pos.to_nat p))%nat with (Pos.to_nat p + (Pos.to_nat p + 1))%nat by lia.
    rewrite !Nat.iter_add. reflexivity.
  - rewrite !IH, Pos2Nat.inj_xO.
    replace (2 * Pos.to_nat p)%nat with (Pos.to_nat p + Pos.to_nat p)%nat by lia.
    rewrite Nat.iter_add. reflexivity.
  - reflexivity.
Qed.

Lemma shr_exact_nat (n : nat) (K : BinNums.positive) :
  Nat.iter n shr_1 (Build_shr_record (Zpos K * 2 ^ Z.of_nat n) false false)
  = Build_shr_record (Zpos K) false false.
Proof.
  revert K. induction n as [|n IH]; intros K.
  - cbn [Nat.iter]. rewrite Z.mul_1_r. reflexivity.
  - rewrite Nat.iter_succ_r.
    replace (Zpos K * 2 ^ Z.of_nat (S n)) with (Zpos (xO K) * 2 ^ Z.of_nat n).
    2:{ rewrite Nat2Z.inj_succ, Z.pow_succ_r by lia. rewrite (Pos2Z.inj_xO K). ring. }
    (* one step on an even mantissa *)
    assert (E : exists q, Zpos (xO K) * 2 ^ Z.of_nat n = Zpos (xO q)
                          /\ Zpos q = Zpos K * 2 ^ Z.of_nat n).
    { assert (0 < Zpos K * 2 ^ Z.of_nat n) by (apply Z.mul_pos_pos; [lia|apply Z.pow_pos_nonneg; lia]).
      exists (Z.to_pos (Zpos K * 2 ^ Z.of_nat n)).
      rewrite (Pos2Z.inj_xO (Z.to_pos _)), (Pos2Z.inj_xO K), Z2Pos.id by lia.
      split; [ring|reflexivity]. }
    destruct E as (q & -> & Eq). cbn [shr_1 orb]. rewrite Eq. apply IH.
Qed.

Lemma shr_exact (K : BinNums.positive) (e n : Z) :
  0 <= n ->
  shr (Build_shr_record (Zpos K * 2 ^ n) false false) e n
  = (Build_shr_record (Zpos K) false false, e + n).
Proof.
  intros Hn. unfold shr. destruct n as [|p|p]; [| |lia].
  - rewrite Z.mul_1_r, Z.add_0_r. reflexivity.
  - rewrite iter_pos_nat. f_equal.
    rewrite <- (positive_nat_Z p) at 1. apply shr_exact_nat.
Qed.


Lemma Zdigits2_bounds (k : Z) :
  k <> 0 -> 2 ^ (Zdigits2 k - 1) <= Z.abs k < 2 ^ Zdigits2 k.
Proof.
  destruct k as [|p|p]; [contradiction| |]; intros _; cbn [Zdigits2 Z.abs];
    apply digits2_pos_bounds.
Qed.

Lemma Zdigits2_unique (k d : Z) :
  2 ^ (d - 1) <= Z.abs k < 2 ^ d -> 0 < Z.abs k -> Zdigits2 k = d.
Proof.
  intros Hb Hk. destruct k as [|p|p]; cbn [Zdigits2 Z.abs] in *; try lia;
    apply digits2_pos_unique; assumption.
Qed.

Lemma Zdigits2_small (k : Z) :
  k <> 0 -> Z.abs k < 2 ^ 53 -> 1 <= Zdigits2 k <= 53.
Proof.
  intros Hk Hb. pose proof (Zdigits2_bounds Hk) as [Hl Hu].
  assert (0 < Zdigits2 k) by (destruct k; cbn; lia).
  split; [lia|].
  destruct (Z_lt_le_dec 53 (Zdigits2 k)) as [Hlt|]; [|lia].
  assert (2 ^ 53 <= 2 ^ (Zdigits2 k - 1)) by (apply Z.pow_le_mono_r; lia). lia.
Qed.

(** The mantissa of [canon k]. *)
Lemma canon_mantissa (k : Z) :
  k <> 0 -> Z.abs k < 2 ^ 53 ->
  2 ^ 52 <= Z.abs k * 2 ^ (53 - Zdigits2 k) < 2 ^ 53.
Proof.
  intros Hk Hb. pose proof (Zdigits2_bounds Hk) as [Hl Hu].
  pose proof (Zdigits2_small Hk Hb) as Hd.
  set (D := Zdigits2 k) in *.
  assert (E1 : 2 ^ (D - 1) * 2 ^ (53 - D) = 2 ^ 52)
    by (rewrite <- Z.pow_add_r by lia; f_equal; lia).
  assert (E2 : 2 ^ D * 2 ^ (53 - D) = 2 ^ 53)
    by (rewrite <- Z.pow_add_r by lia; f_equal; lia).
  assert (0 < 2 ^ (53 - D)) by (apply Z.pow_pos_nonneg; lia).
  nia.
Qed.

(** A mantissa of 53 digits followed by [n] zeros is rounded to itself. *)
Lemma round_aux_exact (s : bool) (K n e : Z) :
  2 ^ 52 <= K < 2 ^ 53 -> 0 <= n -> -1074 <= e + n <= 971 ->
  binary_round_aux B64.prec B64.emax s (K * 2 ^ n) e loc_Exact
  = S754_finite s (Z.to_pos K) (e + n).
Proof.
  intros HK Hn He.
  assert (HKp : K = Zpos (Z.to_pos K)) by (rewrite Z2Pos.id; lia).
  assert (Hp : 0 < 2 ^ n) by (apply Z.pow_pos_nonneg; lia).
  assert (Hd : Zdigits2 (K * 2 ^ n) = 53 + n).
  { apply Zdigits2_unique; [|nia].
    rewrite Z.abs_eq by nia.
    replace (53 + n - 1) with (52 + n) by lia.
    rewrite !Z.pow_add_r by lia. nia. }
  rewrite binary_round_aux_eq. unfold shr_fexp.
  change (SpecFloat.fexp B64.prec B64.emax) with B64.fexp.
  rewrite Hd.
  replace (B64.fexp (53 + n + e) - e) with n
    by (unfold B64.fexp, SpecFloat.fexp, emin, B64.prec, B64.emax; lia).
  cbn [shr_record_of_loc]. rewrite HKp at 1. rewrite shr_exact by exact Hn.
  cbn [shr_m loc_of_shr_record round_nearest_even].
  unfold renormalise, shr_fexp.
  change (SpecFloat.fexp B64.prec B64.emax) with B64.fexp.
  cbn [Zdigits2].
  rewrite (@digits2_pos_unique (Z.to_pos K) 53) by (rewrite <- HKp; change (53 - 1) with 52; lia).
  replace (B64.fexp (53 + (e + n)) - (e + n)) with 0
    by (unfold B64.fexp, SpecFloat.fexp, emin, B64.prec, B64.emax; lia).
  cbn [shr shr_record_of_loc shr_m].
  replace (e + n <=? B64.emax - B64.prec) with true
    by (symmetry; apply Z.leb_le; unfold B64.emax, B64.prec; lia).
  reflexivity.
Qed.

Lemma pos_iter_xO (p d : BinNums.positive) :
  Zpos (Pos.iter xO p d) = Zpos p * 2 ^ Zpos d.
Proof.
  induction d as [|d IH] using Pos.peano_ind.
  - cbn [Pos.iter]. rewrite Pos2Z.inj_xO. change (2 ^ 1) with 2. ring.
  - rewrite Pos.iter_succ, (Pos2Z.inj_xO (Pos.iter xO p d)), IH, Pos2Z.inj_succ,
      Z.pow_succ_r by lia. ring.
Qed.

(** Whatever the exponent it is written with, an integer below 2^53 is
    normalised to its binary64. *)
Lemma normalize_exact (k e : Z) :
  k <> 0 -> Z.abs k < 2 ^ 53 -> -1074 <= e <= 0 ->
  binary_normalize B64.prec B64.emax (k * 2 ^ (- e)) e false = canon k.
Proof.
  intros Hk Hb He.
  pose proof (Zdigits2_bounds Hk) as [Hl Hu].
  pose proof (Zdigits2_small Hk Hb) as Hd.
  pose proof (canon_mantissa Hk Hb) as HK.
  assert (Hp : 0 < 2 ^ (- e)) by (apply Z.pow_pos_nonneg; lia).
  assert (Hdm : Zdigits2 (k * 2 ^ (- e)) = Zdigits2 k - e).
  { apply Zdigits2_unique.
    - rewrite Z.abs_mul, (Z.abs_eq (2 ^ (- e))) by lia.
      replace (Zdigits2 k - e - 1) with (Zdigits2 k - 1 + - e) by lia.
      replace (Zdigits2 k - e) with (Zdigits2 k + - e) by lia.
      rewrite !Z.pow_add_r by lia. nia.
    - rewrite Z.abs_mul, (Z.abs_eq (2 ^ (- e))) by lia. nia. }
  set (D := Zdigits2 k) in *.
  set (K := Z.abs k * 2 ^ (53 - D)) in *.
  assert (Hround : forall s (pm : BinNums.positive),
             Zpos pm = Z.abs k * 2 ^ (- e) ->
             binary_round B64.prec B64.emax s pm e
             = S754_finite s (Z.to_pos K) (D - 53)).
  { intros s pm Epm. unfold binary_round.
    change (SpecFloat.fexp B64.prec B64.emax) with B64.fexp.
    assert (Edp : Zpos (digits2_pos pm) = D - e).
    { rewrite <- Hdm. destruct k as [|q|q]; [contradiction| |];
        cbn [Z.abs] in Epm; change (Zpos (digits2_pos pm)) with (Zdigits2 (Zpos pm));
        rewrite Epm.
      - reflexivity.
      - change (Z.neg q) with (- Zpos q). rewrite Z.mul_opp_l.
        destruct (Zpos q * 2 ^ (- e)) eqn:Eq; reflexivity. }
    rewrite Edp.
    replace (B64.fexp (D - e + e)) with (D - 53)
      by (unfold B64.fexp, SpecFloat.fexp, emin, B64.prec, B64.emax; lia).
    unfold shl_align.
    destruct (D - 53 - e) as [|d|d] eqn:Ed.
    - replace (Zpos pm) with (K * 2 ^ 0).
      2:{ rewrite Epm. subst K. rewrite Z.mul_1_r. f_equal. f_equal. lia. }
      rewrite round_aux_exact by lia. f_equal. lia.
    - replace (Zpos pm) with (K * 2 ^ Zpos d).
      2:{ rewrite Epm. subst K. rewrite <- Z.mul_assoc, <- Z.pow_add_r by lia.
          f_equal. f_equal. lia. }
      rewrite round_aux_exact by lia. f_equal. lia.
    - replace (Zpos (Pos.iter xO pm d)) with (K * 2 ^ 0).
      2:{ rewrite pos_iter_xO, Epm. subst K. rewrite Z.mul_1_r.
          rewrite <- Z.mul_assoc, <- Z.pow_add_r by lia. f_equal. f_equal. lia. }
      rewrite round_aux_exact by lia. f_equal. lia. }
  unfold canon. fold D. fold K.
  destruct k as [|q|q]; [contradiction| |].
  - assert (E : Zpos q * 2 ^ (- e) = Zpos (Z.to_pos (Zpos q * 2 ^ (- e))))
      by (rewrite Z2Pos.id; lia).
    rewrite E. cbn [binary_normalize]. rewrite Hround; [reflexivity|].
    rewrite <- E. reflexivity.
  - assert (E : Z.neg q * 2 ^ (- e) = Zneg (Z.to_pos (Zpos q * 2 ^ (- e)))).
    { change (Z.neg q) with (- Zpos q). rewrite Z.mul_opp_l.
      rewrite <- (Z2Pos.id (Zpos q * 2 ^ (- e))) at 1 by lia. reflexivity. }
    rewrite E. cbn [binary_normalize]. rewrite Hround; [reflexivity|].
    rewrite Z2Pos.id by lia. reflexivity.
Qed.

Lemma of_Z_canon (k : Z) : Z.abs k < 2 ^ 53 -> B64.of_Z k = canon k.
Proof.
  intros Hb. destruct (Z.eq_dec k 0) as [->|Hk]; [reflexivity|].
  unfold B64.of_Z. rewrite <- (@normalize_exact k 0) by lia.
  f_equal. cbn [Z.opp]. rewrite Z.pow_0_r. ring.
Qed.


Lemma holds_int_zero (x : B64.float) :
  holds_int 0 x -> exists s, x = S754_zero s.
Proof. intros [->|[_ ->]]; eexists; reflexivity. Qed.

Lemma holds_int_canon (k : Z) (x : B64.float) :
  holds_int k x -> k <> 0 -> Z.abs k < 2 ^ 53 -> x = canon k.
Proof.
  intros [->|[E _]] Hk Hb; [apply of_Z_canon; exact Hb|contradiction].
Qed.

Lemma holds_int_finite (k : Z) (x : B64.float) :
  holds_int k x -> k <> 0 -> Z.abs k < 2 ^ 53 ->
  exists s m e, x = S754_finite s m e.
Proof.
  intros Hx Hk Hb. rewrite (holds_int_canon Hx Hk Hb). unfold canon.
  destruct k; [contradiction|eauto..].
Qed.

Lemma shl_align_fst (m : BinNums.positive) (e e' : Z) :
  e' <= e -> Zpos (fst (shl_align m e e')) = Zpos m * 2 ^ (e - e').
Proof.
  intros He. unfold shl_align. destruct (e' - e) as [|d|d] eqn:Ed; cbn [fst].
  - replace (e - e') with 0 by lia. rewrite Z.mul_1_r. reflexivity.
  - lia.
  - rewrite pos_iter_xO. f_equal. f_equal. lia.
Qed.

Lemma cond_Zopp_abs (k : Z) : cond_Zopp (k <? 0) (Z.abs k) = k.
Proof. unfold cond_Zopp. destruct (Z.ltb_spec k 0); lia. Qed.

Lemma cond_Zopp_mul (s : bool) (a b : Z) :
  cond_Zopp s (a * b) = cond_Zopp s a * b.
Proof. destruct s; cbn [cond_Zopp]; ring. Qed.

Lemma add_holds (a b : Z) (x y : B64.float) :
  holds_int a x -> holds_int b y ->
  Z.abs a < 2 ^ 53 -> Z.abs b < 2 ^ 53 -> Z.abs (a + b) < 2 ^ 53 ->
  holds_int (a + b) (B64.add x y).
Proof.
  intros Hx Hy Ha Hb Hab.
  destruct (Z.eq_dec a 0) as [->|Na]; [|destruct (Z.eq_dec b 0) as [->|Nb]].
  - apply holds_int_zero in Hx as [sx ->]. cbn [Z.add].
    destruct (Z.eq_dec b 0) as [->|Nb].
    + apply holds_int_zero in Hy as [sy ->].
      destruct sx, sy; cbn; [right; split; reflexivity|left; reflexivity..].
    + destruct (holds_int_finite Hy Nb Hb) as (s & m & e & ->). exact Hy.
  - apply holds_int_zero in Hy as [sy ->]. rewrite Z.add_0_r.
    destruct (holds_int_finite Hx Na Ha) as (s & m & e & ->). exact Hx.
  - pose proof (holds_int_canon Hx Na Ha) as Ex.
    pose proof (holds_int_canon Hy Nb Hb) as Ey.
    pose proof (canon_mantissa Na Ha) as HKa.
    pose proof (canon_mantissa Nb Hb) as HKb.
    pose proof (Zdigits2_small Na Ha) as HDa.
    pose proof (Zdigits2_small Nb Hb) as HDb.
    assert (Ea : x = S754_finite (a <? 0)
                       (Z.to_pos (Z.abs a * 2 ^ (53 - Zdigits2 a))) (Zdigits2 a - 53))
      by (rewrite Ex; unfold canon; destruct a; [contradiction|reflexivity..]).
    assert (Eb : y = S754_finite (b <? 0)
                       (Z.to_pos (Z.abs b * 2 ^ (53 - Zdigits2 b))) (Zdigits2 b - 53))
      by (rewrite Ey; unfold canon; destruct b; [contradiction|reflexivity..]).
    rewrite Ea, Eb. unfold B64.add, SFadd.
    set (ea := Zdigits2 a - 53) in *. set (eb := Zdigits2 b - 53) in *.
    set (ez := Z.min ea eb).
    rewrite !shl_align_fst by lia.
    rewrite !Z2Pos.id by lia.
    assert (E : cond_Zopp (a <? 0) (Z.abs a * 2 ^ (53 - Zdigits2 a) * 2 ^ (ea - ez))
                + cond_Zopp (b <? 0) (Z.abs b * 2 ^ (53 - Zdigits2 b) * 2 ^ (eb - ez))
                = (a + b) * 2 ^ (- ez)).
    { rewrite <- !Z.mul_assoc, <- !Z.pow_add_r by lia.
      replace (53 - Zdigits2 a + (ea - ez)) with (- ez) by lia.
      replace (53 - Zdigits2 b + (eb - ez)) with (- ez) by lia.
      rewrite !cond_Zopp_mul, !cond_Zopp_abs. ring. }
    rewrite E.
    destruct (Z.eq_dec (a + b) 0) as [E0|N0].
    + rewrite E0. left. reflexivity.
    + left. rewrite normalize_exact by lia. symmetry. apply of_Z_canon. exact Hab.
Qed.

Lemma mul_holds (a b : Z) (x y : B64.float) :
  holds_int a x -> holds_int b y ->
  Z.abs a < 2 ^ 53 -> Z.abs b < 2 ^ 53 -> Z.abs (a * b) < 2 ^ 53 ->
  holds_int (a * b) (B64.mul x y).
Proof.
  intros Hx Hy Ha Hb Hab.
  assert (Hz : forall s s', holds_int 0 (S754_zero (xorb s s'))).
  { intros [|] [|]; cbn; [left|right; split|right; split|left]; reflexivity. }
  destruct (Z.eq_dec a 0) as [->|Na]; [|destruct (Z.eq_dec b 0) as [->|Nb]].
  - apply holds_int_zero in Hx as [sx ->]. cbn [Z.mul].
    destruct (Z.eq_dec b 0) as [->|Nb].
    + apply holds_int_zero in Hy as [sy ->]. apply Hz.
    + rewrite (holds_int_canon Hy Nb Hb). unfold canon.
      destruct b as [|q|q]; [contradiction| |]; apply Hz.
  - apply holds_int_zero in Hy as [sy ->]. rewrite Z.mul_0_r.
    rewrite (holds_int_canon Hx Na Ha). unfold canon.
    destruct a as [|q|q]; [contradiction| |]; apply Hz.
  - assert (Nab : a * b <> 0) by nia.
    pose proof (canon_mantissa Na Ha) as HKa.
    pose proof (canon_mantissa Nb Hb) as HKb.
    pose proof (canon_mantissa Nab Hab) as HKab.
    pose proof (Zdigits2_small Na Ha) as HDa.
    pose proof (Zdigits2_small Nb Hb) as HDb.
    pose proof (Zdigits2_small Nab Hab) as HDab.
    pose proof (Zdigits2_bounds Na) as [La Ua].
    pose proof (Zdigits2_bounds Nb) as [Lb Ub].
    pose proof (Zdigits2_bounds Nab) as [Lab Uab].
    assert (Ea : x = S754_finite (a <? 0)
                       (Z.to_pos (Z.abs a * 2 ^ (53 - Zdigits2 a))) (Zdigits2 a - 53))
      by (rewrite (holds_int_canon Hx Na Ha); unfold canon;
          destruct a; [contradiction|reflexivity..]).
    assert (Eb : y = S754_finite (b <? 0)
                       (Z.to_pos (Z.abs b * 2 ^ (53 - Zdigits2 b))) (Zdigits2 b - 53))
      by (rewrite (holds_int_canon Hy Nb Hb); unfold canon;
          destruct b; [contradiction|reflexivity..]).
    rewrite Ea, Eb. unfold B64.mul, SFmul.
    rewrite Pos2Z.inj_mul, !Z2Pos.id by lia.
    set (Da := Zdigits2 a) in *. set (Db := Zdigits2 b) in *.
    set (Dab := Zdigits2 (a * b)) in *.
    assert (Hn : Da + Db - 1 <= Dab).
    { destruct (Z_lt_le_dec Dab (Da + Db - 1)) as [Hlt|]; [|lia].
      assert (2 ^ Dab <= 2 ^ (Da - 1 + (Db - 1))) by (apply Z.pow_le_mono_r; lia).
      rewrite Z.pow_add_r in * by lia. rewrite Z.abs_mul in Uab.
      assert (0 <= 2 ^ (Da - 1)) by (apply Z.pow_nonneg; lia).
      assert (0 <= 2 ^ (Db - 1)) by (apply Z.pow_nonneg; lia).
      pose proof (@Z.mul_le_mono_nonneg (2 ^ (Da - 1)) (Z.abs a)
                    (2 ^ (Db - 1)) (Z.abs b)). lia. }
    set (n := Dab + 53 - Da - Db).
    assert (EM : Z.abs a * 2 ^ (53 - Da) * (Z.abs b * 2 ^ (53 - Db))
                 = Z.abs (a * b) * 2 ^ (53 - Dab) * 2 ^ n).
    { assert (P1 : 2 ^ (53 - Da) * 2 ^ (53 - Db) = 2 ^ (106 - Da - Db))
        by (rewrite <- Z.pow_add_r by lia; f_equal; lia).
      assert (P2 : 2 ^ (53 - Dab) * 2 ^ n = 2 ^ (106 - Da - Db))
        by (rewrite <- Z.pow_add_r by lia; f_equal; lia).
      rewrite Z.abs_mul.
      transitivity (Z.abs a * Z.abs b * (2 ^ (53 - Da) * 2 ^ (53 - Db))); [ring|].
      rewrite P1, <- P2. ring. }
    rewrite EM, round_aux_exact by lia.
    left. rewrite of_Z_canon by exact Hab. unfold canon.
    fold Dab.
    assert (Es : xorb (a <? 0) (b <? 0) = (a * b <? 0)).
    { destruct (Z.ltb_spec a 0), (Z.ltb_spec b 0), (Z.ltb_spec (a * b) 0);
        cbn; try reflexivity; nia. }
    rewrite Es.
    destruct (a * b) as [|q|q] eqn:Eab; [contradiction| |]; f_equal; lia.
Qed.


Lemma fold_holds (l : list Z) (g : Z -> B64.float) (gi : Z -> Z) (B : Z)
    (acc : B64.float) (acci : Z) :
  0 <= B ->
  (forall i, In i l -> holds_int (gi i) (g i) /\ Z.abs (gi i) <= B) ->
  holds_int acci acc ->
  Z.abs acci + Z.of_nat (length l) * B < 2 ^ 53 ->
  holds_int (fold_left Z.add (map gi l) acci) (fold_left B64.add (map g l) acc)
  /\ Z.abs (fold_left Z.add (map gi l) acci)
     <= Z.abs acci + Z.of_nat (length l) * B.
Proof.
  intros HB. revert acc acci.
  induction l as [|i l IH]; intros acc acci Hg Hacc Hb.
  - cbn [map fold_left length]. split; [exact Hacc|lia].
  - cbn [map fold_left]. cbn [length] in Hb. rewrite Nat2Z.inj_succ in Hb.
    destruct (Hg i (or_introl eq_refl)) as [Hi Bi].
    assert (0 <= Z.of_nat (length l) * B) by nia.
    destruct (IH (B64.add acc (g i)) (acci + gi i)) as [H1 H2].
    + intros j Hj. apply Hg. right. exact Hj.
    + apply add_holds; try assumption; lia.
    + lia.
    + split; [exact H1|]. cbn [length]. rewrite Nat2Z.inj_succ. lia.
Qed.

Lemma sum_range_holds (n : Z) (g : Z -> B64.float) (gi : Z -> Z) (B : Z) :
  0 <= B ->
  (forall i, 0 <= i < n -> holds_int (gi i) (g i) /\ Z.abs (gi i) <= B) ->
  Z.max 0 n * B < 2 ^ 53 ->
  holds_int (int_sum n gi) (sum_range n g)
  /\ Z.abs (int_sum n gi) <= Z.max 0 n * B.
Proof.
  intros HB Hg Hb.
  assert (El : Z.of_nat (length (range n)) = Z.max 0 n).
  { unfold range. rewrite length_map, length_seq. lia. }
  destruct (@fold_holds (range n) g gi B B64.zero 0 HB) as [H1 H2].
  - intros i Hi. apply Hg. apply in_range. exact Hi.
  - left. reflexivity.
  - rewrite El. cbn [Z.abs]. lia.
  - rewrite El in H2. cbn [Z.abs] in H2. split; [exact H1|unfold int_sum; lia].
Qed.

Lemma abs_mul_le (a b A B : Z) :
  Z.abs a <= A -> Z.abs b <= B -> Z.abs (a * b) <= A * B.
Proof.
  intros Ha Hb. rewrite Z.abs_mul.
  apply Z.mul_le_mono_nonneg; lia.
Qed.

Lemma sum_range_holds_nonneg (n : Z) (g : Z -> B64.float) (gi : Z -> Z)
    (B : Z) :
  0 <= n -> 0 <= B ->
  (forall i, 0 <= i < n -> holds_int (gi i) (g i) /\ Z.abs (gi i) <= B) ->
  n * B < 2 ^ 53 ->
  holds_int (int_sum n gi) (sum_range n g) /\ Z.abs (int_sum n gi) <= n * B.
Proof.
  intros Hn HB Hg Hb.
  destruct (@sum_range_holds n g gi B HB Hg) as [H1 H2].
  - rewrite Z.max_r by lia. exact Hb.
  - rewrite Z.max_r in H2 by lia. split; assumption.
Qed.

Lemma sum_range_one_holds (g : Z -> B64.float) (k B : Z) :
  0 <= B < 2 ^ 53 -> holds_int k (g 0) -> Z.abs k <= B ->
  holds_int k (sum_range 1 g) /\ Z.abs k <= B.
Proof.
  intros HB Hg Hk.
  destruct (@sum_range_holds 1 g (fun _ => k) B) as [H1 H2]; [lia| |lia|].
  - intros i Hi. replace i with 0 by lia. split; assumption.
  - split; [exact H1|exact Hk].
Qed.

(** The window sum of integers, term by term. *)
Lemma window_sum_holds (wa : ndarray B64.float)
    (xp : Z -> Z -> Z -> Z -> B64.float) (wi xpi : Z -> Z -> Z -> Z -> Z)
    (f c_in stride t i j l Bw Bx : Z) :
  0 <= f -> 0 <= c_in ->
  0 <= Bw < 2 ^ 53 -> 0 <= Bx < 2 ^ 53 ->
  f * f * c_in * (Bw * Bx) < 2 ^ 53 ->
  (forall p q r, 0 <= p < f -> 0 <= q < f -> 0 <= r < c_in ->
     holds_int (wi p q r l) (get4 wa p q r l) /\ Z.abs (wi p q r l) <= Bw) ->
  (forall p q r, 0 <= p < f -> 0 <= q < f -> 0 <= r < c_in ->
     holds_int (xpi t (i * stride + p) (j * stride + q) r)
       (xp t (i * stride + p) (j * stride + q) r)
     /\ Z.abs (xpi t (i * stride + p) (j * stride + q) r) <= Bx) ->
  holds_int (int_window_sum wi xpi f c_in stride t i j l)
    (window_sum wa xp f c_in stride t i j l)
  /\ Z.abs (int_window_sum wi xpi f c_in stride t i j l)
     <= f * f * c_in * (Bw * Bx).
Proof.
  intros Hf0 Hc0 HBw HBx Hb Hw Hx. unfold int_window_sum, window_sum.
  set (B0 := Bw * Bx) in *.
  assert (HB0 : 0 <= B0) by (subst B0; nia).
  destruct (Z_le_gt_dec f 0) as [Hf|Hf].
  { (* an empty window *)
    unfold int_sum, sum_range, range.
    replace (Z.to_nat f) with 0%nat by lia. cbn. split; [left; reflexivity|].
    replace f with 0 by lia. lia. }
  destruct (Z_le_gt_dec c_in 0) as [Hc|Hc].
  { assert (E : forall p q,
        holds_int (int_sum c_in (fun r => wi p q r l
                     * xpi t (i * stride + p) (j * stride + q) r))
          (sum_range c_in (fun r => sum_range 1 (fun _ =>
             smul (get4 wa p q r l)
                  (xp t (i * stride + p) (j * stride + q) r))))
        /\ Z.abs (int_sum c_in (fun r => wi p q r l
                     * xpi t (i * stride + p) (j * stride + q) r)) <= 0).
    { intros p q. unfold int_sum, sum_range, range.
      replace (Z.to_nat c_in) with 0%nat by lia. cbn. split; [left; reflexivity|lia]. }
    assert (E2 : forall p,
        holds_int (int_sum f (fun q => int_sum c_in (fun r => wi p q r l
                     * xpi t (i * stride + p) (j * stride + q) r)))
          (sum_range f (fun q => sum_range c_in (fun r => sum_range 1 (fun _ =>
             smul (get4 wa p q r l)
                  (xp t (i * stride + p) (j * stride + q) r)))))
        /\ Z.abs (int_sum f (fun q => int_sum c_in (fun r => wi p q r l
                     * xpi t (i * stride + p) (j * stride + q) r))) <= Z.max 0 f * 0).
    { intros p. apply sum_range_holds; [lia| |lia]. intros q _. apply E. }
    destruct (@sum_range_holds f
                (fun p => sum_range f (fun q => sum_range c_in (fun r =>
                   sum_range 1 (fun _ => smul (get4 wa p q r l)
                     (xp t (i * stride + p) (j * stride + q) r)))))
                (fun p => int_sum f (fun q => int_sum c_in (fun r =>
                   wi p q r l * xpi t (i * stride + p) (j * stride + q) r)))
                0) as [H1 H2]; [lia| |lia|].
    - intros p _. destruct (E2 p) as [E3 E4]. split; [exact E3|lia].
    - split; [exact H1|]. nia. }
  assert (Hfc : B0 <= c_in * B0 /\ c_in * B0 <= f * (c_in * B0)
                /\ f * (c_in * B0) <= f * (f * (c_in * B0))
                /\ f * (f * (c_in * B0)) = f * f * c_in * B0).
  { assert (0 <= c_in * B0) by nia. assert (0 <= f * (c_in * B0)) by nia.
    repeat split; nia. }
  destruct Hfc as (F1 & F2 & F3 & F4).
  destruct (@sum_range_holds f
              (fun p => sum_range f (fun q => sum_range c_in (fun r =>
                 sum_range 1 (fun _ => smul (get4 wa p q r l)
                   (xp t (i * stride + p) (j * stride + q) r)))))
              (fun p => int_sum f (fun q => int_sum c_in (fun r =>
                 wi p q r l * xpi t (i * stride + p) (j * stride + q) r)))
              (f * (c_in * B0))) as [H1 H2]; [nia| |lia|].
  - intros p Hp.
    apply sum_range_holds_nonneg; [lia|nia| |lia].
    intros q Hq.
    apply sum_range_holds_nonneg; [lia|lia| |lia].
    intros r Hr.
    destruct (Hw p q r Hp Hq Hr) as [W1 W2].
    destruct (Hx p q r Hp Hq Hr) as [X1 X2].
    pose proof (abs_mul_le _ _ W2 X2) as HP. fold B0 in HP.
    apply sum_range_one_holds; [lia| |exact HP].
    apply mul_holds; try assumption; lia.
  - split; [exact H1|]. lia.
Qed.


Lemma padded_at_holds (x : ndarray B64.float) (xi : Z -> Z -> Z -> Z -> Z)
    (m h w c_in p t j k r Bx : Z) :
  0 <= Bx -> 0 <= t < m -> 0 <= r < c_in ->
  (forall t j k r, 0 <= t < m -> 0 <= j < h -> 0 <= k < w -> 0 <= r < c_in ->
     holds_int (xi t j k r) (get4 x t j k r) /\ Z.abs (xi t j k r) <= Bx) ->
  holds_int (int_padded xi h w p t j k r) (padded_at x h w p t j k r)
  /\ Z.abs (int_padded xi h w p t j k r) <= Bx.
Proof.
  intros HB Ht Hr Hx. unfold int_padded, padded_at.
  destruct ((p <=? j) && (j <? h + p) && (p <=? k) && (k <? w + p)) eqn:E.
  - rewrite !andb_true_iff, !Z.leb_le, !Z.ltb_lt in E.
    apply Hx; lia.
  - split; [left; reflexivity|cbn; lia].
Qed.

Lemma le_mul3 (a b c B : Z) :
  1 <= a -> 1 <= b -> 1 <= c -> 0 <= B -> B <= a * b * c * B.
Proof.
  intros Ha Hb Hc HB. assert (1 <= a * b) by nia.
  assert (1 <= a * b * c) by nia. nia.
Qed.

(** A triple sum of integers, term by term. *)
Lemma sum3_holds (n1 n2 n3 : Z) (g : Z -> Z -> Z -> B64.float)
    (gi : Z -> Z -> Z -> Z) (B : Z) :
  0 <= n1 -> 0 <= n2 -> 0 <= n3 -> 0 <= B ->
  n1 * n2 * n3 * B < 2 ^ 53 ->
  (forall a b c, 0 <= a < n1 -> 0 <= b < n2 -> 0 <= c < n3 ->
     holds_int (gi a b c) (g a b c) /\ Z.abs (gi a b c) <= B) ->
  holds_int
    (int_sum n1 (fun a => int_sum n2 (fun b => int_sum n3 (fun c => gi a b c))))
    (sum_range n1 (fun a => sum_range n2 (fun b => sum_range n3 (fun c =>
       g a b c))))
  /\ Z.abs (int_sum n1 (fun a => int_sum n2 (fun b => int_sum n3 (fun c =>
              gi a b c))))
     <= n1 * n2 * n3 * B.
Proof.
  intros H1 H2 H3 HB Hb Hg.
  assert (0 <= n3 * B) by nia.
  assert (0 <= n2 * (n3 * B)) by nia.
  assert (E : n1 * n2 * n3 * B = n1 * (n2 * (n3 * B))) by ring.
  rewrite E in *.
  apply sum_range_holds_nonneg; [lia|lia| |lia].
  intros a Ha.
  assert (n2 * (n3 * B) <= n1 * (n2 * (n3 * B))) by nia.
  apply sum_range_holds_nonneg; [lia|lia| |lia].
  intros b Hb'.
  assert (n3 * B <= n2 * (n3 * B)) by nia.
  apply sum_range_holds_nonneg; [lia|lia| |lia].
  intros c Hc. apply Hg; assumption.
Qed.

Lemma ones_hold (n0 n1 n2 n3 i j k l : Z) :
  0 <= i < n0 -> 0 <= j < n1 -> 0 <= k < n2 -> 0 <= l < n3 ->
  holds_int 1 (get4 (ones n0 n1 n2 n3) i j k l) /\ Z.abs 1 <= 1.
Proof.
  intros Hi Hj Hk Hl. unfold ones, full. rewrite get4_build4 by assumption.
  split; [left; reflexivity|cbn; lia].
Qed.

End ExactIntegers.

Section OutputSize.

Context {T : Type} `{Scalar T}.

(** The last window stays inside the padded axis. *)
Lemma last_window n f p stride :
  0 < stride -> 0 <= n - f + 2 * p ->
  0 <= (n - f + 2 * p) / stride /\
  (n - f + 2 * p) / stride * stride + f <= n + 2 * p.
Proof.
  intros Hs Hn. split.
  - apply Z.div_pos; lia.
  - pose proof (Z.mul_div_le (n - f + 2 * p) stride Hs). lia.
Qed.

Lemma forward_view_in_bounds m hp wp c f stride qh qw :
  0 < m -> 0 < c -> 0 < f -> 0 < stride ->
  0 <= qh -> 0 <= qw ->
  qh * stride + f <= hp -> qw * stride + f <= wp ->
  (f - 1) * (wp * (c * 1)) + ((f - 1) * (c * 1) + ((c - 1) * 1
    + ((m - 1) * (hp * (wp * (c * 1)))
       + ((qh + 1 - 1) * (wp * (c * 1) * stride)
          + ((qw + 1 - 1) * (c * 1 * stride) + ((1 - 1) * 1 + 0))))))
  < m * hp * wp * c.
Proof.
  intros Hm Hc Hf Hs Hqh Hqw Hh Hw.
  assert (f - 1 + qh * stride <= hp - 1) as Ha by lia.
  assert (f - 1 + qw * stride <= wp - 1) as Hb by lia.
  assert (0 <= wp * c) by nia.
  assert ((f - 1 + qh * stride) * (wp * c) <= (hp - 1) * (wp * c)) as Ha'
    by (apply Z.mul_le_mono_nonneg_r; lia).
  assert ((f - 1 + qw * stride) * c <= (wp - 1) * c) as Hb'
    by (apply Z.mul_le_mono_nonneg_r; lia).
  nia.
Qed.

Lemma np_pad_returns (a : ndarray T) p n0 n1 n2 n3 :
  shape a = [n0; n1; n2; n3] -> 0 <= p ->
  exists a', np_pad a p = Returned a' /\
    shape a' = [n0; n1 + 2 * p; n2 + 2 * p; n3] /\
    (0 <= n0 -> 0 <= n1 -> 0 <= n2 -> 0 <= n3 ->
     Z.of_nat (length (data a')) = n0 * (n1 + 2 * p) * (n2 + 2 * p) * n3).
Proof.
  intros Hsh Hp. unfold np_pad, exactly4, obind. rewrite Hsh.
  replace (0 <=? p) with true by (symmetry; apply Z.leb_le; lia).
  eexists. split; [reflexivity|]. split; [reflexivity|].
  intros. apply length_build4; lia.
Qed.

Lemma forward_view (x_pad : ndarray T) m hp wp c f stride qh qw :
  shape x_pad = [m; hp; wp; c] ->
  Z.of_nat (length (data x_pad)) = m * hp * wp * c ->
  0 <= m -> 0 <= hp -> 0 <= wp -> 0 <= c -> 0 <= f -> 0 < stride ->
  0 <= qh -> 0 <= qw ->
  qh * stride + f <= hp -> qw * stride + f <= wp ->
  let st := py_from 1 (strides x_pad ++ strides x_pad) in
  exists M,
    as_strided x_pad [f; f; c; m; qh + 1; qw + 1; 1]
      (py_upto_back 3 st
       ++ [py_back 3 st * stride; py_back 2 st * stride; py_back 1 st])
    = Returned M /\
    vshape M = [f; f; c; m; qh + 1; qw + 1; 1].
Proof.
  intros Hsh Hlen Hm Hhp Hwp Hc Hf Hs Hqh Hqw Hh Hw st.
  subst st. unfold strides. rewrite Hsh.
  cbn [c_strides size_of fold_right app py_from skipn py_upto_back py_back
       length firstn nth Nat.sub].
  unfold as_strided, obind. cbn [length Nat.eqb forallb].
  repeat match goal with
         | |- context [0 <=? ?x] =>
             replace (0 <=? x) with true by (symmetry; apply Z.leb_le; lia)
         end.
  cbn [andb].
  destruct (existsb (fun n : Z => n =? 0) [f; f; c; m; qh + 1; qw + 1; 1])
    eqn:Ee; cbn [orb].
  { eexists. split; reflexivity. }
  cbn [existsb] in Ee.
  apply orb_false_elim in Ee as [Ef Ee].
  apply orb_false_elim in Ee as [_ Ee].
  apply orb_false_elim in Ee as [Ec Ee].
  apply orb_false_elim in Ee as [Em _].
  apply Z.eqb_neq in Ef, Ec, Em.
  assert (0 <= wp * (c * 1)) by nia.
  assert (0 <= hp * (wp * (c * 1))) by nia.
  assert (0 <= wp * (c * 1) * stride) by nia.
  assert (0 <= c * 1 * stride) by nia.
  unfold lowest, highest. cbn [map offset].
  rewrite !Z.min_l, !Z.max_r by lia.
  replace (0 <=? _) with true by (symmetry; apply Z.leb_le; lia).
  match goal with
  | |- context [?a <? ?b] =>
      replace (a <? b) with true
  end.
  { eexists. split; reflexivity. }
  symmetry. apply Z.ltb_lt. rewrite Hlen.
  apply forward_view_in_bounds; lia.
Qed.

Lemma broadcast2_bias op (z bias : ndarray T) n0 n1 n2 n3 :
  shape z = [n0; n1; n2; n3] -> shape bias = [1; 1; 1; n3] ->
  exists r, broadcast2 op z bias = Returned r /\ shape r = [n0; n1; n2; n3].
Proof.
  intros Hz Hb. unfold broadcast2, shape4, obind. rewrite Hz, Hb.
  rewrite !broadcast_dim_one, broadcast_dim_refl.
  eexists. split; reflexivity.
Qed.

Theorem forward_shape (s : ConvLayer T) (x : ndarray T)
    (m h w c_in c_out m0 h0 w0 : Z) :
  shape x = [m; h; w; c_in] ->
  0 <= m -> 0 <= h -> 0 <= w -> 0 <= c_in -> 0 <= c_out ->
  Z.of_nat (length (data x)) = m * h * w * c_in ->
  dim_in s = (m0, h0, w0, c_in) ->
  shape (W s) = [f s; f s; c_in; c_out] ->
  shape (b s) = [1; 1; 1; c_out] ->
  0 < stride s -> 0 <= pad s -> 0 <= f s ->
  0 <= h - f s + 2 * pad s < 2 ^ 53 -> 0 <= w - f s + 2 * pad s < 2 ^ 53 ->
  returns_with (forward x) s (fun s' r =>
    shape (Zcache s')
    = [m; (h - f s + 2 * pad s) / stride s + 1;
       (w - f s + 2 * pad s) / stride s + 1; c_out] /\
    forall a, r = Some a -> shape a = shape (Zcache s')).
Proof.
  intros Hx Hm Hh Hw Hc Hco Hlen Hdim HW Hb Hs Hp Hf Hvh Hvw.
  destruct (last_window h (f s) (pad s) Hs (proj1 Hvh)) as [Hqh Hlh].
  destruct (last_window w (f s) (pad s) Hs (proj1 Hvw)) as [Hqw Hlw].
  unfold forward.
  apply returns_with_mbind, returns_with_write.
  apply returns_with_mbind, returns_with_read.
  apply returns_with_mbind, returns_with_read.
  apply returns_with_mbind, returns_with_read.
  cbn [f pad stride set_X].
  apply returns_with_mbind.
  eapply returns_with_lift; [unfold axis; rewrite Hx; reflexivity|].
  apply returns_with_mbind.
  eapply returns_with_lift; [apply int_truediv_floor; assumption|].
  apply returns_with_mbind.
  eapply returns_with_lift; [unfold axis; rewrite Hx; reflexivity|].
  apply returns_with_mbind.
  eapply returns_with_lift; [apply int_truediv_floor; assumption|].
  set (qh := (h - f s + 2 * pad s) / stride s) in *.
  set (qw := (w - f s + 2 * pad s) / stride s) in *.
  assert (exists x_pad,
             (if negb (pad s =? 0) then np_pad x (pad s) else Returned x)
             = Returned x_pad /\
             shape x_pad = [m; h + 2 * pad s; w + 2 * pad s; c_in] /\
             Z.of_nat (length (data x_pad))
             = m * (h + 2 * pad s) * (w + 2 * pad s) * c_in)
    as (x_pad & Epad & Hxp & Hlp).
  { destruct (Z.eqb_spec (pad s) 0) as [E0|E0]; cbn [negb].
    - exists x. split; [reflexivity|]. rewrite E0, !Z.mul_0_r, !Z.add_0_r.
      split; assumption.
    - destruct (np_pad_returns x Hx Hp) as (x' & E1 & E2 & E3).
      exists x'. split; [exact E1|]. split; [exact E2|]. apply E3; assumption. }
  apply returns_with_mbind.
  eapply returns_with_lift; [exact Epad|].
  apply returns_with_mbind, returns_with_read. cbn [dim_in set_X].
  rewrite Hdim.
  apply returns_with_mbind.
  eapply returns_with_lift; [unfold axis; rewrite Hx; reflexivity|].
  destruct (@forward_view x_pad m (h + 2 * pad s) (w + 2 * pad s) c_in
              (f s) (stride s) qh qw Hxp Hlp) as (M & EM & HM); try lia.
  apply returns_with_mbind.
  eapply returns_with_lift; [exact EM|].
  apply returns_with_mbind, returns_with_read. cbn [W set_X].
  apply returns_with_mbind.
  eapply returns_with_lift.
  { unfold contract_pqrs_pqrtbmn, exactly4, obind. rewrite HW, HM.
    rewrite !Z.eqb_refl. reflexivity. }
  apply returns_with_mbind, returns_with_write.
  apply returns_with_mbind, returns_with_read.
  apply returns_with_mbind, returns_with_read.
  cbn [Zcache b set_Z set_X].
  match goal with
  | |- context [broadcast2 sadd ?z (b s)] =>
      destruct (@broadcast2_bias sadd z (b s) m (qh + 1) (qw + 1) c_out)
        as (z1 & Ez & Hz); [reflexivity|exact Hb|]
  end.
  apply returns_with_mbind.
  eapply returns_with_lift; [exact Ez|].
  apply returns_with_mbind, returns_with_write.
  apply returns_with_mbind, returns_with_read.
  cbn [activation set_Z set_X].
  destruct (activation s =? "relu")%string.
  - apply returns_with_mbind, returns_with_read.
    apply returns_with_mret. cbn [Zcache set_Z].
    split; [exact Hz|]. intros a Ea. injection Ea as <-. reflexivity.
  - destruct (activation s =? "none")%string.
    + apply returns_with_mbind, returns_with_read.
      apply returns_with_mret. cbn [Zcache set_Z].
      split; [exact Hz|]. intros a Ea. injection Ea as <-. reflexivity.
    + apply returns_with_mret. cbn [Zcache set_Z].
      split; [exact Hz|]. intros a Ea. discriminate Ea.
Qed.
Lemma obind_inv {A B} (o : outcome A) (k : A -> outcome B) r :
  obind o k = Returned r -> exists a, o = Returned a /\ k a = Returned r.
Proof.
  destruct o as [a|e]; cbn [obind]; intros E; [|discriminate E].
  exists a. split; [reflexivity|exact E].
Qed.

Lemma zeros_inv n0 n1 n2 n3 (a : ndarray T) :
  zeros n0 n1 n2 n3 = Returned a ->
  a = full n0 n1 n2 n3 szero /\
  0 <= n0 /\ 0 <= n1 /\ 0 <= n2 /\ 0 <= n3.
Proof.
  unfold zeros.
  destruct (0 <=? n0) eqn:E0; [|discriminate].
  destruct (0 <=? n1) eqn:E1; [|discriminate].
  destruct (0 <=? n2) eqn:E2; [|discriminate].
  destruct (0 <=? n3) eqn:E3; [|discriminate].
  cbn [andb]. intros E. injection E as <-.
  apply Z.leb_le in E0, E1, E2, E3. repeat split; assumption.
Qed.

Lemma zeros_like_inv (a z : ndarray T) :
  zeros_like a = Returned z ->
  exists n0 n1 n2 n3,
    shape a = [n0; n1; n2; n3] /\
    z = full n0 n1 n2 n3 szero.
Proof.
  unfold zeros_like, exactly4, obind.
  destruct (shape a) as [|n0 [|n1 [|n2 [|n3 [|]]]]]; try discriminate.
  intros E. apply zeros_inv in E as [-> _].
  exists n0, n1, n2, n3. split; reflexivity.
Qed.

Lemma init_inv m h w c_in k c st p act lam randn (layer : ConvLayer T) :
  init (m, h, w, c_in) k c st p act lam randn = Returned layer ->
  st <> 0 /\
  dim_in layer = (m, h, w, c_in) /\
  (exists q_h q_w,
     int_truediv (h - k + 2 * p) st = Returned q_h /\
     int_truediv (w - k + 2 * p) st = Returned q_w /\
     dim_out layer = (m, 1 + q_h, 1 + q_w, c)) /\
  f layer = k /\ stride layer = st /\ pad layer = p /\
  activation layer = act /\ lamb layer = lam /\
  shape (W layer) = [k; k; c_in; c] /\
  b layer = full 1 1 1 c szero /\
  dX layer = full m h w c_in szero /\
  dW layer = full k k c_in c szero /\
  db layer = full 1 1 1 c szero /\
  vW layer = full k k c_in c szero /\
  vb layer = full 1 1 1 c szero /\
  sW layer = full k k c_in c szero /\
  sb layer = full 1 1 1 c szero /\
  0 <= m /\ 0 <= h /\ 0 <= w /\ 0 <= c_in /\ 0 <= k /\ 0 <= c.
Proof.
  intros E. unfold init in E.
  apply obind_inv in E as (q_h & Eh & E).
  apply obind_inv in E as (q_w & Ew & E).
  apply obind_inv in E as (x0 & Ex & E).
  apply obind_inv in E as (z0 & Ez & E).
  apply obind_inv in E as (wt & Ewt & E).
  apply obind_inv in E as (bias & Eb & E).
  apply obind_inv in E as (gx & Egx & E).
  apply obind_inv in E as (gw & Egw & E).
  apply obind_inv in E as (gb & Egb & E).
  apply obind_inv in E as (mw & Emw & E).
  apply obind_inv in E as (mb & Emb & E).
  apply obind_inv in E as (qw & Eqw & E).
  apply obind_inv in E as (qb & Eqb & E).
  apply obind_inv in E as (zp & Ep & E).
  injection E as <-. cbn.
  assert (Es : st <> 0).
  { intros E0. rewrite E0 in Eh. unfold int_truediv in Eh.
    rewrite Z.eqb_refl in Eh. discriminate Eh. }
  apply zeros_inv in Ex as (-> & Hm & Hh & Hw & Hc).
  apply zeros_inv in Eb as (-> & _ & _ & _ & Hco).
  unfold init_weights in Ewt.
  destruct ((0 <=? k) && (0 <=? c_in) && (0 <=? c)) eqn:Ef; [|discriminate Ewt].
  destruct (same_shape (shape randn) [k; k; c_in; c]) eqn:Esh;
    [|discriminate Ewt].
  destruct (negb (h * w =? 0)); [|discriminate Ewt].
  injection Ewt as <-. apply same_shape_eq in Esh.
  apply andb_prop in Ef as [Ef _]. apply andb_prop in Ef as [Ef _].
  apply Z.leb_le in Ef.
  apply zeros_like_inv in Egx as (? & ? & ? & ? & Sx & ->).
  injection Sx as <- <- <- <-.
  apply zeros_like_inv in Egw as (? & ? & ? & ? & Sw & ->).
  cbn [map_array shape] in Sw. rewrite Esh in Sw. injection Sw as <- <- <- <-.
  apply zeros_like_inv in Emw as (? & ? & ? & ? & Sw & ->).
  cbn [map_array shape] in Sw. rewrite Esh in Sw. injection Sw as <- <- <- <-.
  apply zeros_like_inv in Eqw as (? & ? & ? & ? & Sw & ->).
  cbn [map_array shape] in Sw. rewrite Esh in Sw. injection Sw as <- <- <- <-.
  apply zeros_like_inv in Egb as (? & ? & ? & ? & Sb & ->).
  injection Sb as <- <- <- <-.
  apply zeros_like_inv in Emb as (? & ? & ? & ? & Sb & ->).
  injection Sb as <- <- <- <-.
  apply zeros_like_inv in Eqb as (? & ? & ? & ? & Sb & ->).
  injection Sb as <- <- <- <-.
  split; [exact Es|]. split; [reflexivity|].
  split; [exists q_h, q_w; repeat split; assumption|].
  repeat split; try assumption; try reflexivity.
Qed.

(** C5: for a valid geometry whose lengths [n - f + 2 * pad] are below
    2^53, the spatial lengths stored in [dim_out] by the constructor,
    and those of the array that [forward] computes from the shape of its
    input, are [(n - f + 2 * pad) / stride + 1] with the quotient
    rounded down. *)
Theorem output_size_closed_form (m h w c_in f c stride pad : Z)
    (act : string) (lamb : T) (randn : ndarray T) (layer : ConvLayer T)
    (x : ndarray T) (m' h' w' : Z) :
  init (m, h, w, c_in) f c stride pad act lamb randn = Returned layer ->
  0 < stride -> 0 <= pad ->
  0 <= h - f + 2 * pad < 2 ^ 53 -> 0 <= w - f + 2 * pad < 2 ^ 53 ->
  shape x = [m'; h'; w'; c_in] ->
  0 <= m' -> 0 <= h' -> 0 <= w' ->
  Z.of_nat (length (data x)) = m' * h' * w' * c_in ->
  0 <= h' - f + 2 * pad < 2 ^ 53 -> 0 <= w' - f + 2 * pad < 2 ^ 53 ->
  dim_out layer
  = (m, (h - f + 2 * pad) / stride + 1, (w - f + 2 * pad) / stride + 1, c) /\
  returns_with (forward x) layer (fun s' r =>
    shape (Zcache s')
    = [m'; (h' - f + 2 * pad) / stride + 1;
       (w' - f + 2 * pad) / stride + 1; c] /\
    forall a, r = Some a -> shape a = shape (Zcache s')).
Proof.
  intros Hi Hs Hp Hvh Hvw Hx Hm' Hh' Hw' Hlen Hvh' Hvw'.
  apply init_inv in Hi
    as (_ & Hdi & (q_h & q_w & Eh & Ew & Hdo) & Hf & Hst & Hpd & _ & _ & HW
        & Hb & _ & _ & _ & _ & _ & _ & _ & _ & _ & _ & Hc & Hf0 & Hco).
  rewrite int_truediv_floor in Eh, Ew by assumption.
  assert (Eqh : (h - f + 2 * pad) / stride = q_h) by congruence.
  assert (Eqw : (w - f + 2 * pad) / stride = q_w) by congruence.
  subst q_h q_w.
  split.
  - rewrite Hdo.
    rewrite (Z.add_comm 1 ((h - f + 2 * pad) / stride)).
    rewrite (Z.add_comm 1 ((w - f + 2 * pad) / stride)).
    reflexivity.
  - rewrite <- Hf, <- Hst, <- Hpd in *.
    eapply forward_shape; try eassumption.
    rewrite Hb. reflexivity.
Qed.

End OutputSize.

(** ** The Adam update with vanishing gradients *)

Section Adam.

Lemma first_moment_zero beta :
  nonneg_finite beta = true -> finite (B64.sub B64.one beta) = true ->
  B64.add (B64.mul beta B64.zero)
    (B64.mul (B64.sub B64.one beta) B64.zero) = B64.zero.
Proof.
  intros Hb Ho. destruct (B64.sub B64.one beta) as [s| | |s m e];
    try discriminate Ho;
    destruct beta as [[|]| | |[|] mb eb]; try discriminate Hb;
    destruct s; reflexivity.
Qed.

Lemma second_moment_zero beta :
  nonneg_finite beta = true -> finite (B64.sub B64.one beta) = true ->
  B64.add (B64.mul beta B64.zero)
    (B64.mul (B64.sub B64.one beta) (B64.mul B64.zero B64.zero))
  = B64.zero.
Proof. exact (first_moment_zero beta). Qed.

Lemma step_zero rate c1 c2 epsilon :
  nonneg_finite rate = true -> positive c1 = true -> positive c2 = true ->
  positive epsilon = true ->
  B64.div (B64.mul rate (B64.div B64.zero c1))
    (B64.add (B64.sqrt (B64.div B64.zero c2)) epsilon) = B64.zero.
Proof.
  intros Hr H1 H2 He.
  destruct c1 as [|[|]| |[|] m1 e1]; try discriminate H1;
    destruct c2 as [|[|]| |[|] m2 e2]; try discriminate H2;
    destruct epsilon as [|[|]| |[|] me ee]; try discriminate He;
    destruct rate as [[|]| | |[|] mr er]; try discriminate Hr;
    reflexivity.
Qed.

Lemma sub_zero_r x : B64.sub x B64.zero = x.
Proof. destruct x as [[|]|[|]| |[|] m e]; reflexivity. Qed.

(** The two updates of one parameter with its gradient and moments at
    zero. *)
Lemma moments_stay_zero rate beta1 beta2 epsilon n0 n1 n2 n3 :
  adam_scalars rate beta1 beta2 epsilon = true ->
  broadcast2 sadd (map_array (smul beta1) (full n0 n1 n2 n3 B64.zero))
    (map_array (smul (ssub sone beta1)) (full n0 n1 n2 n3 B64.zero))
  = Returned (full n0 n1 n2 n3 B64.zero) /\
  broadcast2 sadd (map_array (smul beta2) (full n0 n1 n2 n3 B64.zero))
    (map_array (smul (ssub sone beta2))
       (map_array (fun d => smul d d) (full n0 n1 n2 n3 B64.zero)))
  = Returned (full n0 n1 n2 n3 B64.zero).
Proof.
  unfold adam_scalars. intros Ha.
  apply andb_prop in Ha as [Ha _]. apply andb_prop in Ha as [Ha Ho2].
  apply andb_prop in Ha as [Ha Ho1]. apply andb_prop in Ha as [Ha Hb2].
  apply andb_prop in Ha as [_ Hb1].
  rewrite !map_array_full, !broadcast2_full. split; f_equal; f_equal.
  - apply first_moment_zero; assumption.
  - apply second_moment_zero; assumption.
Qed.

Lemma parameter_unchanged pow rate t beta1 beta2 epsilon
    (w : ndarray B64.float) n0 n1 n2 n3 :
  adam_scalars rate beta1 beta2 epsilon = true ->
  adam_step pow beta1 beta2 t = true ->
  shape w = [n0; n1; n2; n3] ->
  0 <= n0 -> 0 <= n1 -> 0 <= n2 -> 0 <= n3 ->
  Z.of_nat (length (data w)) = n0 * n1 * n2 * n3 ->
  exists step,
    broadcast2 sdiv
      (map_array (smul rate)
         (map_array (fun e => sdiv e (ssub sone (pow beta1 t)))
            (full n0 n1 n2 n3 B64.zero)))
      (map_array (fun e => sadd (ssqrt e) epsilon)
         (map_array (fun e => sdiv e (ssub sone (pow beta2 t)))
            (full n0 n1 n2 n3 B64.zero)))
    = Returned step /\
    inplace2 ssub w step = Returned w.
Proof.
  unfold adam_scalars, adam_step. intros Ha Hs Hsh H0 H1 H2 H3 Hlen.
  apply andb_prop in Ha as [Ha He]. do 4 apply andb_prop in Ha as [Ha _].
  apply andb_prop in Hs as [Hc1 Hc2].
  rewrite !map_array_full, broadcast2_full. eexists. split; [reflexivity|].
  replace (sdiv (smul rate (sdiv B64.zero (ssub sone (pow beta1 t))))
             (sadd (ssqrt (sdiv B64.zero (ssub sone (pow beta2 t)))) epsilon))
    with B64.zero by (symmetry; apply step_zero; assumption).
  apply inplace2_unchanged; try assumption. exact sub_zero_r.
Qed.

Lemma update_once pow rate t beta1 beta2 epsilon
    (s : ConvLayer B64.float) n0 n1 n2 n3 k0 k1 k2 k3 :
  adam_scalars rate beta1 beta2 epsilon = true ->
  adam_step pow beta1 beta2 t = true ->
  shape (W s) = [n0; n1; n2; n3] ->
  0 <= n0 -> 0 <= n1 -> 0 <= n2 -> 0 <= n3 ->
  Z.of_nat (length (data (W s))) = n0 * n1 * n2 * n3 ->
  shape (b s) = [k0; k1; k2; k3] ->
  0 <= k0 -> 0 <= k1 -> 0 <= k2 -> 0 <= k3 ->
  Z.of_nat (length (data (b s))) = k0 * k1 * k2 * k3 ->
  dW s = full n0 n1 n2 n3 B64.zero -> db s = full k0 k1 k2 k3 B64.zero ->
  vW s = full n0 n1 n2 n3 B64.zero -> vb s = full k0 k1 k2 k3 B64.zero ->
  sW s = full n0 n1 n2 n3 B64.zero -> sb s = full k0 k1 k2 k3 B64.zero ->
  update_parameters pow rate t beta1 beta2 epsilon s = (s, Returned tt).
Proof.
  intros Ha Hs HW H0 H1 H2 H3 HlW Hb K0 K1 K2 K3 Hlb HdW Hdb HvW Hvb HsW Hsb.
  destruct (@moments_stay_zero rate beta1 beta2 epsilon n0 n1 n2 n3 Ha)
    as [MW1 MW2].
  destruct (@moments_stay_zero rate beta1 beta2 epsilon k0 k1 k2 k3 Ha)
    as [Mb1 Mb2].
  destruct (@parameter_unchanged pow rate t beta1 beta2 epsilon (W s)
              n0 n1 n2 n3 Ha Hs HW H0 H1 H2 H3 HlW)
    as (stepW & EW1 & EW2).
  destruct (@parameter_unchanged pow rate t beta1 beta2 epsilon (b s)
              k0 k1 k2 k3 Ha Hs Hb K0 K1 K2 K3 Hlb)
    as (stepb & Eb1 & Eb2).
  assert (returns_with (update_parameters pow rate t beta1 beta2 epsilon) s
            (fun s' _ => s' = s)) as (s' & [] & E & ->); [|exact E].
  unfold update_parameters.
  apply returns_with_mbind, returns_with_read.
  apply returns_with_mbind, returns_with_read.
  apply returns_with_mbind.
  eapply returns_with_lift; [rewrite HvW, HdW; exact MW1|].
  apply returns_with_mbind, returns_with_write.
  apply returns_with_mbind, returns_with_read.
  apply returns_with_mbind, returns_with_read.
  cbn [vb db set_vW].
  apply returns_with_mbind.
  eapply returns_with_lift; [rewrite Hvb, Hdb; exact Mb1|].
  apply returns_with_mbind, returns_with_write.
  apply returns_with_mbind, returns_with_read.
  apply returns_with_mbind, returns_with_read.
  cbn [sW dW set_vW set_vb].
  apply returns_with_mbind.
  eapply returns_with_lift; [rewrite HsW, HdW; exact MW2|].
  apply returns_with_mbind, returns_with_write.
  apply returns_with_mbind, returns_with_read.
  apply returns_with_mbind, returns_with_read.
  cbn [sb db set_vW set_vb set_sW].
  apply returns_with_mbind.
  eapply returns_with_lift; [rewrite Hsb, Hdb; exact Mb2|].
  apply returns_with_mbind, returns_with_write.
  apply returns_with_mbind, returns_with_read.
  apply returns_with_mbind, returns_with_read.
  apply returns_with_mbind, returns_with_read.
  apply returns_with_mbind, returns_with_read.
  apply returns_with_mbind, returns_with_read.
  cbn [vW vb sW sb W set_vW set_vb set_sW set_sb].
  apply returns_with_mbind.
  eapply returns_with_lift; [exact EW1|].
  apply returns_with_mbind.
  eapply returns_with_lift; [exact EW2|].
  apply returns_with_mbind, returns_with_write.
  apply returns_with_mbind, returns_with_read.
  cbn [b set_vW set_vb set_sW set_sb set_W].
  apply returns_with_mbind.
  eapply returns_with_lift; [exact Eb1|].
  apply returns_with_mbind.
  eapply returns_with_lift; [exact Eb2|].
  apply returns_with_write.
  destruct s. cbn in *. subst. reflexivity.
Qed.


(** C7: on a layer whose four moment buffers are zero and whose [dW]
    and [db] are zero, a call of [update_parameters], and every
    sequence of such calls, returns and leaves the layer as it was:
    the moments stay zero and [W] and [b] keep every element. *)
Theorem update_with_zero_gradient pow rate beta1 beta2 epsilon (ts : list Z)
    (s : ConvLayer B64.float) n0 n1 n2 n3 k0 k1 k2 k3 :
  adam_scalars rate beta1 beta2 epsilon = true ->
  forallb (adam_step pow beta1 beta2) ts = true ->
  shape (W s) = [n0; n1; n2; n3] ->
  0 <= n0 -> 0 <= n1 -> 0 <= n2 -> 0 <= n3 ->
  Z.of_nat (length (data (W s))) = n0 * n1 * n2 * n3 ->
  shape (b s) = [k0; k1; k2; k3] ->
  0 <= k0 -> 0 <= k1 -> 0 <= k2 -> 0 <= k3 ->
  Z.of_nat (length (data (b s))) = k0 * k1 * k2 * k3 ->
  dW s = full n0 n1 n2 n3 B64.zero -> db s = full k0 k1 k2 k3 B64.zero ->
  vW s = full n0 n1 n2 n3 B64.zero -> vb s = full k0 k1 k2 k3 B64.zero ->
  sW s = full n0 n1 n2 n3 B64.zero -> sb s = full k0 k1 k2 k3 B64.zero ->
  update_repeatedly pow rate beta1 beta2 epsilon ts s = (s, Returned tt).
Proof.
  intros Ha Hts HW H0 H1 H2 H3 HlW Hb K0 K1 K2 K3 Hlb
         HdW Hdb HvW Hvb HsW Hsb.
  induction ts as [|t ts IH]; cbn [update_repeatedly]; [reflexivity|].
  cbn [forallb] in Hts. apply andb_prop in Hts as [Ht Hts].
  rewrite mbind_returned with (s' := s) (a := tt).
  - apply IH. exact Hts.
  - apply update_once with (n0 := n0) (n1 := n1) (n2 := n2) (n3 := n3)
                            (k0 := k0) (k1 := k1) (k2 := k2) (k3 := k3);
      assumption.
Qed.

End Adam.

(** ** Broadcasting and strided views *)

Section Broadcasting.

Context {T : Type} `{Scalar T}.

Lemma sum_range_ext n (g g' : Z -> T) :
  (forall i, 0 <= i < n -> g i = g' i) -> sum_range n g = sum_range n g'.
Proof.
  intros Hg. unfold sum_range. f_equal. apply map_ext_in.
  intros i Hi. apply Hg. apply in_range. exact Hi.
Qed.

Lemma Forall_build4 (P : T -> Prop) n0 n1 n2 n3 (g : Z -> Z -> Z -> Z -> T) :
  (forall i j k l,
      0 <= i < n0 -> 0 <= j < n1 -> 0 <= k < n2 -> 0 <= l < n3 ->
      P (g i j k l)) ->
  Forall P (data (build4 n0 n1 n2 n3 g)).
Proof.
  intros Hg. unfold build4. cbn [data]. apply Forall_forall. intros e He.
  apply in_flat_map in He as (i & Hi & He). apply in_range in Hi.
  apply in_flat_map in He as (j & Hj & He). apply in_range in Hj.
  apply in_flat_map in He as (k & Hk & He). apply in_range in Hk.
  apply in_map_iff in He as (l & <- & Hl). apply in_range in Hl.
  apply Hg; assumption.
Qed.

Lemma map_array_build4 (g : T -> T) n0 n1 n2 n3 h :
  map_array g (build4 n0 n1 n2 n3 h)
  = build4 n0 n1 n2 n3 (fun i j k l => g (h i j k l)).
Proof.
  unfold map_array, build4. cbn [shape data]. f_equal.
  rewrite map_flat_map. apply flat_map_ext. intros i.
  rewrite map_flat_map. apply flat_map_ext. intros j.
  rewrite map_flat_map. apply flat_map_ext. intros k.
  rewrite map_map. reflexivity.
Qed.

Lemma at_least_4d_map_array (g : T -> T) (a : ndarray T) :
  at_least_4d (map_array g a) = map_array g (at_least_4d a).
Proof.
  destruct a as [sh d]. unfold at_least_4d, map_array. cbn [shape data].
  destruct sh as [|? [|? [|? [|? ?]]]]; reflexivity.
Qed.

Lemma shape4_map_array (g : T -> T) (a : ndarray T) :
  shape4 (map_array g a) = shape4 a.
Proof. reflexivity. Qed.

Lemma stretches_refl n : stretches n n = true.
Proof. unfold stretches. rewrite Z.eqb_refl. reflexivity. Qed.

Lemma broadcast_dim_stretches a b n :
  broadcast_dim a b = Returned n ->
  stretches a n = true /\ stretches b n = true.
Proof.
  unfold broadcast_dim, stretches.
  destruct (Z.eqb_spec a b) as [->|Hab].
  - intros E. injection E as <-. rewrite Z.eqb_refl. split; reflexivity.
  - destruct (Z.eqb_spec a 1) as [->|Ha].
    + intros E. injection E as <-. rewrite Z.eqb_refl, orb_true_r.
      split; reflexivity.
    + destruct (Z.eqb_spec b 1) as [->|Hb]; [|discriminate].
      intros E. injection E as <-. rewrite Z.eqb_refl, orb_true_r.
      split; reflexivity.
Qed.

Lemma bidx_self n i : 0 <= i < n -> bidx n i = i.
Proof. unfold bidx. destruct (Z.eqb_spec n 1); lia. Qed.

Lemma bidx_stretches m n i :
  stretches m n = true -> 0 <= i < n -> 0 <= bidx m i < m.
Proof.
  unfold stretches, bidx. intros Hs Hi.
  destruct (Z.eqb_spec m 1) as [->|Hm]; [lia|].
  rewrite orb_false_r in Hs. apply Z.eqb_eq in Hs. lia.
Qed.

(** An element of [build4] read through broadcasting. *)
Lemma bget4_build4 m0 m1 m2 m3 (g : Z -> Z -> Z -> Z -> T) n0 n1 n2 n3 i j k l :
  stretches m0 n0 = true -> stretches m1 n1 = true ->
  stretches m2 n2 = true -> stretches m3 n3 = true ->
  0 <= i < n0 -> 0 <= j < n1 -> 0 <= k < n2 -> 0 <= l < n3 ->
  bget4 (build4 m0 m1 m2 m3 g) i j k l
  = g (bidx m0 i) (bidx m1 j) (bidx m2 k) (bidx m3 l).
Proof.
  intros S0 S1 S2 S3 Hi Hj Hk Hl. unfold bget4. cbn [shape build4].
  apply (get4_build4 g); eapply bidx_stretches; eassumption.
Qed.

(** What [broadcast2] returns, seen with four axes. *)
Lemma broadcast2_inv (op : T -> T -> T) (a b r : ndarray T) :
  broadcast2 op a b = Returned r ->
  exists a0 a1 a2 a3 b0 b1 b2 b3 n0 n1 n2 n3,
    shape4 a = Returned (a0, a1, a2, a3) /\
    shape4 b = Returned (b0, b1, b2, b3) /\
    broadcast_dim a0 b0 = Returned n0 /\ broadcast_dim a1 b1 = Returned n1 /\
    broadcast_dim a2 b2 = Returned n2 /\ broadcast_dim a3 b3 = Returned n3 /\
    shape4 r = Returned (n0, n1, n2, n3) /\
    at_least_4d r
    = build4 n0 n1 n2 n3
        (fun i j k l =>
           op (bget4 (at_least_4d a) i j k l) (bget4 (at_least_4d b) i j k l)).
Proof.
  intros E. unfold broadcast2 in E.
  apply obind_inv in E as ([[[a0 a1] a2] a3] & Ea & E).
  apply obind_inv in E as ([[[b0 b1] b2] b3] & Eb & E).
  apply obind_inv in E as (n0 & E0 & E).
  apply obind_inv in E as (n1 & E1 & E).
  apply obind_inv in E as (n2 & E2 & E).
  apply obind_inv in E as (n3 & E3 & E).
  injection E as <-.
  exists a0, a1, a2, a3, b0, b1, b2, b3, n0, n1, n2, n3.
  do 6 (split; [assumption|]).
  unfold shape4 in Ea, Eb.
  destruct (shape a) as [|x0 [|x1 [|x2 [|x3 [|]]]]]; try discriminate Ea;
    injection Ea as <- <- <- <-;
    destruct (shape b) as [|y0 [|y1 [|y2 [|y3 [|]]]]]; try discriminate Eb;
    injection Eb as <- <- <- <-;
    cbn in E0, E1, E2, E3;
    repeat match goal with
           | E : Returned _ = Returned _ |- _ => injection E as <-
           end;
    split; reflexivity.
Qed.

Lemma broadcast2_4d (op : T -> T -> T) (a b r : ndarray T)
    a0 a1 a2 a3 b0 b1 b2 b3 :
  shape a = [a0; a1; a2; a3] -> shape b = [b0; b1; b2; b3] ->
  broadcast2 op a b = Returned r ->
  exists n0 n1 n2 n3,
    broadcast_dim a0 b0 = Returned n0 /\ broadcast_dim a1 b1 = Returned n1 /\
    broadcast_dim a2 b2 = Returned n2 /\ broadcast_dim a3 b3 = Returned n3 /\
    r = build4 n0 n1 n2 n3
          (fun i j k l => op (bget4 a i j k l) (bget4 b i j k l)).
Proof.
  intros Ha Hb E. unfold broadcast2, shape4, at_least_4d in E.
  rewrite Ha, Hb in E. cbn [obind] in E.
  apply obind_inv in E as (n0 & E0 & E).
  apply obind_inv in E as (n1 & E1 & E).
  apply obind_inv in E as (n2 & E2 & E).
  apply obind_inv in E as (n3 & E3 & E).
  injection E as <-. exists n0, n1, n2, n3. repeat split; assumption.
Qed.

Lemma broadcast2_same_shape (op : T -> T -> T) (a b : ndarray T) n0 n1 n2 n3 :
  shape a = [n0; n1; n2; n3] -> shape b = [n0; n1; n2; n3] ->
  broadcast2 op a b
  = Returned (build4 n0 n1 n2 n3
                (fun i j k l => op (bget4 a i j k l) (bget4 b i j k l))).
Proof.
  intros Ha Hb. unfold broadcast2, shape4, at_least_4d. rewrite Ha, Hb.
  cbn [obind]. rewrite !broadcast_dim_refl. cbn [obind]. reflexivity.
Qed.

Lemma inplace2_inv (op : T -> T -> T) (a b r : ndarray T) :
  inplace2 op a b = Returned r ->
  exists a0 a1 a2 a3 b0 b1 b2 b3,
    shape a = [a0; a1; a2; a3] /\
    shape4 b = Returned (b0, b1, b2, b3) /\
    stretches b0 a0 = true /\ stretches b1 a1 = true /\
    stretches b2 a2 = true /\ stretches b3 a3 = true /\
    r = build4 a0 a1 a2 a3
          (fun i j k l => op (get4 a i j k l) (bget4 (at_least_4d b) i j k l)).
Proof.
  intros E. unfold inplace2 in E.
  apply obind_inv in E as ([[[b0 b1] b2] b3] & Eb & E).
  destruct (shape a) as [|a0 [|a1 [|a2 [|a3 [|]]]]]; try discriminate E.
  destruct (stretches b0 a0 && stretches b1 a1 && stretches b2 a2
            && stretches b3 a3) eqn:Es; [|discriminate E].
  injection E as <-. rewrite !andb_true_iff in Es.
  exists a0, a1, a2, a3, b0, b1, b2, b3. tauto.
Qed.

Lemma inplace2_same_shape (op : T -> T -> T) (a b : ndarray T) n0 n1 n2 n3 :
  shape a = [n0; n1; n2; n3] -> shape b = [n0; n1; n2; n3] ->
  inplace2 op a b
  = Returned (build4 n0 n1 n2 n3
                (fun i j k l => op (get4 a i j k l) (bget4 b i j k l))).
Proof.
  intros Ha Hb. unfold inplace2, shape4, at_least_4d. rewrite Ha, Hb.
  cbn [obind]. rewrite !stretches_refl. reflexivity.
Qed.

Lemma fill_zero_returns (a : ndarray T) n0 n1 n2 n3 :
  shape a = [n0; n1; n2; n3] ->
  fill_zero a = Returned (full n0 n1 n2 n3 szero).
Proof. intros Ha. unfold fill_zero, four_axes. rewrite Ha. reflexivity. Qed.

Lemma zeros_returns n0 n1 n2 n3 :
  0 <= n0 -> 0 <= n1 -> 0 <= n2 -> 0 <= n3 ->
  zeros n0 n1 n2 n3 = Returned (full n0 n1 n2 n3 (szero : T)).
Proof.
  intros H0 H1 H2 H3. unfold zeros.
  replace ((0 <=? n0) && (0 <=? n1) && (0 <=? n2) && (0 <=? n3)) with true
    by (symmetry; rewrite !andb_true_iff, !Z.leb_le; lia).
  reflexivity.
Qed.

Lemma exactly4_inv e (a : ndarray T) n0 n1 n2 n3 :
  exactly4 e a = Returned (n0, n1, n2, n3) -> shape a = [n0; n1; n2; n3].
Proof.
  unfold exactly4.
  destruct (shape a) as [|? [|? [|? [|? [|]]]]]; try discriminate.
  intros E. injection E as <- <- <- <-. reflexivity.
Qed.

Lemma length_c_strides sh : length (c_strides sh) = length sh.
Proof. induction sh as [|n sh IH]; cbn [c_strides length]; congruence. Qed.

Lemma as_strided_inv (a : ndarray T) sh st (M : view T) :
  as_strided a sh st = Returned M -> M = View sh st (data a).
Proof.
  unfold as_strided. intros E.
  destruct (length sh =? length st)%nat; [|discriminate E].
  destruct (forallb _ sh); [|discriminate E].
  destruct (_ || _); [|discriminate E].
  injection E as <-. reflexivity.
Qed.

(** A view with strides that are not negative stays inside the buffer
    when its last element does. *)
Lemma as_strided_returns (a : ndarray T) sh st :
  length sh = length st -> Forall (fun n => 0 <= n) sh ->
  Forall (fun n => 0 <= n) st ->
  (Forall (fun n => 0 < n) sh ->
   offset (map (fun n => n - 1) sh) st < Z.of_nat (length (data a))) ->
  as_strided a sh st = Returned (View sh st (data a)).
Proof.
  intros Hlen Hsh Hst Hb. unfold as_strided.
  rewrite Hlen, Nat.eqb_refl.
  replace (forallb (fun n => 0 <=? n) sh) with true
    by (symmetry; apply forallb_forall; intros n Hn; apply Z.leb_le;
        revert n Hn; apply Forall_forall; exact Hsh).
  destruct (existsb (fun n => n =? 0) sh) eqn:Ee; [reflexivity|].
  assert (Forall (fun n => 0 < n) sh) as Hpos.
  { apply Forall_forall. intros n Hn.
    assert (0 <= n) by (revert n Hn; apply Forall_forall; exact Hsh).
    destruct (Z.eqb_spec n 0) as [->|]; [|lia].
    assert (existsb (fun n => n =? 0) sh = true) as Ht
      by (apply existsb_exists; exists 0; split; [exact Hn|reflexivity]).
    congruence. }
  assert (map (Z.min 0) st = map (fun _ => 0) st) as Emin.
  { apply map_ext_in. intros n Hn.
    assert (0 <= n) by (revert n Hn; apply Forall_forall; exact Hst). lia. }
  assert (map (Z.max 0) st = st) as Emax.
  { rewrite <- (map_id st) at 2. apply map_ext_in. intros n Hn.
    assert (0 <= n) by (revert n Hn; apply Forall_forall; exact Hst). lia. }
  unfold lowest, highest. rewrite Emin, Emax.
  assert (forall idx l, offset idx (map (fun _ : Z => 0) l) = 0) as Hz.
  { induction idx as [|i idx IH]; intros [|n l]; cbn [offset map];
      try reflexivity. rewrite IH. lia. }
  rewrite Hz. cbn [Z.leb Z.compare orb andb].
  replace (_ <? _) with true by (symmetry; apply Z.ltb_lt; apply Hb, Hpos).
  reflexivity.
Qed.

End Broadcasting.

(** ** The constructor *)

Section Constructor.

Context {T : Type} `{Scalar T}.

Lemma same_shape_refl sh : same_shape sh sh = true.
Proof.
  induction sh as [|n sh IH]; [reflexivity|].
  cbn [same_shape]. rewrite Z.eqb_refl, IH. reflexivity.
Qed.

(** X7: with [n - f + 2 * pad] below 2^53 in absolute value on both
    axes, the constructor returns a layer exactly when the stride is not
    zero, no length of [dim_in] is negative, its two spatial lengths are
    positive (the scale of the weights divides by their product), [f]
    and [c] are not negative, and neither of the two output lengths
    [1 + int((n - f + 2 * pad) / stride)], the quotient truncated toward
    zero, is negative.  Neither the sign of [pad] nor that of the stride
    matters otherwise. *)
Theorem init_returns_iff (m h w c_in k c st p : Z) (act : string)
    (lam : T) (randn : ndarray T) :
  shape randn = [k; k; c_in; c] ->
  Z.abs (h - k + 2 * p) < 2 ^ 53 -> Z.abs (w - k + 2 * p) < 2 ^ 53 ->
  ((exists layer,
      init (m, h, w, c_in) k c st p act lam randn = Returned layer)
   <->
   (st <> 0 /\ 0 <= m /\ 0 < h /\ 0 < w /\ 0 <= c_in /\ 0 <= k /\ 0 <= c /\
    0 <= 1 + Z.quot (h - k + 2 * p) st /\
    0 <= 1 + Z.quot (w - k + 2 * p) st)).
Proof.
  intros Hr Hbh Hbw. split.
  - intros [layer E]. unfold init in E.
    apply obind_inv in E as (q_h & Eh & E).
    apply obind_inv in E as (q_w & Ew & E).
    apply obind_inv in E as (x0 & Ex & E).
    apply obind_inv in E as (z0 & Ez & E).
    apply obind_inv in E as (wt & Ewt & _).
    assert (Hs : st <> 0).
    { intros E0. rewrite E0 in Eh. unfold int_truediv in Eh.
      rewrite Z.eqb_refl in Eh. discriminate Eh. }
    rewrite int_truediv_quot in Eh, Ew by assumption.
    injection Eh as <-. injection Ew as <-.
    apply zeros_inv in Ex as (_ & Hm & Hh & Hw & Hc).
    apply zeros_inv in Ez as (_ & _ & Hqh & Hqw & Hco).
    unfold init_weights in Ewt.
    destruct ((0 <=? k) && (0 <=? c_in) && (0 <=? c)) eqn:Ef;
      [|discriminate Ewt].
    destruct (same_shape (shape randn) [k; k; c_in; c]); [|discriminate Ewt].
    destruct (Z.eqb_spec (h * w) 0) as [|Hhw]; [discriminate Ewt|].
    rewrite !andb_true_iff, !Z.leb_le in Ef.
    assert (h <> 0) by (intros ->; apply Hhw; reflexivity).
    assert (w <> 0) by (intros ->; apply Hhw, Z.mul_0_r).
    repeat split; first [lia | exact Hqh | exact Hqw].
  - intros (Hs & Hm & Hh & Hw & Hc & Hf & Hco & Hqh & Hqw).
    unfold init. rewrite !int_truediv_quot by assumption.
    cbn [obind]. rewrite !zeros_returns by lia. cbn [obind].
    unfold init_weights. rewrite Hr, same_shape_refl.
    replace ((0 <=? k) && (0 <=? c_in) && (0 <=? c)) with true
      by (symmetry; rewrite !andb_true_iff, !Z.leb_le; lia).
    replace (h * w =? 0) with false by (symmetry; apply Z.eqb_neq; nia).
    cbn [negb obind].
    unfold zeros_like, exactly4, allocate_dZ_pad, mbind, read, lift, axis,
      last_axis.
    repeat first
      [ rewrite zeros_returns by lia
      | rewrite Hr
      | progress cbn [X W Zcache shape map_array full build4 nth_error rev
                      app snd fst obind] ].
    eexists. reflexivity.
Qed.

Lemma init_dZ_pad m h w c_in k c st p act lam randn (layer : ConvLayer T) :
  init (m, h, w, c_in) k c st p act lam randn = Returned layer ->
  dZ_pad layer = full m (h + (k - 1)) (w + (k - 1)) c szero.
Proof.
  intros E. pose proof E as Hi. apply init_inv in Hi.
  destruct Hi as (_ & _ & _ & _ & _ & _ & _ & _ & HW & _).
  unfold init in E.
  apply obind_inv in E as (q_h & Eh & E).
  apply obind_inv in E as (q_w & Ew & E).
  apply obind_inv in E as (x0 & Ex & E).
  apply obind_inv in E as (z0 & Ez & E).
  apply obind_inv in E as (wt & Ewt & E).
  apply obind_inv in E as (bias & Eb & E).
  apply obind_inv in E as (gx & Egx & E).
  apply obind_inv in E as (gw & Egw & E).
  apply obind_inv in E as (gb & Egb & E).
  apply obind_inv in E as (mw & Emw & E).
  apply obind_inv in E as (mb & Emb & E).
  apply obind_inv in E as (qw & Eqw & E).
  apply obind_inv in E as (qb & Eqb & E).
  apply obind_inv in E as (zp & Ep & E).
  injection E as <-. cbn [dZ_pad set_dZ_pad W] in *.
  apply zeros_inv in Ex as (-> & _). apply zeros_inv in Ez as (-> & _).
  unfold allocate_dZ_pad, mbind, read, lift, axis, last_axis in Ep.
  cbn [X W Zcache shape full build4 nth_error rev app snd fst] in Ep.
  rewrite HW in Ep. cbn [nth_error snd] in Ep.
  apply zeros_inv in Ep as (-> & _). reflexivity.
Qed.

End Constructor.

(** ** What [forward] computes *)

Section ForwardValues.

Context {T : Type} `{Scalar T}.

(** The layer that [forward] leaves when it returns. *)
Lemma forward_state (s s' : ConvLayer T) (x : ndarray T) r :
  forward x s = (s', Returned r) ->
  s' = set_Z (Zcache s') (set_X x s).
Proof.
  intros E. unfold forward in E.
  steps E. destruct (dim_in (set_X x s)) as [[[m0 h0] w0] c_in].
  steps E. cbn [activation set_X set_Z] in E.
  destruct (activation s =? "relu")%string;
    [|destruct (activation s =? "none")%string].
  - step E. apply mret_inv in E as [-> _]. reflexivity.
  - step E. apply mret_inv in E as [-> _]. reflexivity.
  - apply mret_inv in E as [-> _]. reflexivity.
Qed.

(** X2: when [forward] returns, the layer holds the input in [X], and
    the value returned is read off the [Z] it holds: [_relu(Z)] for
    ['relu'], [Z] itself for ['none'], and [None] for any other
    activation, for which the call returns all the same. *)
Theorem forward_result (s s' : ConvLayer T) (x : ndarray T)
    (r : option (ndarray T)) :
  forward x s = (s', Returned r) ->
  X s' = x /\
  r = if (activation s =? "relu")%string then Some (relu (Zcache s'))
      else if (activation s =? "none")%string then Some (Zcache s')
      else None.
Proof.
  intros E. unfold forward in E.
  steps E. destruct (dim_in (set_X x s)) as [[[m0 h0] w0] c_in].
  steps E. cbn [activation set_X set_Z] in E.
  destruct (activation s =? "relu")%string.
  - step E. apply mret_inv in E as [-> ->]. split; reflexivity.
  - destruct (activation s =? "none")%string.
    + step E. apply mret_inv in E as [-> ->]. split; reflexivity.
    + apply mret_inv in E as [-> ->]. split; reflexivity.
Qed.

(** X4: [forward] never returns on an input that has not four axes:
    with fewer than three the reads of [X.shape[1]] and [X.shape[2]]
    fail, otherwise [np.pad] rejects the four pairs of widths, or, when
    [pad = 0], [as_strided] the strides, which are not seven. *)
Theorem forward_needs_four_axes (s : ConvLayer T) (x : ndarray T) :
  length (shape x) <> 4%nat ->
  returns (snd (forward x s)) = false.
Proof.
  intros Hrank.
  destruct (forward x s) as [s' [r|e]] eqn:E; [|reflexivity]. exfalso.
  unfold forward in E.
  step E. step E. step E. step E.
  step E as x1 Ex1. step E as q_h Eqh. step E as x2 Ex2. step E as q_w Eqw.
  step E as x_pad Epad. step E.
  destruct (dim_in (set_X x s)) as [[[m0 h0] w0] c_in].
  step E as x0 Ex0. step E as M EM.
  clear E. cbn [pad f stride set_X] in *.
  destruct (negb (pad s =? 0)).
  - unfold np_pad, exactly4 in Epad.
    destruct (shape x) as [|? [|? [|? [|? [|]]]]]; cbn [length] in Hrank;
      try discriminate Epad.
    apply Hrank. reflexivity.
  - injection Epad as <-. unfold as_strided in EM.
    destruct (length _ =? length _)%nat eqn:El; [|discriminate EM].
    apply Nat.eqb_eq in El. unfold py_upto_back, py_from, strides in El.
    rewrite length_app, length_firstn, length_skipn, length_app,
      !length_c_strides in El.
    cbn [length] in El. lia.
Qed.

(** The padded input that [forward] and [backward] read. *)
Lemma np_pad_get4 (x x_pad : ndarray T) m h w c p i j k l :
  shape x = [m; h; w; c] -> np_pad x p = Returned x_pad ->
  0 <= i < m -> 0 <= j < h + 2 * p -> 0 <= k < w + 2 * p -> 0 <= l < c ->
  get4 x_pad i j k l = padded_at x h w p i j k l.
Proof.
  intros Hx E Hi Hj Hk Hl. unfold np_pad, exactly4 in E. rewrite Hx in E.
  cbn [obind] in E. destruct (0 <=? p); [|discriminate E].
  injection E as <-. rewrite get4_build4 by assumption. reflexivity.
Qed.

Lemma forward_pad_get4 (x x_pad : ndarray T) m h w c p i j k l :
  shape x = [m; h; w; c] ->
  (if negb (p =? 0) then np_pad x p else Returned x) = Returned x_pad ->
  0 <= i < m -> 0 <= j < h + 2 * p -> 0 <= k < w + 2 * p -> 0 <= l < c ->
  get4 x_pad i j k l = padded_at x h w p i j k l.
Proof.
  intros Hx E Hi Hj Hk Hl. destruct (Z.eqb_spec p 0) as [->|Hp]; cbn [negb] in E.
  - injection E as <-. unfold padded_at.
    replace ((0 <=? j) && (j <? h + 0) && (0 <=? k) && (k <? w + 0)) with true
      by (symmetry; rewrite !andb_true_iff, !Z.leb_le, !Z.ltb_lt; lia).
    rewrite !Z.sub_0_r. reflexivity.
  - eapply np_pad_get4; eassumption.
Qed.

(** The element of the view of [forward] at [(p, q, r, t, i, j, 0)] is
    the element of the padded input at
    [(t, i * stride + p, j * stride + q, r)]. *)
Lemma forward_view_get4 (x_pad : ndarray T) (M : view T) m hp wp c sh st
    p q r t i j :
  shape x_pad = [m; hp; wp; c] ->
  as_strided x_pad sh
    (py_upto_back 3 (py_from 1 (strides x_pad ++ strides x_pad))
     ++ [py_back 3 (py_from 1 (strides x_pad ++ strides x_pad)) * st;
         py_back 2 (py_from 1 (strides x_pad ++ strides x_pad)) * st;
         py_back 1 (py_from 1 (strides x_pad ++ strides x_pad))])
  = Returned M ->
  vget M [p; q; r; t; i; j; 0]
  = get4 x_pad t (i * st + p) (j * st + q) r.
Proof.
  intros Hx E. apply as_strided_inv in E. subst M.
  unfold vget, get4. cbn [vbuf vstrides]. unfold strides. rewrite Hx.
  cbn [c_strides size_of fold_right app py_from skipn py_upto_back py_back
       length firstn nth Nat.sub offset].
  f_equal. ring.
Qed.

(** With the terms of the contraction added in the order of their
    indices: for a valid geometry [forward] returns, and [Z[t, i, j, l]]
    is the sum over the window [p, q < f], [r < c_in] of
    [W[p, q, r, l] * X_pad[t, i * stride + p, j * stride + q, r]], plus
    [b[0, 0, 0, l]]. *)
Lemma forward_in_index_order (s : ConvLayer T) (x : ndarray T)
    (m h w c_in c_out m0 h0 w0 : Z) :
  shape x = [m; h; w; c_in] ->
  0 <= m -> 0 <= h -> 0 <= w -> 0 <= c_in -> 0 <= c_out ->
  Z.of_nat (length (data x)) = m * h * w * c_in ->
  dim_in s = (m0, h0, w0, c_in) ->
  shape (W s) = [f s; f s; c_in; c_out] ->
  shape (b s) = [1; 1; 1; c_out] ->
  0 < stride s -> 0 <= pad s -> 0 <= f s ->
  0 <= h - f s + 2 * pad s < 2 ^ 53 -> 0 <= w - f s + 2 * pad s < 2 ^ 53 ->
  returns_with (forward x) s (fun s' _ =>
    forall t i j l,
      0 <= t < m ->
      0 <= i < (h - f s + 2 * pad s) / stride s + 1 ->
      0 <= j < (w - f s + 2 * pad s) / stride s + 1 ->
      0 <= l < c_out ->
      get4 (Zcache s') t i j l
      = sadd (window_sum (W s) (padded_at x h w (pad s)) (f s) c_in
                (stride s) t i j l)
             (get4 (b s) 0 0 0 l)).
Proof.
  intros Hx Hm Hh Hw Hc Hco Hlen Hdim HW Hb Hs Hp Hf Hvh Hvw.
  destruct (@forward_shape _ _ s x m h w c_in c_out m0 h0 w0)
    as (s' & r & E & Hsh & _); try assumption.
  exists s', r. split; [exact E|].
  intros t i j l Ht Hi Hj Hl.
  destruct (last_window h (f s) (pad s) Hs (proj1 Hvh)) as [Hqh Hlh].
  destruct (last_window w (f s) (pad s) Hs (proj1 Hvw)) as [Hqw Hlw].
  unfold forward in E.
  step E. step E. step E. step E.
  step E as x1 Ex1. step E as q_h Eqh. step E as x2 Ex2. step E as q_w Eqw.
  step E as x_pad Epad. step E.
  cbn [f pad stride dim_in activation W b set_X] in *. rewrite Hdim in E.
  step E as x0 Ex0. step E as M EM. step E. step E as z Ez. step E.
  step E. step E. step E as z1 Ez1. step E. step E.
  cbn [f pad stride dim_in activation W b Zcache set_X set_Z] in *.
  assert (Zcache s' = z1) as ->.
  { destruct (activation s =? "relu")%string;
      [|destruct (activation s =? "none")%string].
    - step E. apply mret_inv in E as [-> _]. reflexivity.
    - step E. apply mret_inv in E as [-> _]. reflexivity.
    - apply mret_inv in E as [-> _]. reflexivity. }
  clear E. unfold axis in Ex1, Ex2, Ex0. rewrite Hx in Ex1, Ex2, Ex0.
  cbn [nth_error] in Ex1, Ex2, Ex0.
  injection Ex1 as <-. injection Ex2 as <-. injection Ex0 as <-.
  rewrite int_truediv_floor in Eqh, Eqw by assumption.
  injection Eqh as <-. injection Eqw as <-.
  set (qh := (h - f s + 2 * pad s) / stride s) in *.
  set (qw := (w - f s + 2 * pad s) / stride s) in *.
  assert (shape x_pad = [m; h + 2 * pad s; w + 2 * pad s; c_in]) as Hxp.
  { destruct (Z.eqb_spec (pad s) 0) as [E0|E0]; cbn [negb] in Epad.
    - injection Epad as <-. rewrite E0, !Z.mul_0_r, !Z.add_0_r. exact Hx.
    - destruct (np_pad_returns x Hx Hp) as (x' & E1 & E2 & _).
      rewrite E1 in Epad. injection Epad as <-. exact E2. }
  assert (vshape M = [f s; f s; c_in; m; qh + 1; qw + 1; 1]) as HM
    by (apply as_strided_inv in EM; rewrite EM; reflexivity).
  unfold contract_pqrs_pqrtbmn, exactly4 in Ez. rewrite HW, HM in Ez.
  cbn [obind] in Ez. rewrite !Z.eqb_refl in Ez. cbn [andb] in Ez.
  injection Ez as <-.
  eapply broadcast2_4d in Ez1 as (n0 & n1 & n2 & n3 & D0 & D1 & D2 & D3 & ->);
    [|reflexivity|exact Hb].
  rewrite !broadcast_dim_one in D0, D1, D2.
  rewrite broadcast_dim_refl in D3.
  injection D0 as <-. injection D1 as <-. injection D2 as <-.
  injection D3 as <-.
  rewrite get4_build4 by assumption. f_equal.
  - unfold bget4. cbn [shape build4].
    rewrite !bidx_self by assumption.
    rewrite get4_build4 by assumption.
    unfold window_sum.
    apply sum_range_ext. intros p Hp'.
    apply sum_range_ext. intros q Hq'.
    apply sum_range_ext. intros r' Hr'.
    apply sum_range_ext. intros n Hn.
    assert (n = 0) as -> by lia. f_equal.
    erewrite forward_view_get4; [|exact Hxp|exact EM].
    eapply forward_pad_get4; try eassumption; nia.
  - unfold bget4. rewrite Hb. unfold bidx. cbn [Z.eqb Pos.eqb].
    destruct (Z.eqb_spec c_out 1) as [->|_]; [|reflexivity].
    assert (l = 0) as -> by lia. reflexivity.
Qed.

End ForwardValues.

(** X1: on integers the forward pass is exact.  When the elements of
    the input, of the weights and of the bias are integers [xi], [wi],
    [bi] bounded by [Bx], [Bw], [Bb] with
    [f * f * c_in * Bw * Bx + Bb < 2^53], no sum of the products leaves
    the integers that binary64 holds, in whatever order they are added:
    for a valid geometry [forward] returns, and [Z[t, i, j, l]] is the
    integer sum over [p, q < f], [r < c_in] of
    [wi[p, q, r, l] * xi_pad[t, i * stride + p, j * stride + q, r]],
    plus [bi[l]]. *)
Theorem forward_exact_on_integers (s : ConvLayer B64.float)
    (x : ndarray B64.float) (m h w c_in c_out m0 h0 w0 : Z)
    (xi wi : Z -> Z -> Z -> Z -> Z) (bi : Z -> Z) (Bx Bw Bb : Z) :
  shape x = [m; h; w; c_in] ->
  0 <= m -> 0 <= h -> 0 <= w -> 0 <= c_in -> 0 <= c_out ->
  Z.of_nat (length (data x)) = m * h * w * c_in ->
  dim_in s = (m0, h0, w0, c_in) ->
  shape (W s) = [f s; f s; c_in; c_out] ->
  shape (b s) = [1; 1; 1; c_out] ->
  0 < stride s -> 0 <= pad s -> 0 <= f s ->
  0 <= h - f s + 2 * pad s < 2 ^ 53 -> 0 <= w - f s + 2 * pad s < 2 ^ 53 ->
  (forall t j k r, 0 <= t < m -> 0 <= j < h -> 0 <= k < w -> 0 <= r < c_in ->
     holds_int (xi t j k r) (get4 x t j k r) /\ Z.abs (xi t j k r) <= Bx) ->
  (forall p q r l,
     0 <= p < f s -> 0 <= q < f s -> 0 <= r < c_in -> 0 <= l < c_out ->
     holds_int (wi p q r l) (get4 (W s) p q r l)
     /\ Z.abs (wi p q r l) <= Bw) ->
  (forall l, 0 <= l < c_out ->
     holds_int (bi l) (get4 (b s) 0 0 0 l) /\ Z.abs (bi l) <= Bb) ->
  0 <= Bx < 2 ^ 53 -> 0 <= Bw < 2 ^ 53 -> 0 <= Bb ->
  f s * f s * c_in * (Bw * Bx) + Bb < 2 ^ 53 ->
  returns_with (forward x) s (fun s' _ =>
    forall t i j l,
      0 <= t < m ->
      0 <= i < (h - f s + 2 * pad s) / stride s + 1 ->
      0 <= j < (w - f s + 2 * pad s) / stride s + 1 ->
      0 <= l < c_out ->
      holds_int
        (int_window_sum wi (int_padded xi h w (pad s)) (f s) c_in
           (stride s) t i j l + bi l)
        (get4 (Zcache s') t i j l)).
Proof.
  intros Hx Hm Hh Hw Hc Hco Hlen Hdim HW Hb Hs Hp Hf Hvh Hvw Hxi Hwi Hbi
    HBx HBw HBb Hbound.
  destruct (@forward_in_index_order _ _ s x m h w c_in c_out m0 h0 w0)
    as (s' & res & E & HZ); try assumption.
  exists s', res. split; [exact E|].
  intros t i j l Ht Hi Hj Hl.
  rewrite (HZ t i j l Ht Hi Hj Hl). clear HZ.
  assert (0 <= f s * f s * c_in * (Bw * Bx)).
  { assert (0 <= f s * f s) by nia. assert (0 <= Bw * Bx) by nia.
    assert (0 <= f s * f s * c_in) by nia. nia. }
  destruct (@window_sum_holds (W s) (padded_at x h w (pad s)) wi
              (int_padded xi h w (pad s)) (f s) c_in (stride s) t i j l
              Bw Bx) as [H1 H2]; try assumption; try lia.
  - intros p q r Hp' Hq' Hr'. apply Hwi; assumption.
  - intros p q r Hp' Hq' Hr'.
    eapply padded_at_holds; try eassumption; lia.
  - destruct (Hbi l Hl) as [B1 B2].
    apply (@add_holds _ _ _ _ H1 B1); lia.
Qed.

Lemma maximum_zero_not_negative (e : B64.float) :
  SFltb (B64.maximum B64.zero e) B64.zero = false.
Proof. destruct e as [[|]|[|]| |[|] m e]; reflexivity. Qed.

(** X3: with the ['relu'] activation no element of the array that
    [forward] returns compares below zero. *)
Theorem forward_relu_not_negative (s s' : ConvLayer B64.float)
    (x a : ndarray B64.float) :
  activation s = "relu"%string ->
  forward x s = (s', Returned (Some a)) ->
  Forall (fun e => SFltb e B64.zero = false) (data a).
Proof.
  intros Ha E. unfold forward in E.
  steps E. destruct (dim_in (set_X x s)) as [[[m0 h0] w0] c_in].
  steps E. cbn [activation set_X set_Z] in E.
  rewrite Ha in E. cbn [String.eqb Ascii.eqb Bool.eqb] in E.
  step E. apply mret_inv in E as [_ E]. injection E as ->.
  unfold relu, map_array. cbn [data].
  apply Forall_forall. intros e He. apply in_map_iff in He as (e0 & <- & _).
  apply maximum_zero_not_negative.
Qed.

(** X22: the derivative of the ReLU read off its output is the one read
    off its input: [_deriv_relu(_relu(z)) = _deriv_relu(z)], NaN,
    infinities and signed zeros included. *)
Theorem deriv_relu_of_relu (z : ndarray B64.float) :
  deriv_relu (relu z) = deriv_relu z.
Proof.
  unfold deriv_relu, relu, map_array. cbn [shape data]. f_equal.
  rewrite map_map. apply map_ext. intros e.
  destruct e as [[|]|[|]| |[|] m e]; reflexivity.
Qed.

(** ** [backward] after [forward] *)

Section BackwardReturns.

Context {T : Type} `{Scalar T}.

Lemma allocate_dZ_pad_returns (s : ConvLayer T) m n0 h w c_in fw f1 f2 f3
    z0 z1 z2 c_out :
  shape (X s) = [n0; h; w; c_in] -> shape (W s) = [fw; f1; f2; f3] ->
  shape (Zcache s) = [z0; z1; z2; c_out] ->
  0 <= m -> 0 <= h + (fw - 1) -> 0 <= w + (fw - 1) -> 0 <= c_out ->
  allocate_dZ_pad m s
  = (s, Returned (full m (h + (fw - 1)) (w + (fw - 1)) c_out szero)).
Proof.
  intros HX HW HZ Hm Hh Hw Hc.
  unfold allocate_dZ_pad, mbind, read, lift, axis, last_axis.
  rewrite HX, HW, HZ. cbn [nth_error rev app].
  rewrite zeros_returns by assumption. reflexivity.
Qed.

(** The lengths selected by the two slices of [dZ_pad] that receive
    [dZ]. *)
Lemma dilated_length_from_zero n stride :
  0 < stride -> 0 < n ->
  sel_len (slice_indices (Slice (Some 0) None stride) n)
  = (n - 1) / stride + 1.
Proof.
  intros Hs Hn. unfold slice_indices, adjust_index.
  cbn [sl_start sl_stop sl_step sel_len].
  replace (stride <? 0) with false by (symmetry; apply Z.ltb_ge; lia).
  cbn [Z.ltb Z.compare].
  replace (n <=? 0) with false by (symmetry; apply Z.leb_gt; lia).
  replace (0 <? n) with true by (symmetry; apply Z.ltb_lt; lia).
  rewrite Z.sub_0_r. reflexivity.
Qed.

Lemma dilated_length_interior n d stride :
  0 < stride -> 0 < d -> 0 < n - 2 * d ->
  sel_len (slice_indices (Slice (Some d) (Some (- d)) stride) n)
  = (n - 2 * d - 1) / stride + 1.
Proof.
  intros Hs Hd Hn. unfold slice_indices, adjust_index.
  cbn [sl_start sl_stop sl_step sel_len].
  replace (stride <? 0) with false by (symmetry; apply Z.ltb_ge; lia).
  replace (d <? 0) with false by (symmetry; apply Z.ltb_ge; lia).
  replace (n <=? d) with false by (symmetry; apply Z.leb_gt; lia).
  replace (- d <? 0) with true by (symmetry; apply Z.ltb_lt; lia).
  replace (- d + n <? 0) with false by (symmetry; apply Z.ltb_ge; lia).
  replace (d <? - d + n) with true by (symmetry; apply Z.ltb_lt; lia).
  f_equal. f_equal. lia.
Qed.

Lemma assign12_returns (a v : ndarray T) s1 s2 n0 n1 n2 n3 v1 v2 :
  shape a = [n0; n1; n2; n3] -> shape v = [n0; v1; v2; n3] ->
  sl_step s1 <> 0 -> sl_step s2 <> 0 ->
  sel_len (slice_indices s1 n1) = v1 -> sel_len (slice_indices s2 n2) = v2 ->
  exists a', assign12 a s1 s2 v = Returned a' /\
             shape a' = [n0; n1; n2; n3] /\
             (0 <= n0 -> 0 <= n1 -> 0 <= n2 -> 0 <= n3 ->
              Z.of_nat (length (data a')) = n0 * n1 * n2 * n3).
Proof.
  intros Ha Hv H1 H2 L1 L2. unfold assign12, update12, four_axes, shape4.
  rewrite Ha, Hv. cbn [obind].
  replace (sl_step s1 =? 0) with false by (symmetry; apply Z.eqb_neq; exact H1).
  replace (sl_step s2 =? 0) with false by (symmetry; apply Z.eqb_neq; exact H2).
  cbn [negb andb]. rewrite L1, L2, !stretches_refl. cbn [andb].
  eexists. split; [reflexivity|]. split; [reflexivity|].
  intros. apply length_build4; assumption.
Qed.

Lemma backward_view_in_bounds m h w c fw :
  0 < m -> 0 < h -> 0 < w -> 0 < c -> 0 < fw ->
  (m - 1) * ((h + (fw - 1)) * ((w + (fw - 1)) * (c * 1)))
  + ((h - 1) * ((w + (fw - 1)) * (c * 1))
     + ((w - 1) * (c * 1)
        + ((c - 1) * 1
           + ((fw - 1) * ((w + (fw - 1)) * (c * 1))
              + ((fw - 1) * (c * 1) + 0)))))
  < m * (h + (fw - 1)) * (w + (fw - 1)) * c.
Proof. intros. nia. Qed.

Lemma returns_with_weaken {A} (m : method T A) s
    (P Q : ConvLayer T -> A -> Prop) :
  returns_with m s P -> (forall s1 a, P s1 a -> Q s1 a) ->
  returns_with m s Q.
Proof.
  intros (s1 & a & E & HP) HPQ. exists s1, a. split; [exact E|].
  apply HPQ, HP.
Qed.

(** The batch axis of [dZ_pad] after the test on the batch size. *)
Lemma dZ_pad_ready (s : ConvLayer T) m mp h w c_in fw c_out z1 z2 :
  shape (X s) = [m; h; w; c_in] -> shape (W s) = [fw; fw; c_in; c_out] ->
  shape (Zcache s) = [m; z1; z2; c_out] ->
  shape (dZ_pad s) = [mp; h + (fw - 1); w + (fw - 1); c_out] ->
  0 <= m -> 0 <= h + (fw - 1) -> 0 <= w + (fw - 1) -> 0 <= c_out ->
  returns_with
    (if negb (m =? mp)
     then (p <- allocate_dZ_pad m ;; write (set_dZ_pad p))%method
     else mret tt) s
    (fun s1 _ => exists p, s1 = set_dZ_pad p s /\
                           shape p = [m; h + (fw - 1); w + (fw - 1); c_out]).
Proof.
  intros HX HW HZ HP Hm Hh Hw Hc.
  destruct (Z.eqb_spec m mp) as [<-|Hne]; cbn [negb].
  - apply returns_with_mret. exists (dZ_pad s). split; [|exact HP].
    destruct s; reflexivity.
  - exists (set_dZ_pad (full m (h + (fw - 1)) (w + (fw - 1)) c_out szero) s), tt.
    split.
    + unfold mbind.
      rewrite (allocate_dZ_pad_returns _ HX HW HZ Hm Hh Hw Hc). reflexivity.
    + eexists. split; reflexivity.
Qed.

Lemma backward_returns (s : ConvLayer T) (dA : ndarray T)
    (m h w c_in c_out fw m0 h0 w0 c0 mp d0 d1 d2 d3 e0 e1 e2 e3 : Z) :
  shape (X s) = [m; h; w; c_in] ->
  shape (W s) = [fw; fw; c_in; c_out] ->
  shape (Zcache s)
  = [m; (h - fw + 2 * pad s) / stride s + 1;
     (w - fw + 2 * pad s) / stride s + 1; c_out] ->
  shape dA
  = [m; (h - fw + 2 * pad s) / stride s + 1;
     (w - fw + 2 * pad s) / stride s + 1; c_out] ->
  shape (dZ_pad s) = [mp; h + (fw - 1); w + (fw - 1); c_out] ->
  shape (dW s) = [d0; d1; d2; d3] -> shape (db s) = [e0; e1; e2; e3] ->
  dim_in s = (m0, h0, w0, c0) -> m0 <> 0 ->
  0 <= m -> 0 <= h -> 0 <= w -> 0 <= c_in -> 0 <= c_out ->
  0 < stride s -> 0 <= pad s < fw ->
  0 <= h - fw + 2 * pad s -> 0 <= w - fw + 2 * pad s ->
  returns_with (backward dA) s (fun s' g =>
    g = dX s' /\
    shape (dX s') = [m; h; w; c_in] /\
    shape (dW s') = [fw; fw; c_in; c_out] /\
    shape (db s') = [1; 1; 1; c_out] /\
    shape (dZ_pad s') = [m; h + (fw - 1); w + (fw - 1); c_out]).
Proof.
  intros HX HW HZ HdA HP HdW Hdb Hdim Hm0 Hm Hh Hw Hci Hco Hs Hp Hvh Hvw.
  set (nh := (h - fw + 2 * pad s) / stride s + 1) in *.
  set (nw := (w - fw + 2 * pad s) / stride s + 1) in *.
  destruct (last_window h fw (pad s) Hs Hvh) as [Hqh Hlh].
  destruct (last_window w fw (pad s) Hs Hvw) as [Hqw Hlw].
  unfold backward, backward_contract, backward_dZ.
  rewrite HdA. cbn [length Nat.eqb].
  run.
  eapply returns_with_lift.
  { apply broadcast2_same_shape; [exact HdA|].
    unfold deriv_relu, map_array. cbn [shape]. exact HZ. }
  set (dZ := build4 m nh nw c_out _).
  assert (shape dZ = [m; nh; nw; c_out]) as HdZ by reflexivity.
  clearbody dZ.
  run. eapply returns_with_lift; [unfold axis; rewrite HdZ; reflexivity|].
  run. eapply returns_with_lift; [unfold axis; rewrite HP; reflexivity|].
  run.
  eapply returns_with_weaken;
    [eapply dZ_pad_ready; try eassumption; lia|].
  intros s1 _ (p & -> & Hshp).
  run. cbn [dW db X W stride pad dZ_pad dim_in lamb set_dZ_pad].
  eapply returns_with_lift; [apply fill_zero_returns; exact HdW|].
  run. cbn [dW db X W stride pad dZ_pad dim_in lamb set_dZ_pad set_dW].
  eapply returns_with_lift; [apply fill_zero_returns; exact Hdb|].
  run. cbn [dW db X W stride pad dZ_pad dim_in lamb set_dZ_pad set_dW set_db].
  eapply returns_with_lift; [unfold exactly4; rewrite HX; reflexivity|].
  run. cbn [dW db X W stride pad dZ_pad dim_in lamb set_dZ_pad set_dW set_db].
  eapply returns_with_lift; [unfold exactly4; rewrite HW; reflexivity|].
  cbv beta iota.
  run. cbn [dW db X W stride pad dZ_pad dim_in lamb set_dZ_pad set_dW set_db].
  eapply returns_with_lift; [unfold exactly4; rewrite HdZ; reflexivity|].
  cbv beta iota.
  run.
  eapply returns_with_lift;
    [unfold rot90_2, four_axes; rewrite HW; reflexivity|].
  set (W_rot := build4 fw fw c_in c_out _).
  assert (shape W_rot = [fw; fw; c_in; c_out]) as HWr by reflexivity.
  run. eapply returns_with_lift; [unfold axis; rewrite HW; reflexivity|].
  run. cbn [dW db X W stride pad dZ_pad dim_in lamb set_dZ_pad set_dW set_db].
  eapply returns_with_lift; [unfold exactly4; rewrite Hshp; reflexivity|].
  assert (exists p',
    (if fw - (pad s + 1) =? 0
     then assign12 p (Slice (Some 0) None (stride s))
            (Slice (Some 0) None (stride s)) dZ
     else assign12 p
            (Slice (Some (fw - (pad s + 1))) (Some (- (fw - (pad s + 1))))
               (stride s))
            (Slice (Some (fw - (pad s + 1))) (Some (- (fw - (pad s + 1))))
               (stride s)) dZ) = Returned p' /\
    shape p' = [m; h + (fw - 1); w + (fw - 1); c_out] /\
    Z.of_nat (length (data p')) = m * (h + (fw - 1)) * (w + (fw - 1)) * c_out)
    as (p' & Ep' & Hshp' & Hlp').
  { destruct (Z.eqb_spec (fw - (pad s + 1)) 0) as [E0|E0].
    - destruct (@assign12_returns p dZ (Slice (Some 0) None (stride s))
                  (Slice (Some 0) None (stride s))
                  m (h + (fw - 1)) (w + (fw - 1)) c_out nh nw Hshp HdZ)
        as (p' & E1 & E2 & E3); cbn [sl_step]; try lia.
      + rewrite dilated_length_from_zero by lia. unfold nh.
        f_equal. f_equal. lia.
      + rewrite dilated_length_from_zero by lia. unfold nw.
        f_equal. f_equal. lia.
      + exists p'. split; [exact E1|]. split; [exact E2|]. apply E3; lia.
    - destruct (@assign12_returns p dZ
                  (Slice (Some (fw - (pad s + 1)))
                     (Some (- (fw - (pad s + 1)))) (stride s))
                  (Slice (Some (fw - (pad s + 1)))
                     (Some (- (fw - (pad s + 1)))) (stride s))
                  m (h + (fw - 1)) (w + (fw - 1)) c_out nh nw Hshp HdZ)
        as (p' & E1 & E2 & E3); cbn [sl_step]; try lia.
      + rewrite dilated_length_interior by lia. unfold nh.
        f_equal. f_equal. lia.
      + rewrite dilated_length_interior by lia. unfold nw.
        f_equal. f_equal. lia.
      + exists p'. split; [exact E1|]. split; [exact E2|]. apply E3; lia. }
  run. eapply returns_with_lift; [exact Ep'|].
  run. cbn [dW db X W stride pad dZ_pad dim_in lamb set_dZ_pad set_dW set_db].
  eapply returns_with_lift; [unfold axis; rewrite Hshp'; reflexivity|].
  run. eapply returns_with_lift; [unfold axis; rewrite Hshp'; reflexivity|].
  run. eapply returns_with_lift; [unfold axis; rewrite Hshp'; reflexivity|].
  run. eapply returns_with_lift; [unfold axis; rewrite Hshp'; reflexivity|].
  run. eapply returns_with_lift; [reflexivity|].
  run. eapply returns_with_lift; [reflexivity|].
  replace (h + (fw - 1) - fw + 1) with h by lia.
  replace (w + (fw - 1) - fw + 1) with w by lia.
  run. eapply returns_with_lift.
  { unfold strides. rewrite Hshp'. cbn [c_strides size_of fold_right nth].
    apply as_strided_returns.
    - reflexivity.
    - repeat (apply Forall_cons; [lia|]). apply Forall_nil.
    - assert (0 <= c_out * 1) by lia.
      assert (0 <= (w + (fw - 1)) * (c_out * 1))
        by (apply Z.mul_nonneg_nonneg; lia).
      assert (0 <= (h + (fw - 1)) * ((w + (fw - 1)) * (c_out * 1)))
        by (apply Z.mul_nonneg_nonneg; lia).
      repeat (apply Forall_cons; [lia|]). apply Forall_nil.
    - intros Hpos. cbn [map offset]. rewrite Hlp'.
      inversion Hpos as [|? ? P0 Hpos1]; subst.
      inversion Hpos1 as [|? ? P1 Hpos2]; subst.
      inversion Hpos2 as [|? ? P2 Hpos3]; subst.
      inversion Hpos3 as [|? ? P3 Hpos4]; subst.
      inversion Hpos4 as [|? ? P4 _]; subst.
      apply backward_view_in_bounds; assumption. }
  run. eapply returns_with_lift.
  { unfold contract_pqrs_bmnspq, exactly4. rewrite HWr. cbn [obind vshape].
    rewrite !Z.eqb_refl. reflexivity. }
  run. cbn [dW db X W stride pad dZ_pad dim_in lamb set_dZ_pad set_dW set_db
            set_dX].
  destruct (np_pad_returns (X s) HX (proj1 Hp)) as (X_pad & EXp & HXp & HlXp).
  eapply returns_with_lift; [exact EXp|].
  specialize (HlXp Hm Hh Hw Hci).
  run. eapply returns_with_lift.
  { unfold strides. rewrite HXp.
    cbn [c_strides size_of fold_right app py_from skipn py_upto_back py_back
         length firstn nth Nat.sub].
    assert (0 <= c_in * 1) by lia.
    assert (0 <= (w + 2 * pad s) * (c_in * 1))
      by (apply Z.mul_nonneg_nonneg; lia).
    assert (0 <= (h + 2 * pad s) * ((w + 2 * pad s) * (c_in * 1)))
      by (apply Z.mul_nonneg_nonneg; lia).
    assert (0 <= (w + 2 * pad s) * (c_in * 1) * stride s)
      by (apply Z.mul_nonneg_nonneg; lia).
    assert (0 <= c_in * 1 * stride s) by (apply Z.mul_nonneg_nonneg; lia).
    apply as_strided_returns.
    - reflexivity.
    - unfold nh, nw. repeat (apply Forall_cons; [lia|]). apply Forall_nil.
    - repeat (apply Forall_cons; [lia|]). apply Forall_nil.
    - intros Hpos. cbn [map offset]. rewrite HlXp.
      inversion Hpos as [|? ? P0 Hpos1]; subst.
      inversion Hpos1 as [|? ? _ Hpos2]; subst.
      inversion Hpos2 as [|? ? P2 Hpos3]; subst.
      inversion Hpos3 as [|? ? P3 _]; subst.
      pose proof (@forward_view_in_bounds m (h + 2 * pad s) (w + 2 * pad s)
                    c_in fw (stride s) (nh - 1) (nw - 1) P3 P2 P0 Hs) as Hb.
      unfold nh, nw in Hb |- *.
      lapply Hb; [clear Hb; intros Hb|lia].
      lapply Hb; [clear Hb; intros Hb|lia].
      lapply Hb; [clear Hb; intros Hb|lia].
      lapply Hb; [clear Hb; intros Hb|lia].
      lia. }
  run. eapply returns_with_lift.
  { unfold contract_abcd_pqsabc, exactly4. rewrite HdZ. cbn [obind vshape].
    rewrite !Z.eqb_refl. reflexivity. }
  run.
  unfold add_regularisation. run.
  cbn [dW db X W stride pad dZ_pad dim_in lamb set_dZ_pad set_dW set_db
       set_dX].
  rewrite Hdim. run.
  eapply returns_with_lift.
  { replace (m0 =? 0) with false by (symmetry; apply Z.eqb_neq; exact Hm0).
    reflexivity. }
  run.
  cbn [dW db X W stride pad dZ_pad dim_in lamb set_dZ_pad set_dW set_db
       set_dX].
  eapply returns_with_lift.
  { apply inplace2_same_shape; [reflexivity|].
    unfold map_array. cbn [shape]. exact HW. }
  run. eapply returns_with_lift; [unfold axis; rewrite HdZ; reflexivity|].
  run. eapply returns_with_lift.
  { unfold contract_abcd_d, exactly4. rewrite HdZ. cbn [obind].
    replace (0 <=? c_out) with true by (symmetry; apply Z.leb_le; exact Hco).
    rewrite Z.eqb_refl. reflexivity. }
  run.
  cbn [dW db X W stride pad dZ_pad dim_in lamb set_dZ_pad set_dW set_db
       set_dX].
  repeat split; try reflexivity. exact Hshp'.
Qed.
(** X8: on a layer that the constructor returned, with a positive batch
    size in [dim_in], a positive stride, [0 <= pad < f] and lengths
    [n - f + 2 * pad] below 2^53, a forward
    pass on an input of the spatial size of [dim_in], of any batch size,
    followed by a backward pass on a gradient of the shape of the
    output, runs through; the gradients that [backward] leaves have the
    shapes of the input, of the weights and of the bias. *)
Theorem backward_after_forward (m h w c_in k c st p : Z)
    (act : string) (lam : T) (randn : ndarray T) (layer : ConvLayer T)
    (x dA : ndarray T) (m' : Z) :
  init (m, h, w, c_in) k c st p act lam randn = Returned layer ->
  0 < m -> 0 < st -> 0 <= p < k ->
  0 <= h - k + 2 * p < 2 ^ 53 -> 0 <= w - k + 2 * p < 2 ^ 53 ->
  shape x = [m'; h; w; c_in] -> 0 <= m' ->
  Z.of_nat (length (data x)) = m' * h * w * c_in ->
  shape dA
  = [m'; (h - k + 2 * p) / st + 1; (w - k + 2 * p) / st + 1; c] ->
  exists s1 r,
    forward x layer = (s1, Returned r) /\
    returns_with (backward dA) s1 (fun s2 g =>
      g = dX s2 /\ shape g = shape x /\
      shape (dW s2) = shape (W layer) /\ shape (db s2) = shape (b layer)).
Proof.
  intros Hi Hm Hs Hp Hvh Hvw Hx Hm' Hlen HdA.
  pose proof Hi as HP. apply init_dZ_pad in HP.
  apply init_inv in Hi
    as (_ & Hdi & _ & Hf & Hst & Hpd & _ & _ & HW & Hb & _ & HdW & Hdb & _
        & _ & _ & _ & _ & Hh & Hw & Hc & Hf0 & Hco).
  subst k st p.
  destruct (@forward_shape _ _ layer x m' h w c_in c m h w)
    as (s1 & r & E & HZ & _); try assumption; try lia.
  { rewrite Hb. reflexivity. }
  exists s1, r. split; [exact E|].
  pose proof E as Hs1. apply forward_state in Hs1.
  eapply returns_with_weaken.
  - eapply backward_returns with (m := m') (h := h) (w := w) (c_in := c_in)
      (c_out := c) (fw := f layer) (mp := m).
    all: try rewrite Hs1;
      cbn [X W Zcache dZ_pad dW db dim_in stride pad f set_X set_Z].
    all: first [ eassumption | lia | exact HZ
               | rewrite HP; reflexivity | rewrite HdW; reflexivity
               | rewrite Hdb; reflexivity ].
  - intros s2 g (-> & HX2 & HW2 & Hb2 & _).
    rewrite HX2, HW2, Hb2, Hx, HW, Hb. repeat split; reflexivity.
Qed.

End BackwardReturns.

(** ** What [backward] computes *)

Section BackwardValues.

Context {T : Type} `{Scalar T}.

Lemma backward_dZ_pure (s : ConvLayer T) (dA : ndarray T) :
  fst (backward_dZ dA s) = s.
Proof.
  unfold backward_dZ, mbind, read, lift.
  destruct (length (shape dA) =? 2)%nat.
  - destruct (axis dA 1); [|reflexivity].
    destruct (dim_out s) as [[[? ?] ?] ?].
    destruct (reshape4 _ _ _ _ _); [|reflexivity].
    destruct (broadcast2 _ _ _); reflexivity.
  - destruct (broadcast2 _ _ _); reflexivity.
Qed.

Lemma backward_contract_inv (s s1 : ConvLayer T) (dA dZ : ndarray T) :
  backward_contract dA s = (s1, Returned dZ) ->
  exists X_pad m nh nw nc f0 f1 c_in c_out p0 p1 p2 p3,
    backward_dZ dA s = (s, Returned dZ) /\
    shape dZ = [m; nh; nw; nc] /\
    shape (W s) = [f0; f1; c_in; c_out] /\
    np_pad (X s) (pad s) = Returned X_pad /\
    shape (dZ_pad s1) = [p0; p1; p2; p3] /\
    (exists pb,
       (pb = dZ_pad s \/ snd (allocate_dZ_pad m s) = Returned pb) /\
       (if f0 - (pad s + 1) =? 0
        then assign12 pb (Slice (Some 0) None (stride s))
               (Slice (Some 0) None (stride s)) dZ
        else assign12 pb
               (Slice (Some (f0 - (pad s + 1))) (Some (- (f0 - (pad s + 1))))
                  (stride s))
               (Slice (Some (f0 - (pad s + 1))) (Some (- (f0 - (pad s + 1))))
                  (stride s)) dZ) = Returned (dZ_pad s1)) /\
    dX s1
    = build4 p0 (p1 - f0 + 1) (p2 - f1 + 1) c_in (fun b' m' n r =>
        sum_range f0 (fun p => sum_range f1 (fun q => sum_range c_out (fun c =>
          smul (get4 (W s) (f0 - 1 - p) (f1 - 1 - q) r c)
               (get4 (dZ_pad s1) b' (m' + p) (n + q) c))))) /\
    dW s1
    = build4 f1 f1 c_in nc (fun p q r d =>
        sum_range m (fun a => sum_range nh (fun i => sum_range nw (fun j =>
          smul (get4 dZ a i j d)
               (get4 X_pad a (p + i * stride s) (q + j * stride s) r))))).
Proof.
  intros E. unfold backward_contract in E.
  step E as dZ' EdZ.
  pose proof (backward_dZ_pure s dA) as Hpure. rewrite EdZ in Hpure.
  cbn [fst] in Hpure. subst s0.
  step E as dZ0 EdZ0. step E. step E as q0 Eq0.
  step E as u Ealloc.
  match type of Ealloc with _ = (?st, _) => rename st into s2 end.
  assert (X s2 = X s /\ W s2 = W s /\ stride s2 = stride s /\ pad s2 = pad s
          /\ (dZ_pad s2 = dZ_pad s
              \/ snd (allocate_dZ_pad dZ0 s) = Returned (dZ_pad s2)))
    as (HX2 & HW2 & Hst2 & Hpd2 & Hpb).
  { destruct (negb (dZ0 =? q0)).
    - step Ealloc as pz Epz. apply write_inv in Ealloc. subst s2.
      pose proof (allocate_dZ_pad_preserves
                    (fun t => (X t, W t, stride t, pad t)) dZ0 s) as Hp.
      rewrite Epz in Hp. cbn [fst] in Hp.
      cbn [X W stride pad dZ_pad set_dZ_pad].
      injection Hp as E1 E2 E3 E4. rewrite Epz. cbn [snd].
      repeat split; try assumption. right. reflexivity.
    - apply mret_inv in Ealloc as [-> _]. repeat split; try reflexivity.
      left. reflexivity. }
  step E. step E as g0 Eg0. step E. step E. step E as g1 Eg1. step E.
  step E. step E as xs EX. step E. step E as ws EW.
  destruct ws as [[[f0 f1] c_in] c_out].
  step E. step E. step E as zs EZ. destruct zs as [[[m nh] nw] nc].
  step E as W_rot Erot. step E as w0 Ew0. step E. step E as ps Eps.
  step E as p' Ep'. step E. step E.
  step E as k0 Ek0. step E as k1 Ek1. step E as k2 Ek2. step E as k3 Ek3.
  step E as r0 Er0. step E as r1 Er1. step E as M EM. step E as gx Egx.
  step E. step E as X_pad EXp. step E as M2 EM2. step E as gw Egw.
  step E. apply mret_inv in E as [-> ->].
  cbn [X W stride pad dZ_pad dX dW set_dW set_db set_dZ_pad set_dX] in *.
  rewrite ?HX2, ?HW2, ?Hst2, ?Hpd2 in *.
  apply exactly4_inv in EW, EZ.
  destruct ps as [[[p0 p1] p2] p3]. apply exactly4_inv in Eps.
  assert (shape p' = [p0; p1; p2; p3]) as Hp'.
  { rewrite <- Eps. unfold assign12 in Ep'.
    destruct (w0 - (pad s + 1) =? 0); eapply update12_shape; exact Ep'. }
  unfold axis in Ek0, Ek1, Ek2, Ek3. rewrite Hp' in Ek0, Ek1, Ek2, Ek3.
  cbn [nth_error] in Ek0, Ek1, Ek2, Ek3.
  injection Ek0 as <-. injection Ek1 as <-. injection Ek2 as <-.
  injection Ek3 as <-.
  unfold rot90_2, four_axes in Erot. rewrite EW in Erot. cbn [obind] in Erot.
  injection Erot as <-.
  unfold axis in Er0, Er1. cbn [shape build4 nth_error] in Er0, Er1.
  injection Er0 as <-. injection Er1 as <-.
  apply as_strided_inv in EM, EM2. subst M M2.
  unfold contract_pqrs_bmnspq, exactly4 in Egx.
  cbn [shape build4 vshape obind] in Egx.
  destruct ((f0 =? f0) && (f1 =? f1) && (c_out =? p3)) eqn:Ec;
    [|discriminate Egx].
  injection Egx as <-.
  apply np_pad_shape in EXp as HXp.
  destruct HXp as (x0 & x1 & x2 & x3 & HXs & Hpad & HXp).
  unfold contract_abcd_pqsabc, exactly4 in Egw. rewrite EZ in Egw.
  cbn [obind vshape] in Egw.
  destruct ((m =? m) && (nh =? nh) && (nw =? nw)); [|discriminate Egw].
  injection Egw as <-.
  exists X_pad, m, nh, nw, nc, f0, f1, c_in, c_out, p0, p1, p2, p3.
  split; [exact EdZ|]. split; [exact EZ|]. split; [exact EW|].
  split; [exact EXp|]. split; [exact Hp'|]. split.
  { exists (dZ_pad s2). split.
    - unfold axis in EdZ0. rewrite EZ in EdZ0. cbn [nth_error] in EdZ0.
      injection EdZ0 as <-. exact Hpb.
    - unfold axis in Ew0. rewrite EW in Ew0. cbn [nth_error] in Ew0.
      injection Ew0 as <-. exact Ep'. }
  split.
  - apply build4_ext. intros b' m' n r Hb Hm' Hn Hr.
    apply sum_range_ext. intros p Hp.
    apply sum_range_ext. intros q Hq.
    apply sum_range_ext. intros c Hc.
    rewrite get4_build4 by assumption. f_equal.
    unfold vget, get4. cbn [vbuf vstrides]. unfold strides. rewrite Hp'.
    cbn [c_strides size_of fold_right nth offset]. f_equal. ring.
  - apply build4_ext. intros p q r d Hp Hq Hr Hd.
    apply sum_range_ext. intros a' Ha.
    apply sum_range_ext. intros i Hi.
    apply sum_range_ext. intros j Hj. f_equal.
    unfold vget, get4. cbn [vbuf vstrides]. unfold strides. rewrite HXp.
    cbn [c_strides size_of fold_right app py_from skipn py_upto_back py_back
         length firstn nth Nat.sub offset].
    f_equal. ring.
Qed.

(** What [backward] leaves when it returns. *)
Lemma backward_inv (s s' : ConvLayer T) (dA g : ndarray T) :
  backward dA s = (s', Returned g) ->
  exists X_pad dZ m nh nw nc f0 f1 c_in c_out p0 p1 p2 p3,
    backward_dZ dA s = (s, Returned dZ) /\
    shape dZ = [m; nh; nw; nc] /\
    shape (W s) = [f0; f1; c_in; c_out] /\
    np_pad (X s) (pad s) = Returned X_pad /\
    shape (dZ_pad s') = [p0; p1; p2; p3] /\
    (exists pb,
       (pb = dZ_pad s \/ snd (allocate_dZ_pad m s) = Returned pb) /\
       (if f0 - (pad s + 1) =? 0
        then assign12 pb (Slice (Some 0) None (stride s))
               (Slice (Some 0) None (stride s)) dZ
        else assign12 pb
               (Slice (Some (f0 - (pad s + 1))) (Some (- (f0 - (pad s + 1))))
                  (stride s))
               (Slice (Some (f0 - (pad s + 1))) (Some (- (f0 - (pad s + 1))))
                  (stride s)) dZ) = Returned (dZ_pad s')) /\
    g = dX s' /\
    dX s'
    = build4 p0 (p1 - f0 + 1) (p2 - f1 + 1) c_in (fun b' m' n r =>
        sum_range f0 (fun p => sum_range f1 (fun q => sum_range c_out (fun c =>
          smul (get4 (W s) (f0 - 1 - p) (f1 - 1 - q) r c)
               (get4 (dZ_pad s') b' (m' + p) (n + q) c))))) /\
    regularised s
      (build4 f1 f1 c_in nc (fun p q r d =>
         sum_range m (fun a => sum_range nh (fun i => sum_range nw (fun j =>
           smul (get4 dZ a i j d)
                (get4 X_pad a (p + i * stride s) (q + j * stride s) r))))))
      (dW s') /\
    db s'
    = build4 1 1 1 nc (fun _ _ _ d =>
        sum_range m (fun a => sum_range nh (fun i => sum_range nw (fun j =>
          get4 dZ a i j d)))).
Proof.
  intros E. unfold backward in E.
  step E as dZ Ec.
  match type of Ec with _ = (?st, _) => rename st into s1 end.
  step E as u Er.
  match type of Er with _ = (?st, _) => rename st into s2 end.
  step E as n_C EnC. step E as gb Egb.
  step E. apply read_inv in E as [-> ->].
  cbn [dX set_db dZ_pad dW db].
  pose proof (backward_contract_preserves dA gradient_free_dim_in s) as Hdi.
  pose proof (backward_contract_preserves dA gradient_free_lamb s) as Hla.
  pose proof (backward_contract_preserves dA gradient_free_W s) as HWs.
  rewrite Ec in Hdi, Hla, HWs. cbn [fst] in Hdi, Hla, HWs.
  apply add_regularisation_inv in Er as [Hreg Hs2].
  apply backward_contract_inv in Ec
    as (X_pad & m & nh & nw & nc & f0 & f1 & c_in & c_out & p0 & p1 & p2 & p3
        & EdZ & HdZ & HW & EXp & HP & Hpb & HdX & HdW).
  exists X_pad, dZ, m, nh, nw, nc, f0, f1, c_in, c_out, p0, p1, p2, p3.
  rewrite Hs2. cbn [dX dW dZ_pad set_dW].
  split; [exact EdZ|]. split; [exact HdZ|]. split; [exact HW|].
  split; [exact EXp|]. split; [exact HP|]. split; [exact Hpb|].
  split; [reflexivity|]. split; [exact HdX|]. split.
  - unfold regularised in Hreg |- *. rewrite Hdi, Hla, HWs, HdW in Hreg.
    exact Hreg.
  - unfold axis in EnC. rewrite HdZ in EnC. cbn [nth_error] in EnC.
    injection EnC as <-.
    unfold contract_abcd_d, exactly4 in Egb. rewrite HdZ in Egb.
    cbn [obind] in Egb.
    destruct (0 <=? nc); [|discriminate Egb].
    rewrite Z.eqb_refl in Egb. injection Egb as <-. reflexivity.
Qed.

(** With the terms of the contraction added in the order of their
    indices: when [backward] returns, [db[0, 0, 0, d]] is the sum of
    [dZ[a, i, j, d]] over the batch and both spatial axes. *)
Lemma backward_db_in_index_order (s s' : ConvLayer T) (dA g : ndarray T) :
  backward dA s = (s', Returned g) ->
  exists dZ m nh nw nc,
    backward_dZ dA s = (s, Returned dZ) /\
    shape dZ = [m; nh; nw; nc] /\
    db s'
    = build4 1 1 1 nc (fun _ _ _ d =>
        sum_range m (fun a => sum_range nh (fun i => sum_range nw (fun j =>
          get4 dZ a i j d)))).
Proof.
  intros E. apply backward_inv in E
    as (X_pad & dZ & m & nh & nw & nc & f0 & f1 & c_in & c_out & p0 & p1 & p2
        & p3 & EdZ & HdZ & _ & _ & _ & _ & _ & _ & _ & Hdb).
  exists dZ, m, nh, nw, nc. repeat split; assumption.
Qed.

(** With the terms of the contraction added in the order of their
    indices: when [backward] returns, [dW[p, q, r, d]] is, before the
    term [lamb / dim_in[0] * W] is added, the sum over [a, i, j] of
    [dZ[a, i, j, d] * X_pad[a, p + i * stride, q + j * stride, r]]. *)
Lemma backward_dW_in_index_order (s s' : ConvLayer T) (dA g : ndarray T) :
  backward dA s = (s', Returned g) ->
  exists dZ X_pad m nh nw nc f0 f1 c_in c_out,
    backward_dZ dA s = (s, Returned dZ) /\
    shape dZ = [m; nh; nw; nc] /\
    shape (W s) = [f0; f1; c_in; c_out] /\
    np_pad (X s) (pad s) = Returned X_pad /\
    regularised s
      (build4 f1 f1 c_in nc (fun p q r d =>
         sum_range m (fun a => sum_range nh (fun i => sum_range nw (fun j =>
           smul (get4 dZ a i j d)
                (get4 X_pad a (p + i * stride s) (q + j * stride s) r))))))
      (dW s').
Proof.
  intros E. apply backward_inv in E
    as (X_pad & dZ & m & nh & nw & nc & f0 & f1 & c_in & c_out & p0 & p1 & p2
        & p3 & EdZ & HdZ & HW & EXp & _ & _ & _ & _ & HdW & _).
  exists dZ, X_pad, m, nh, nw, nc, f0, f1, c_in, c_out.
  repeat split; assumption.
Qed.

(** With the terms of the contraction added in the order of their
    indices: when [backward] returns, [dX[b, m, n, r]] is the sum over
    [p, q, c] of
    [W[f0 - 1 - p, f1 - 1 - q, r, c] * dZ_pad[b, m + p, n + q, c]];
    [dZ_pad] is the buffer of the layer, or a fresh array of zeros when
    the batch size differs, with [dZ] assigned to its strided
    interior. *)
Lemma backward_dX_in_index_order (s s' : ConvLayer T) (dA g : ndarray T) :
  backward dA s = (s', Returned g) ->
  exists dZ m nh nw nc f0 f1 c_in c_out p0 p1 p2 p3 pb,
    backward_dZ dA s = (s, Returned dZ) /\
    shape dZ = [m; nh; nw; nc] /\
    shape (W s) = [f0; f1; c_in; c_out] /\
    (pb = dZ_pad s \/ snd (allocate_dZ_pad m s) = Returned pb) /\
    (if f0 - (pad s + 1) =? 0
     then assign12 pb (Slice (Some 0) None (stride s))
            (Slice (Some 0) None (stride s)) dZ
     else assign12 pb
            (Slice (Some (f0 - (pad s + 1))) (Some (- (f0 - (pad s + 1))))
               (stride s))
            (Slice (Some (f0 - (pad s + 1))) (Some (- (f0 - (pad s + 1))))
               (stride s)) dZ) = Returned (dZ_pad s') /\
    shape (dZ_pad s') = [p0; p1; p2; p3] /\
    g = dX s' /\
    dX s'
    = build4 p0 (p1 - f0 + 1) (p2 - f1 + 1) c_in (fun b' m' n r =>
        sum_range f0 (fun p => sum_range f1 (fun q => sum_range c_out (fun c =>
          smul (get4 (W s) (f0 - 1 - p) (f1 - 1 - q) r c)
               (get4 (dZ_pad s') b' (m' + p) (n + q) c))))).
Proof.
  intros E. apply backward_inv in E
    as (X_pad & dZ & m & nh & nw & nc & f0 & f1 & c_in & c_out & p0 & p1 & p2
        & p3 & EdZ & HdZ & HW & _ & HP & (pb & Hpb & Epb) & Hg & HdX & _ & _).
  exists dZ, m, nh, nw, nc, f0, f1, c_in, c_out, p0, p1, p2, p3, pb.
  repeat split; assumption.
Qed.

End BackwardValues.

(** X9: on integers the input gradient is exact.  When [backward]
    returns and the elements of the weights and of the buffer [dZ_pad]
    it leaves are integers [wi], [pi] bounded by [Bw], [Bp] with
    [f0 * f1 * c_out * Bw * Bp < 2^53], the array returned is [dX], and
    [dX[b, m, n, r]] is the integer sum over [p, q, c] of
    [wi[f0 - 1 - p, f1 - 1 - q, r, c] * pi[b, m + p, n + q, c]]. *)
Theorem backward_input_gradient_exact (s s' : ConvLayer B64.float)
    (dA g : ndarray B64.float) (wi pi : Z -> Z -> Z -> Z -> Z)
    (f0 f1 c_in c_out p0 p1 p2 Bw Bp : Z) :
  backward dA s = (s', Returned g) ->
  shape (W s) = [f0; f1; c_in; c_out] ->
  shape (dZ_pad s') = [p0; p1; p2; c_out] ->
  0 <= f0 -> 0 <= f1 -> 0 <= c_out ->
  (forall p q r c,
     0 <= p < f0 -> 0 <= q < f1 -> 0 <= r < c_in -> 0 <= c < c_out ->
     holds_int (wi p q r c) (get4 (W s) p q r c) /\ Z.abs (wi p q r c) <= Bw) ->
  (forall b' j k c,
     0 <= b' < p0 -> 0 <= j < p1 -> 0 <= k < p2 -> 0 <= c < c_out ->
     holds_int (pi b' j k c) (get4 (dZ_pad s') b' j k c)
     /\ Z.abs (pi b' j k c) <= Bp) ->
  0 <= Bw < 2 ^ 53 -> 0 <= Bp < 2 ^ 53 ->
  f0 * f1 * c_out * (Bw * Bp) < 2 ^ 53 ->
  g = dX s' /\
  shape g = [p0; p1 - f0 + 1; p2 - f1 + 1; c_in] /\
  forall b' m' n r,
    0 <= b' < p0 -> 0 <= m' < p1 - f0 + 1 -> 0 <= n < p2 - f1 + 1 ->
    0 <= r < c_in ->
    holds_int
      (int_sum f0 (fun p => int_sum f1 (fun q => int_sum c_out (fun c =>
         wi (f0 - 1 - p) (f1 - 1 - q) r c * pi b' (m' + p) (n + q) c))))
      (get4 g b' m' n r).
Proof.
  intros E HW HP Hf0 Hf1 Hco Hw Hpi HBw HBp Hb.
  apply backward_dX_in_index_order in E
    as (dZ & m & nh & nw & nc & f0' & f1' & c_in' & c_out' & p0' & p1' & p2'
        & p3' & pb & _ & _ & HW' & _ & _ & HP' & Hg & HdX).
  rewrite HW in HW'. injection HW' as <- <- <- <-.
  rewrite HP in HP'. injection HP' as <- <- <- <-.
  split; [exact Hg|]. rewrite Hg, HdX. split; [reflexivity|].
  intros b' m' n r Hb' Hm' Hn Hr.
  rewrite get4_build4 by lia.
  assert (HB0 : 0 <= Bw * Bp) by nia.
  refine (proj1 (@sum3_holds f0 f1 c_out
                   (fun p q c => smul (get4 (W s) (f0 - 1 - p) (f1 - 1 - q) r c)
                      (get4 (dZ_pad s') b' (m' + p) (n + q) c))
                   (fun p q c => wi (f0 - 1 - p) (f1 - 1 - q) r c
                      * pi b' (m' + p) (n + q) c)
                   (Bw * Bp) Hf0 Hf1 Hco HB0 Hb _)).
  intros p q c Hp Hq Hc.
  destruct (Hw (f0 - 1 - p) (f1 - 1 - q) r c) as [W1 W2]; try lia.
  destruct (Hpi b' (m' + p) (n + q) c) as [P1 P2]; try lia.
  pose proof (abs_mul_le _ _ W2 P2) as HP2.
  assert (Bw * Bp <= f0 * f1 * c_out * (Bw * Bp)) by (apply le_mul3; lia).
  split; [|exact HP2].
  apply mul_holds; try assumption; lia.
Qed.

(** X10: on integers the weight gradient is exact.  When [backward]
    returns, the windows fit the padded input, and the elements of [dZ]
    and of the cached input are integers [zi], [xi] bounded by [Bz],
    [Bx] with [m * n_H * n_W * Bz * Bx < 2^53], the array to which
    [lamb / dim_in[0] * W] is added to give [dW] holds at [(p, q, r, d)]
    the integer sum over [a, i, j] of
    [zi[a, i, j, d] * xi_pad[a, p + i * stride, q + j * stride, r]]. *)
Theorem backward_weight_gradient_exact (s s' : ConvLayer B64.float)
    (dA g dZ : ndarray B64.float) (zi xi : Z -> Z -> Z -> Z -> Z)
    (m h w c_in fw nh nw nc m0 h0 w0 c0 Bz Bx : Z) :
  backward dA s = (s', Returned g) ->
  dim_in s = (m0, h0, w0, c0) ->
  backward_dZ dA s = (s, Returned dZ) ->
  shape dZ = [m; nh; nw; nc] ->
  shape (X s) = [m; h; w; c_in] ->
  shape (W s) = [fw; fw; c_in; nc] ->
  0 <= m -> 0 <= nh -> 0 <= nw -> 0 <= pad s -> 0 <= stride s ->
  fw + (nh - 1) * stride s <= h + 2 * pad s ->
  fw + (nw - 1) * stride s <= w + 2 * pad s ->
  (forall a i j d, 0 <= a < m -> 0 <= i < nh -> 0 <= j < nw -> 0 <= d < nc ->
     holds_int (zi a i j d) (get4 dZ a i j d) /\ Z.abs (zi a i j d) <= Bz) ->
  (forall a j k r, 0 <= a < m -> 0 <= j < h -> 0 <= k < w -> 0 <= r < c_in ->
     holds_int (xi a j k r) (get4 (X s) a j k r) /\ Z.abs (xi a j k r) <= Bx) ->
  0 <= Bz < 2 ^ 53 -> 0 <= Bx < 2 ^ 53 ->
  m * nh * nw * (Bz * Bx) < 2 ^ 53 ->
  exists G,
    inplace2 sadd G (map_array (smul (sdiv (lamb s) (of_int m0))) (W s))
    = Returned (dW s') /\
    shape G = [fw; fw; c_in; nc] /\
    forall p q r d,
      0 <= p < fw -> 0 <= q < fw -> 0 <= r < c_in -> 0 <= d < nc ->
      holds_int
        (int_sum m (fun a => int_sum nh (fun i => int_sum nw (fun j =>
           zi a i j d
           * int_padded xi h w (pad s) a (p + i * stride s) (q + j * stride s)
               r))))
        (get4 G p q r d).
Proof.
  intros E Hdim EdZ HdZ HX HW Hm Hnh Hnw Hp Hs Hfh Hfw Hz Hx HBz HBx Hb.
  apply backward_dW_in_index_order in E
    as (dZ' & X_pad & m' & nh' & nw' & nc' & f0 & f1 & c_in' & c_out & EdZ'
        & HdZ' & HW' & EXp & Hreg).
  rewrite EdZ in EdZ'. injection EdZ' as <-.
  rewrite HdZ in HdZ'. injection HdZ' as <- <- <- <-.
  rewrite HW in HW'. injection HW' as <- <- <- <-.
  unfold regularised in Hreg. rewrite Hdim in Hreg. destruct Hreg as [_ Hreg].
  eexists. split; [exact Hreg|]. split; [reflexivity|].
  intros p q r d Hp' Hq' Hr' Hd'.
  rewrite get4_build4 by lia.
  assert (HB0 : 0 <= Bz * Bx) by nia.
  refine (proj1 (@sum3_holds m nh nw
                   (fun a i j => smul (get4 dZ a i j d)
                      (get4 X_pad a (p + i * stride s) (q + j * stride s) r))
                   (fun a i j => zi a i j d
                      * int_padded xi h w (pad s) a (p + i * stride s)
                          (q + j * stride s) r)
                   (Bz * Bx) Hm Hnh Hnw HB0 Hb _)).
  intros a i j Ha Hi Hj.
  destruct (Hz a i j d Ha Hi Hj Hd') as [Z1 Z2].
  assert (Hj' : 0 <= p + i * stride s < h + 2 * pad s) by nia.
  assert (Hk' : 0 <= q + j * stride s < w + 2 * pad s) by nia.
  rewrite (@np_pad_get4 _ _ (X s) X_pad m h w c_in (pad s) a
             (p + i * stride s) (q + j * stride s) r HX EXp Ha Hj' Hk' Hr').
  destruct (@padded_at_holds (X s) xi m h w c_in (pad s) a
              (p + i * stride s) (q + j * stride s) r Bx) as [X1 X2];
    try assumption; try lia.
  pose proof (abs_mul_le _ _ Z2 X2) as HP.
  assert (Bz * Bx <= m * nh * nw * (Bz * Bx)) by (apply le_mul3; lia).
  split; [|exact HP].
  apply mul_holds; try assumption; lia.
Qed.

(** X11: on integers the bias gradient is exact.  When [backward]
    returns and the elements of [dZ = dA * _deriv_relu(Z)] are integers
    [zi] bounded by [Bz] with [m * n_H * n_W * Bz < 2^53],
    [db[0, 0, 0, d]] is the integer sum of [zi[a, i, j, d]] over the
    batch and both spatial axes. *)
Theorem backward_bias_gradient_exact (s s' : ConvLayer B64.float)
    (dA g dZ : ndarray B64.float) (zi : Z -> Z -> Z -> Z -> Z)
    (m nh nw nc Bz : Z) :
  backward dA s = (s', Returned g) ->
  backward_dZ dA s = (s, Returned dZ) ->
  shape dZ = [m; nh; nw; nc] ->
  0 <= m -> 0 <= nh -> 0 <= nw ->
  (forall a i j d, 0 <= a < m -> 0 <= i < nh -> 0 <= j < nw -> 0 <= d < nc ->
     holds_int (zi a i j d) (get4 dZ a i j d) /\ Z.abs (zi a i j d) <= Bz) ->
  0 <= Bz -> m * nh * nw * Bz < 2 ^ 53 ->
  forall d, 0 <= d < nc ->
    holds_int
      (int_sum m (fun a => int_sum nh (fun i => int_sum nw (fun j =>
         zi a i j d))))
      (get4 (db s') 0 0 0 d).
Proof.
  intros E EdZ HdZ Hm Hnh Hnw Hz HB Hb d Hd.
  apply backward_db_in_index_order in E
    as (dZ' & m' & nh' & nw' & nc' & EdZ' & HdZ' & ->).
  rewrite EdZ in EdZ'. injection EdZ' as <-.
  rewrite HdZ in HdZ'. injection HdZ' as <- <- <- <-.
  rewrite get4_build4 by lia.
  refine (proj1 (@sum3_holds m nh nw (fun a i j => get4 dZ a i j d)
                   (fun a i j => zi a i j d) Bz Hm Hnh Hnw HB Hb _)).
  intros a i j Ha Hi Hj. apply Hz; assumption.
Qed.

(** ** Gradients that are rejected *)

Section Rejected.

Context {T : Type} `{Scalar T}.

(** X14: a two-axis gradient whose size is not that of
    [(dA.shape[1], *dim_out[1:])] is rejected by the reshape, the first
    thing [backward] does: ValueError, and the layer is as it was. *)
Theorem backward_flattened_wrong_size (s : ConvLayer T) (dA : ndarray T)
    (n m m0 h_out w_out c_out : Z) :
  shape dA = [n; m] -> dim_out s = (m0, h_out, w_out, c_out) ->
  0 <= m -> 0 <= h_out -> 0 <= w_out -> 0 <= c_out ->
  n * m <> m * h_out * w_out * c_out ->
  backward dA s = (s, Raised ValueError).
Proof.
  intros Hsh Hout Hm Hh Hw Hc Hne.
  unfold backward, backward_contract, backward_dZ, mbind, read, lift, axis.
  rewrite Hsh. cbn [length Nat.eqb nth_error]. rewrite Hout.
  unfold reshape4.
  replace ((0 <=? m) && (0 <=? h_out) && (0 <=? w_out) && (0 <=? c_out))
    with true
    by (symmetry; rewrite !andb_true_iff, !Z.leb_le; lia).
  rewrite Hsh. cbn [size_of fold_right].
  replace (n * (m * 1) =? m * (h_out * (w_out * (c_out * 1)))) with false
    by (symmetry; apply Z.eqb_neq; nia).
  reflexivity.
Qed.

(** X18: [conv_backward] unpacks [dA.shape] into four names: a gradient
    that has not four axes, the flattened one that [backward] accepts
    among them, raises ValueError, after [dW] and [db] have been set to
    zero. *)
Theorem conv_backward_needs_four_axes (s : ConvLayer T) (dA : ndarray T)
    d0 d1 d2 d3 e0 e1 e2 e3 :
  shape (dW s) = [d0; d1; d2; d3] -> shape (db s) = [e0; e1; e2; e3] ->
  length (shape dA) <> 4%nat ->
  conv_backward dA s
  = (set_db (full e0 e1 e2 e3 szero) (set_dW (full d0 d1 d2 d3 szero) s),
     Raised ValueError).
Proof.
  intros HdW Hdb Hrank.
  unfold conv_backward, conv_backward_accumulate, mbind, read, write, lift.
  rewrite (fill_zero_returns _ HdW). cbn [db set_dW].
  rewrite (fill_zero_returns _ Hdb).
  unfold exactly4.
  destruct (shape dA) as [|? [|? [|? [|? [|]]]]]; cbn [length] in Hrank;
    try reflexivity.
  contradiction Hrank. reflexivity.
Qed.

End Rejected.

(** ** The Adam update at step zero, and on a new layer *)

Section AdamStepZero.

Lemma one_minus_one : B64.sub B64.one B64.one = B64.zero.
Proof. vm_compute. reflexivity. Qed.

Lemma div_by_zero (x : B64.float) : nan_or_infinity (B64.div x B64.zero).
Proof.
  destruct x as [s|s| |s m e];
    [left; reflexivity|right; exists s|left; reflexivity|right; exists s];
    destruct s; reflexivity.
Qed.

Lemma mul_nan_or_infinity (r x : B64.float) :
  nan_or_infinity x -> nan_or_infinity (B64.mul r x).
Proof.
  intros [->|[s ->]].
  - left. destruct r; reflexivity.
  - destruct r as [sr|sr| |sr m e]; [left|right|left|right];
      try reflexivity; eexists; reflexivity.
Qed.

Lemma sqrt_add_nan_or_infinity (y eps : B64.float) :
  nan_or_infinity y -> nan_or_infinity (B64.add (B64.sqrt y) eps).
Proof.
  intros [->|[s ->]].
  - left. destruct eps; reflexivity.
  - destruct s; [left; destruct eps; reflexivity|].
    destruct eps as [se|[|]| |se m e]; [right|left|right|left|right];
      try reflexivity; eexists; reflexivity.
Qed.

Lemma div_nan_or_infinity (x y : B64.float) :
  nan_or_infinity x -> nan_or_infinity y -> B64.div x y = S754_nan.
Proof.
  intros [->|[s ->]] [->|[s' ->]]; reflexivity.
Qed.

Lemma sub_nan (w : B64.float) : B64.sub w S754_nan = S754_nan.
Proof. destruct w; reflexivity. Qed.

(** The step subtracted from a parameter when both corrections divide
    by zero. *)
Lemma step_at_zero (w x y rate eps : B64.float) :
  B64.sub w
    (B64.div (B64.mul rate (B64.div x B64.zero))
       (B64.add (B64.sqrt (B64.div y B64.zero)) eps)) = S754_nan.
Proof.
  rewrite div_nan_or_infinity; [apply sub_nan| |].
  - apply mul_nan_or_infinity, div_by_zero.
  - apply sqrt_add_nan_or_infinity, div_by_zero.
Qed.

Lemma adam_parameter_nan (rate eps : B64.float)
    (v q w step w' : ndarray B64.float) m0 m1 m2 m3 g k0 k1 k2 k3 h :
  shape4 v = Returned (m0, m1, m2, m3) ->
  at_least_4d v = build4 m0 m1 m2 m3 g ->
  shape4 q = Returned (k0, k1, k2, k3) ->
  at_least_4d q = build4 k0 k1 k2 k3 h ->
  broadcast2 sdiv
    (map_array (smul rate) (map_array (fun e => sdiv e B64.zero) v))
    (map_array (fun e => sadd (ssqrt e) eps)
       (map_array (fun e => sdiv e B64.zero) q)) = Returned step ->
  inplace2 ssub w step = Returned w' ->
  shape w' = shape w /\ Forall (fun e => e = S754_nan) (data w').
Proof.
  intros Hv Hv4 Hq Hq4 Es Ew.
  apply inplace2_inv in Ew
    as (a0 & a1 & a2 & a3 & b0 & b1 & b2 & b3 & Hw & Hs4 & S0 & S1 & S2 & S3
        & ->).
  apply broadcast2_inv in Es
    as (p0 & p1 & p2 & p3 & r0 & r1 & r2 & r3 & n0 & n1 & n2 & n3
        & HA & HB & D0 & D1 & D2 & D3 & Hs4' & Hstep).
  rewrite Hs4 in Hs4'. injection Hs4' as <- <- <- <-.
  rewrite !shape4_map_array in HA, HB.
  rewrite Hv in HA. injection HA as <- <- <- <-.
  rewrite Hq in HB. injection HB as <- <- <- <-.
  rewrite !at_least_4d_map_array, Hv4, Hq4, !map_array_build4 in Hstep.
  apply broadcast_dim_stretches in D0 as [A0 B0], D1 as [A1 B1],
    D2 as [A2 B2], D3 as [A3 B3].
  split; [rewrite Hw; reflexivity|].
  apply Forall_build4. intros i j k l Hi Hj Hk Hl.
  rewrite Hstep.
  rewrite (@bget4_build4 _ _ b0 b1 b2 b3 _ a0 a1 a2 a3) by assumption.
  pose proof (bidx_stretches _ S0 Hi). pose proof (bidx_stretches _ S1 Hj).
  pose proof (bidx_stretches _ S2 Hk). pose proof (bidx_stretches _ S3 Hl).
  rewrite (@bget4_build4 _ _ m0 m1 m2 m3 _ b0 b1 b2 b3) by assumption.
  rewrite (@bget4_build4 _ _ k0 k1 k2 k3 _ b0 b1 b2 b3) by assumption.
  apply step_at_zero.
Qed.

(** X20: with [t = 0] both bias corrections are [1 - beta**0 = 0]; a call
    of [update_parameters] that returns leaves NaN in every element of
    [W] and of [b], whatever the gradients, the moments, the rate and
    [epsilon]. *)
Theorem update_at_step_zero_is_nan (pow : B64.float -> Z -> B64.float)
    (rate beta1 beta2 epsilon : B64.float) (s s' : ConvLayer B64.float) u :
  pow beta1 0 = B64.one -> pow beta2 0 = B64.one ->
  update_parameters pow rate 0 beta1 beta2 epsilon s = (s', Returned u) ->
  shape (W s') = shape (W s) /\
  Forall (fun e => e = S754_nan) (data (W s')) /\
  shape (b s') = shape (b s) /\
  Forall (fun e => e = S754_nan) (data (b s')).
Proof.
  intros P1 P2 E. unfold update_parameters in E. rewrite P1, P2 in E.
  change (ssub sone B64.one) with (B64.sub B64.one B64.one) in E.
  rewrite one_minus_one in E.
  step E. step E. step E as v1 Ev1. step E.
  step E. step E. step E as v2 Ev2. step E.
  step E. step E. step E as q1 Eq1. step E.
  step E. step E. step E as q2 Eq2. step E.
  step E. step E. step E. step E. step E.
  step E as stepW EsW. step E as w1 Ew1. step E. step E.
  step E as stepb Esb. step E as w2 Ew2.
  apply write_inv in E. subst s'.
  cbn [W b vW vb sW sb set_vW set_vb set_sW set_sb set_W set_b] in *.
  apply broadcast2_inv in Ev1
    as (? & ? & ? & ? & ? & ? & ? & ? & ? & ? & ? & ?
        & _ & _ & _ & _ & _ & _ & Hv1 & Hv1').
  apply broadcast2_inv in Ev2
    as (? & ? & ? & ? & ? & ? & ? & ? & ? & ? & ? & ?
        & _ & _ & _ & _ & _ & _ & Hv2 & Hv2').
  apply broadcast2_inv in Eq1
    as (? & ? & ? & ? & ? & ? & ? & ? & ? & ? & ? & ?
        & _ & _ & _ & _ & _ & _ & Hq1 & Hq1').
  apply broadcast2_inv in Eq2
    as (? & ? & ? & ? & ? & ? & ? & ? & ? & ? & ? & ?
        & _ & _ & _ & _ & _ & _ & Hq2 & Hq2').
  destruct (@adam_parameter_nan rate epsilon v1 q1 _ _ _ _ _ _ _ _ _ _ _ _ _
              Hv1 Hv1' Hq1 Hq1' EsW Ew1) as [SW NW].
  destruct (@adam_parameter_nan rate epsilon v2 q2 _ _ _ _ _ _ _ _ _ _ _ _ _
              Hv2 Hv2' Hq2 Hq2' Esb Ew2) as [Sb Nb].
  repeat split; assumption.
Qed.

(** X21: a layer that the constructor has just returned holds zero
    gradients and zero moments, and is left as it is by
    [update_parameters], at every step [t] at which the bias
    corrections are positive. *)
Theorem update_after_init (m h w c_in k c st p : Z) (act : string)
    (lam : B64.float) (randn : ndarray B64.float)
    (layer : ConvLayer B64.float) pow rate t beta1 beta2 epsilon :
  init (m, h, w, c_in) k c st p act lam randn = Returned layer ->
  Z.of_nat (length (data randn)) = k * k * c_in * c ->
  adam_scalars rate beta1 beta2 epsilon = true ->
  adam_step pow beta1 beta2 t = true ->
  update_parameters pow rate t beta1 beta2 epsilon layer
  = (layer, Returned tt).
Proof.
  intros Hi Hlen Ha Ht.
  pose proof Hi as Hinv. apply init_inv in Hinv
    as (_ & _ & _ & _ & _ & _ & _ & _ & HW & Hb & _ & HdW & Hdb & HvW & Hvb
        & HsW & Hsb & _ & _ & _ & Hc & Hk & Hco).
  assert (Z.of_nat (length (data (W layer))) = k * k * c_in * c) as HlW.
  { unfold init in Hi.
    repeat match type of Hi with
           | obind _ _ = Returned _ =>
               let E := fresh "E" in
               apply obind_inv in Hi as (? & E & Hi)
           end.
    injection Hi as <-. cbn [W set_dZ_pad].
    match goal with
    | E : init_weights _ _ _ _ = Returned _ |- _ =>
        unfold init_weights in E;
        destruct ((0 <=? k) && (0 <=? c_in) && (0 <=? c)); [|discriminate E];
        destruct (same_shape _ _); [|discriminate E];
        destruct (negb _); [|discriminate E];
        injection E as <-
    end.
    unfold map_array. cbn [data]. rewrite length_map. exact Hlen. }
  eapply update_once with (n0 := k) (n1 := k) (n2 := c_in) (n3 := c)
    (k0 := 1) (k1 := 1) (k2 := 1) (k3 := c); try eassumption; try lia.
  - rewrite Hb. reflexivity.
  - rewrite Hb. apply length_build4; lia.
Qed.

End AdamStepZero.

(** ** The end-to-end example *)

Lemma example_init_layer lamb randn layer :
  example_init lamb randn = Returned layer ->
  set_W (ones 2 2 1 1) layer = example_layer lamb.
Proof.
  intros Hi. destruct randn as [sh d].
  unfold example_init, init, init_weights in Hi.
  cbn -[same_shape map_array zeros zeros_like allocate_dZ_pad] in Hi.
  destruct (same_shape sh [2; 2; 1; 1]) eqn:E; [|discriminate Hi].
  apply same_shape_eq in E. subst sh.
  cbn -[map_array] in Hi. injection Hi as <-. reflexivity.
Qed.

(** C8: on the example layer, [forward] of the all-ones input returns a
    [(2, 3, 3, 1)] array whose entries are all exactly [4]. *)
Theorem forward_all_ones lamb randn layer :
  example_init lamb randn = Returned layer ->
  snd (forward (ones 2 4 4 1) (set_W (ones 2 2 1 1) layer))
  = Returned (Some (full 2 3 3 1 (B64.of_Z 4))).
Proof.
  intros Hi. rewrite (example_init_layer _ _ Hi). vm_compute. reflexivity.
Qed.

Lemma forward_all_ones_witness :
  exists layer,
    example_init B64.zero (ones 2 2 1 1) = Returned layer /\
    snd (forward (ones 2 4 4 1) (set_W (ones 2 2 1 1) layer))
    = Returned (Some (full 2 3 3 1 (B64.of_Z 4))).
Proof.
  eexists. split; [vm_compute; reflexivity|].
  apply (@forward_all_ones B64.zero (ones 2 2 1 1)). vm_compute. reflexivity.
Defined.

(** C9: on the example layer, after [forward] of the all-ones input, a
    backward pass on the all-ones gradient of shape [dim_out] leaves
    [db = m * H_out * W_out = 18] in its one channel: [backward] returns
    with it, and [conv_backward] has accumulated it when it stops. *)
Theorem backward_all_ones_bias lamb randn layer :
  example_init lamb randn = Returned layer ->
  let s := fst (forward (ones 2 4 4 1) (set_W (ones 2 2 1 1) layer)) in
  returns (snd (backward (ones 2 3 3 1) s)) = true /\
  db (fst (backward (ones 2 3 3 1) s)) = full 1 1 1 1 (B64.of_Z (2 * 3 * 3)) /\
  db (fst (conv_backward (ones 2 3 3 1) s)) = full 1 1 1 1 (B64.of_Z (2 * 3 * 3)).
Proof.
  intros Hi. rewrite (example_init_layer _ _ Hi).
  split; [vm_compute; reflexivity|].
  split; [vm_compute; reflexivity|].
  vm_compute; reflexivity.
Qed.

Lemma backward_all_ones_bias_witness :
  exists layer,
    example_init B64.zero (ones 2 2 1 1) = Returned layer /\
    let s := fst (forward (ones 2 4 4 1) (set_W (ones 2 2 1 1) layer)) in
    returns (snd (backward (ones 2 3 3 1) s)) = true /\
    db (fst (backward (ones 2 3 3 1) s))
    = full 1 1 1 1 (B64.of_Z (2 * 3 * 3)) /\
    db (fst (conv_backward (ones 2 3 3 1) s))
    = full 1 1 1 1 (B64.of_Z (2 * 3 * 3)).
Proof.
  eexists. split; [vm_compute; reflexivity|].
  apply (@backward_all_ones_bias B64.zero (ones 2 2 1 1)).
  vm_compute. reflexivity.
Defined.

(** C1, at the example layer: after [forward] of the all-ones input and
    on the all-ones gradient, [backward] returns while [conv_backward]
    raises, so the two passes do not produce the same gradients. *)
Theorem backward_returns_conv_backward_raises :
  exists layer s g,
    example_init B64.zero (ones 2 2 1 1) = Returned layer /\
    s = fst (forward (ones 2 4 4 1) (set_W (ones 2 2 1 1) layer)) /\
    snd (backward (ones 2 3 3 1) s) = Returned g /\
    snd (conv_backward (ones 2 3 3 1) s) = Raised ValueError.
Proof.
  do 3 eexists. split; [vm_compute; reflexivity|].
  split; [reflexivity|].
  split; [vm_compute; reflexivity|].
  vm_compute; reflexivity.
Qed.

(** C2, at the example layer, whose activation is ['none']: with the
    cached [Z] positive (input all ones) the all-ones gradient gives
    [db = 18]; with the cached [Z] negative (input all minus one) the
    same gradient is masked to zero, and [db] and [dX] vanish. *)
Theorem backward_none_depends_on_sign_of_Z :
  exists layer s_pos s_neg t_pos t_neg g_pos g_neg,
    example_init B64.zero (ones 2 2 1 1) = Returned layer /\
    activation layer = "none"%string /\
    forward (ones 2 4 4 1) (set_W (ones 2 2 1 1) layer)
    = (s_pos, Returned (Some (full 2 3 3 1 (B64.of_Z 4)))) /\
    forward (full 2 4 4 1 (B64.of_Z (-1))) (set_W (ones 2 2 1 1) layer)
    = (s_neg, Returned (Some (full 2 3 3 1 (B64.of_Z (-4))))) /\
    backward (ones 2 3 3 1) s_pos = (t_pos, Returned g_pos) /\
    backward (ones 2 3 3 1) s_neg = (t_neg, Returned g_neg) /\
    db t_pos = full 1 1 1 1 (B64.of_Z 18) /\
    db t_neg = full 1 1 1 1 B64.zero /\
    g_neg = full 2 4 4 1 B64.zero /\
    g_pos <> g_neg.
Proof.
  do 7 eexists. split; [vm_compute; reflexivity|].
  split; [vm_compute; reflexivity|].
  split; [vm_compute; reflexivity|].
  split; [vm_compute; reflexivity|].
  split; [vm_compute; reflexivity|].
  split; [vm_compute; reflexivity|].
  split; [vm_compute; reflexivity|].
  split; [vm_compute; reflexivity|].
  split; [vm_compute; reflexivity|].
  vm_compute. discriminate.
Qed.

(** C3, on a layer with [pad = 1] (input shape [(1, 3, 3, 1)], [f = 2],
    one channel, stride 1, weights set to one, after [forward] of the
    all-ones input): a second [conv_backward] with the same gradient
    returns twice the [dX] of the first, the padded buffer being seeded
    with the [dX] left by the first call; [dW] and [db] are recomputed,
    and [backward] returns the same [dX] both times. *)
Theorem conv_backward_accumulates_dX :
  exists layer s s1 s2 g1 g2 t1 t2,
    init (1, 3, 3, 1) 2 1 1 1 "relu" B64.zero (ones 2 2 1 1) = Returned layer /\
    s = fst (forward (ones 1 3 3 1) (set_W (ones 2 2 1 1) layer)) /\
    conv_backward (ones 1 4 4 1) s = (s1, Returned g1) /\
    conv_backward (ones 1 4 4 1) s1 = (s2, Returned g2) /\
    g1 = full 1 3 3 1 (B64.of_Z 4) /\
    g2 = full 1 3 3 1 (B64.of_Z 8) /\
    X s1 = X s /\ Zcache s1 = Zcache s /\ W s1 = W s /\ b s1 = b s /\
    dW s2 = dW s1 /\ db s2 = db s1 /\
    backward (ones 1 4 4 1) s = (t1, Returned g1) /\
    backward (ones 1 4 4 1) t1 = (t2, Returned g1).
Proof.
  do 8 eexists. split; [vm_compute; reflexivity|].
  split; [vm_compute; reflexivity|].
  split; [vm_compute; reflexivity|].
  split; [vm_compute; reflexivity|].
  split; [vm_compute; reflexivity|].
  split; [vm_compute; reflexivity|].
  split; [vm_compute; reflexivity|].
  split; [vm_compute; reflexivity|].
  split; [vm_compute; reflexivity|].
  split; [vm_compute; reflexivity|].
  split; [vm_compute; reflexivity|].
  split; [vm_compute; reflexivity|].
  split; [vm_compute; reflexivity|].
  vm_compute; reflexivity.
Qed.

(** ** The integer part of a binary64 quotient *)

(** The geometry of the end-to-end example and a larger one; from 2^53
    on the quotient is rounded before [int] takes its integer part, and
    beyond the range of binary64 the division raises. *)
Lemma int_truediv_examples :
  int_truediv (4 - 2 + 2 * 0) 1 = Returned 2 /\
  int_truediv (224 - 7 + 2 * 3) 2 = Returned 111 /\
  int_truediv (1 - 4 + 2 * 0) 2 = Returned (-1) /\
  int_truediv (2 ^ 53 + 1) 1 = Returned (2 ^ 53) /\
  int_truediv (3 * (2 ^ 53 + 1)) 3 = Returned (2 ^ 53) /\
  int_truediv (1 - 2 ^ 54) (2 ^ 53) = Returned (-2) /\
  int_truediv (2 ^ 1024) 1 = Raised OverflowError /\
  int_truediv 1 0 = Raised ZeroDivisionError.
Proof. vm_compute. repeat split. Qed.

(** ** The two backward passes on padded layers

    With [1 <= pad <= f - 1], a [dX] that is still zero and the batch
    size of the construction, the two passes return the same gradients
    on these inputs, whose sums are exact in binary64: stride 1 on the
    padded example layer, and stride 2 on a layer with two channels in
    and out, a [3 x 3] filter and a rectangular input. *)
Lemma backward_passes_agree_stride_1 :
  exists s t1 t2 g,
    s = fst (forward (ramp 2 3 3 1 (-7)) (padded_layer B64.one)) /\
    backward (ramp 2 4 4 1 (-11)) s = (t1, Returned g) /\
    conv_backward (ramp 2 4 4 1 (-11)) s = (t2, Returned g) /\
    dX t1 = dX t2 /\ dW t1 = dW t2 /\ db t1 = db t2.
Proof.
  do 4 eexists. split; [reflexivity|].
  split; [vm_compute; reflexivity|].
  split; [vm_compute; reflexivity|].
  split; [vm_compute; reflexivity|].
  split; vm_compute; reflexivity.
Qed.

Lemma backward_passes_agree_stride_2 :
  exists layer s t1 t2 g,
    init (2, 4, 5, 2) 3 2 2 1 "relu" B64.one (ramp 3 3 2 2 1) = Returned layer /\
    s = fst (forward (ramp 2 4 5 2 (-30)) (set_W (ramp 3 3 2 2 (-9)) layer)) /\
    dim_out s = (2, 2, 3, 2) /\
    backward (ramp 2 2 3 2 (-5)) s = (t1, Returned g) /\
    conv_backward (ramp 2 2 3 2 (-5)) s = (t2, Returned g) /\
    dX t1 = dX t2 /\ dW t1 = dW t2 /\ db t1 = db t2.
Proof.
  do 5 eexists. split; [vm_compute; reflexivity|].
  split; [reflexivity|].
  split; [vm_compute; reflexivity|].
  split; [vm_compute; reflexivity|].
  split; [vm_compute; reflexivity|].
  split; [vm_compute; reflexivity|].
  split; vm_compute; reflexivity.
Qed.

(** With a padding that reaches the filter size the optimized pass is the
    one that raises: [pad_dZ] is negative and the slice of [dZ_pad] that
    should receive [dZ] is empty. *)
Lemma backward_raises_when_padding_reaches_filter :
  exists layer s g,
    init (2, 5, 6, 1) 3 2 2 3 "relu" B64.one (ramp 3 3 1 2 1) = Returned layer /\
    s = fst (forward (ramp 2 5 6 1 1) layer) /\
    snd (backward (ramp 2 5 5 2 1) s) = Raised ValueError /\
    snd (conv_backward (ramp 2 5 5 2 1) s) = Returned g.
Proof.
  do 3 eexists. split; [vm_compute; reflexivity|].
  split; [reflexivity|].
  split; vm_compute; reflexivity.
Qed.

(** ** The Adam update at step zero

    With [t = 0] both bias corrections divide by [1 - 1 = 0]; the zero
    moments become NaN, and so do the weights. *)
Lemma update_at_step_zero :
  W (fst (update_parameters repeated_product (B64.ratio 1 1000) 0
            (B64.ratio 9 10) (B64.ratio 999 1000) (B64.ratio 1 100000000)
            (example_layer B64.zero)))
  = full 2 2 1 1 S754_nan.
Proof. vm_compute. reflexivity. Qed.

(** ** The flattened gradient *)

Section Flattened.

Context {T : Type} `{Scalar T}.

(** C4: a two-axis [dA] whose trailing axis is the batch size [m] is
    read as the [(m, H_out, W_out, C_out)] array with the same buffer,
    the three trailing lengths being those of [dim_out]; from there on
    [backward] runs exactly as on that four-axis gradient. *)
Theorem backward_flattened (s : ConvLayer T) (dA : ndarray T)
    (n m m0 h_out w_out c_out : Z) :
  shape dA = [n; m] ->
  dim_out s = (m0, h_out, w_out, c_out) ->
  0 <= m -> 0 <= h_out -> 0 <= w_out -> 0 <= c_out ->
  n * m = m * h_out * w_out * c_out ->
  reshape4 dA m h_out w_out c_out
  = Returned (NDArray [m; h_out; w_out; c_out] (data dA)) /\
  backward dA s = backward (NDArray [m; h_out; w_out; c_out] (data dA)) s.
Proof.
  intros Hsh Hout Hm Hh Hw Hc Hsize.
  assert (reshape4 dA m h_out w_out c_out
          = Returned (NDArray [m; h_out; w_out; c_out] (data dA))) as Hr.
  { unfold reshape4. rewrite Hsh.
    replace ((0 <=? m) && (0 <=? h_out) && (0 <=? w_out) && (0 <=? c_out))
      with true
      by (symmetry; repeat (apply andb_true_intro; split);
          apply Z.leb_le; assumption).
    replace (size_of [n; m] =? size_of [m; h_out; w_out; c_out]) with true
      by (symmetry; apply Z.eqb_eq; cbn; lia).
    reflexivity. }
  split; [exact Hr|].
  unfold backward, backward_contract.
  do 2 apply mbind_cong.
  unfold backward_dZ, mbind, read, lift, axis. rewrite Hsh.
  cbn [length Nat.eqb shape nth_error]. rewrite Hout, Hr.
  reflexivity.
Qed.

End Flattened.

(** ** Instances *)

Lemma padded_layer_init :
  exists layer,
    init (2, 3, 3, 1) 2 1 1 1 "relu" B64.one (ones 2 2 1 1) = Returned layer /\
    set_W (ones 2 2 1 1) layer = padded_layer B64.one.
Proof. eexists. split; vm_compute; reflexivity. Qed.

Lemma backward_flattened_witness :
  let s := fst (forward (ones 2 4 4 1) (example_layer B64.zero)) in
  let dA := NDArray [9; 2] (data (ones 2 3 3 1)) in
  reshape4 dA 2 3 3 1 = Returned (NDArray [2; 3; 3; 1] (data dA)) /\
  backward dA s = backward (NDArray [2; 3; 3; 1] (data dA)) s.
Proof.
  intros s dA.
  apply (@backward_flattened B64.float binary64 s dA 9 2 2 3 3 1);
    [reflexivity | vm_compute; reflexivity | lia | lia | lia | lia | lia].
Defined.

Lemma output_size_closed_form_witness :
  exists layer,
    init (2, 4, 4, 1) 2 1 1 0 "none" B64.zero (ones 2 2 1 1) = Returned layer /\
    dim_out layer
    = (2, (4 - 2 + 2 * 0) / 1 + 1, (4 - 2 + 2 * 0) / 1 + 1, 1) /\
    returns_with (forward (ones 2 4 4 1)) layer (fun s' r =>
      shape (Zcache s')
      = [2; (4 - 2 + 2 * 0) / 1 + 1; (4 - 2 + 2 * 0) / 1 + 1; 1] /\
      forall a, r = Some a -> shape a = shape (Zcache s')).
Proof.
  eexists. split; [vm_compute; reflexivity|].
  apply (@output_size_closed_form B64.float binary64 2 4 4 1 2 1 1 0 "none"
           B64.zero (ones 2 2 1 1) _ (ones 2 4 4 1) 2 4 4);
    [vm_compute; reflexivity | lia | lia | lia | lia | reflexivity
    | lia | lia | lia | vm_compute; reflexivity | lia | lia].
Defined.

(** C5, beyond 2^53: a layer for inputs of height 2^53 + 2, with
    [f = 1], stride 1 and no padding, is given the output height
    2^53 + 1 by the constructor, where the closed form is 2^53 + 2: the
    quotient [(2^53 + 1) / 1] is rounded to the binary64 2^53. *)
Lemma output_size_beyond_binary64 :
  exists layer : ConvLayer B64.float,
    init (0, 2 ^ 53 + 2, 1, 1) 1 1 1 0 "relu" B64.zero (ones 1 1 1 1)
    = Returned layer /\
    dim_out layer = (0, 2 ^ 53 + 1, 1, 1) /\
    (2 ^ 53 + 2 - 1 + 2 * 0) / 1 + 1 = 2 ^ 53 + 2.
Proof.
  eexists. split; [vm_compute; reflexivity|].
  split; vm_compute; reflexivity.
Qed.

Lemma weight_gradient_regularised_witness :
  let s := fst (forward (ones 1 3 3 1) (padded_layer B64.one)) in
  let dA := ones 1 4 4 1 in
  (exists s1 dZ,
      backward_contract dA s = (s1, Returned dZ) /\
      regularised s (dW s1) (dW (fst (backward dA s)))) /\
  (exists s1,
      conv_backward_accumulate dA s = (s1, Returned tt) /\
      regularised s (dW s1) (dW (fst (conv_backward dA s)))).
Proof.
  intros s dA. split.
  - eapply (proj1 (@weight_gradient_regularised B64.float binary64 s
                     (fst (backward dA s)) dA _)).
    vm_compute. reflexivity.
  - eapply (proj2 (@weight_gradient_regularised B64.float binary64 s
                     (fst (conv_backward dA s)) dA _)).
    vm_compute. reflexivity.
Defined.

Lemma update_with_zero_gradient_witness :
  update_repeatedly repeated_product (B64.ratio 1 1000) (B64.ratio 9 10)
    (B64.ratio 999 1000) (B64.ratio 1 100000000) [1; 2; 3]
    (example_layer B64.zero)
  = (example_layer B64.zero, Returned tt).
Proof.
  apply (@update_with_zero_gradient repeated_product (B64.ratio 1 1000)
           (B64.ratio 9 10) (B64.ratio 999 1000) (B64.ratio 1 100000000)
           [1; 2; 3] (example_layer B64.zero) 2 2 1 1 1 1 1 1);
    try lia; vm_compute; reflexivity.
Defined.


(** ** Instances of the further properties *)

Lemma forward_exact_on_integers_witness :
  returns_with (forward (ones 2 3 3 1)) (padded_layer B64.zero) (fun s' _ =>
    forall t i j l,
      0 <= t < 2 -> 0 <= i < (3 - 2 + 2 * 1) / 1 + 1 ->
      0 <= j < (3 - 2 + 2 * 1) / 1 + 1 -> 0 <= l < 1 ->
      holds_int
        (int_window_sum (fun _ _ _ _ => 1)
           (int_padded (fun _ _ _ _ => 1) 3 3 1) 2 1 1 t i j l + 0)
        (get4 (Zcache s') t i j l)).
Proof.
  apply (@forward_exact_on_integers (padded_layer B64.zero) (ones 2 3 3 1)
           2 3 3 1 1 2 3 3 (fun _ _ _ _ => 1) (fun _ _ _ _ => 1) (fun _ => 0)
           1 1 0);
    try first [reflexivity | simpl; lia].
  - intros. apply ones_hold; assumption.
  - intros. apply ones_hold; assumption.
  - intros l Hl. replace l with 0 by lia. split; [left; reflexivity|cbn; lia].
Defined.

Lemma forward_result_witness :
  exists s' r,
    forward (ones 2 4 4 1) (example_layer B64.zero) = (s', Returned r) /\
    X s' = ones 2 4 4 1 /\
    r = Some (Zcache s').
Proof.
  do 2 eexists. split; [vm_compute; reflexivity|].
  refine (@forward_result _ _ (example_layer B64.zero) _ (ones 2 4 4 1) _ _).
  vm_compute. reflexivity.
Defined.

Lemma forward_relu_not_negative_witness :
  exists s' a,
    forward (ones 2 3 3 1) (padded_layer B64.zero) = (s', Returned (Some a)) /\
    Forall (fun e => SFltb e B64.zero = false) (data a).
Proof.
  do 2 eexists. split; [vm_compute; reflexivity|].
  eapply (@forward_relu_not_negative (padded_layer B64.zero) _
            (ones 2 3 3 1) _); [reflexivity|vm_compute; reflexivity].
Defined.

Lemma forward_needs_four_axes_witness :
  returns (snd (forward (NDArray [2; 2] (data (ones 1 1 2 2)))
                  (example_layer B64.zero))) = false.
Proof. apply forward_needs_four_axes. simpl. lia. Defined.

Lemma forward_writes_X_Z_witness :
  preserves (fun s : ConvLayer B64.float => (W s, b s, dX s, dW s, db s))
    (forward (ones 2 4 4 1)).
Proof. apply forward_writes_X_Z; intros; reflexivity. Defined.

Lemma forward_reads_parameters_only_witness :
  alike (fun t1 t2 : ConvLayer B64.float =>
           same_parameters t1 t2 /\ same_caches t1 t2)
    (forward (ones 2 4 4 1) (example_layer B64.zero))
    (forward (ones 2 4 4 1) after_forward).
Proof.
  apply forward_reads_parameters_only.
  repeat (split; [vm_compute; reflexivity|]). vm_compute. reflexivity.
Defined.

Lemma init_returns_iff_witness :
  (exists layer,
     init (2, 4, 4, 1) 2 1 1 0 "none" B64.zero (ones 2 2 1 1) = Returned layer)
  <->
  (1 <> 0 /\ 0 <= 2 /\ 0 < 4 /\ 0 < 4 /\ 0 <= 1 /\ 0 <= 2 /\ 0 <= 1 /\
   0 <= 1 + Z.quot (4 - 2 + 2 * 0) 1 /\
   0 <= 1 + Z.quot (4 - 2 + 2 * 0) 1).
Proof. apply init_returns_iff; [reflexivity | lia | lia]. Defined.

Lemma backward_after_forward_witness :
  exists layer s1 r,
    init (2, 4, 4, 1) 2 1 1 0 "none" B64.zero (ones 2 2 1 1) = Returned layer /\
    forward (ones 3 4 4 1) layer = (s1, Returned r) /\
    returns_with (backward (ones 3 3 3 1)) s1 (fun s2 g =>
      g = dX s2 /\ shape g = shape (ones 3 4 4 1) /\
      shape (dW s2) = shape (W layer) /\ shape (db s2) = shape (b layer)).
Proof.
  eexists.
  assert (init (2, 4, 4, 1) 2 1 1 0 "none" B64.zero (ones 2 2 1 1)
          = Returned _) as Hi by (vm_compute; reflexivity).
  destruct (@backward_after_forward _ _ 2 4 4 1 2 1 1 0 "none" B64.zero
              (ones 2 2 1 1) _ (ones 3 4 4 1) (ones 3 3 3 1) 3 Hi)
    as (s1 & r & E & Hb); try lia; try reflexivity.
  exists s1, r. split; [exact Hi|]. split; [exact E|exact Hb].
Defined.

Lemma backward_input_gradient_exact_witness :
  exists s' g,
    backward (ones 2 3 3 1) after_forward = (s', Returned g) /\
    g = dX s' /\
    shape g = [2; 5 - 2 + 1; 5 - 2 + 1; 1] /\
    forall b' m' n r,
      0 <= b' < 2 -> 0 <= m' < 5 - 2 + 1 -> 0 <= n < 5 - 2 + 1 -> 0 <= r < 1 ->
      holds_int
        (int_sum 2 (fun p => int_sum 2 (fun q => int_sum 1 (fun c =>
           1 * int_padded (fun _ _ _ _ => 1) 3 3 1 b' (m' + p) (n + q) c))))
        (get4 g b' m' n r).
Proof.
  do 2 eexists. split; [vm_compute; reflexivity|].
  eapply (@backward_input_gradient_exact after_forward _ (ones 2 3 3 1) _
           (fun _ _ _ _ => 1) (int_padded (fun _ _ _ _ => 1) 3 3 1)
           2 2 1 1 2 5 5 1 1);
    try first [vm_compute; reflexivity | lia | vm_compute; intro; discriminate].
  - intros. change (W after_forward) with (ones 2 2 1 1).
    apply ones_hold; assumption.
  - intros b' j k c Hb Hj Hk Hc.
    match goal with
    | |- context [get4 ?a b' j k c] =>
        replace a with (build4 2 5 5 1 (padded_at (ones 2 3 3 1) 3 3 1))
          by (vm_compute; reflexivity)
    end.
    rewrite get4_build4 by assumption.
    apply (@padded_at_holds (ones 2 3 3 1) (fun _ _ _ _ => 1) 2 3 3 1 1
             b' j k c 1); try lia.
    intros. apply ones_hold; assumption.
Defined.

Lemma backward_weight_gradient_exact_witness :
  exists s' g,
    backward (ones 2 3 3 1) after_forward = (s', Returned g) /\
    exists G,
      inplace2 sadd G
        (map_array (smul (sdiv (lamb after_forward) (of_int 2)))
           (W after_forward))
      = Returned (dW s') /\
      shape G = [2; 2; 1; 1] /\
      forall p q r d,
        0 <= p < 2 -> 0 <= q < 2 -> 0 <= r < 1 -> 0 <= d < 1 ->
        holds_int
          (int_sum 2 (fun a => int_sum 3 (fun i => int_sum 3 (fun j =>
             1 * int_padded (fun _ _ _ _ => 1) 4 4 (pad after_forward) a
                   (p + i * stride after_forward)
                   (q + j * stride after_forward) r))))
          (get4 G p q r d).
Proof.
  do 2 eexists. split; [vm_compute; reflexivity|].
  eapply (@backward_weight_gradient_exact after_forward _ (ones 2 3 3 1) _
           (ones 2 3 3 1) (fun _ _ _ _ => 1) (fun _ _ _ _ => 1)
           2 4 4 1 2 3 3 1 2 4 4 1 1 1);
    try first [vm_compute; reflexivity | lia | vm_compute; intro; discriminate].
  - intros. apply ones_hold; assumption.
  - intros. change (X after_forward) with (ones 2 4 4 1).
    apply ones_hold; assumption.
Defined.

Lemma backward_bias_gradient_exact_witness :
  exists s' g,
    backward (ones 2 3 3 1) after_forward = (s', Returned g) /\
    forall d, 0 <= d < 1 ->
      holds_int
        (int_sum 2 (fun _ => int_sum 3 (fun _ => int_sum 3 (fun _ => 1))))
        (get4 (db s') 0 0 0 d).
Proof.
  do 2 eexists. split; [vm_compute; reflexivity|].
  eapply (@backward_bias_gradient_exact after_forward _ (ones 2 3 3 1) _
           (ones 2 3 3 1) (fun _ _ _ _ => 1) 2 3 3 1 1);
    try first [vm_compute; reflexivity | lia | vm_compute; intro; discriminate].
  intros. apply ones_hold; assumption.
Defined.

Lemma backward_writes_gradients_witness :
  preserves
    (fun s : ConvLayer B64.float => (X s, Zcache s, W s, b s, vW s, sW s))
    (backward (ones 2 3 3 1)).
Proof. apply backward_writes_gradients. repeat split. Defined.

Lemma backward_overwrites_gradients_witness :
  alike eq
    (backward (ones 2 4 4 1)
       (set_dX (ones 2 3 3 1) (set_dW (ones 2 2 1 1) padded_after_forward)))
    (backward (ones 2 4 4 1) padded_after_forward).
Proof.
  apply backward_overwrites_gradients.
  split; [vm_compute; reflexivity|]. split; vm_compute; reflexivity.
Defined.

Lemma backward_flattened_wrong_size_witness :
  backward (NDArray [2; 5] (data (ones 1 1 2 5))) (example_layer B64.zero)
  = (example_layer B64.zero, Raised ValueError).
Proof.
  apply (@backward_flattened_wrong_size B64.float binary64
           (example_layer B64.zero) _ 2 5 2 3 3 1);
    first [reflexivity | lia].
Defined.

Lemma conv_backward_writes_gradients_witness :
  preserves
    (fun s : ConvLayer B64.float => (X s, Zcache s, W s, b s, dZ_pad s))
    (conv_backward (ones 2 3 3 1)).
Proof. apply conv_backward_writes_gradients; intros; reflexivity. Defined.

Lemma conv_backward_overwrites_dW_db_witness :
  alike eq
    (conv_backward (ones 2 4 4 1)
       (set_dW (ones 2 2 1 1) (set_db (ones 1 1 1 1) padded_after_forward)))
    (conv_backward (ones 2 4 4 1) padded_after_forward).
Proof.
  apply conv_backward_overwrites_dW_db.
  split; [vm_compute; reflexivity|]. split; vm_compute; reflexivity.
Defined.

Lemma conv_backward_needs_four_axes_witness :
  conv_backward (NDArray [2; 9] (data (ones 2 3 3 1)))
    (set_dW (ones 2 2 1 1) (padded_layer B64.zero))
  = (set_db (full 1 1 1 1 B64.zero)
       (set_dW (full 2 2 1 1 B64.zero)
          (set_dW (ones 2 2 1 1) (padded_layer B64.zero))),
     Raised ValueError).
Proof.
  apply (@conv_backward_needs_four_axes B64.float binary64
           (set_dW (ones 2 2 1 1) (padded_layer B64.zero))
           (NDArray [2; 9] (data (ones 2 3 3 1))) 2 2 1 1 1 1 1 1);
    [reflexivity | reflexivity | simpl; lia].
Defined.

Lemma update_parameters_writes_moments_and_parameters_witness :
  preserves (fun s : ConvLayer B64.float => (dX s, dW s, db s, X s, Zcache s))
    (update_parameters repeated_product (B64.ratio 1 1000) 1 (B64.ratio 9 10)
       (B64.ratio 999 1000) (B64.ratio 1 100000000)).
Proof.
  apply update_parameters_writes_moments_and_parameters; intros; reflexivity.
Defined.

Lemma update_at_step_zero_is_nan_witness :
  exists s',
    update_parameters repeated_product (B64.ratio 1 1000) 0 (B64.ratio 9 10)
      (B64.ratio 999 1000) (B64.ratio 1 100000000) after_forward
    = (s', Returned tt) /\
    shape (W s') = shape (W after_forward) /\
    Forall (fun e => e = S754_nan) (data (W s')) /\
    shape (b s') = shape (b after_forward) /\
    Forall (fun e => e = S754_nan) (data (b s')).
Proof.
  eexists. split; [vm_compute; reflexivity|].
  eapply (@update_at_step_zero_is_nan repeated_product (B64.ratio 1 1000)
            (B64.ratio 9 10) (B64.ratio 999 1000) (B64.ratio 1 100000000)
            after_forward _ tt);
    [reflexivity | reflexivity | vm_compute; reflexivity].
Defined.

Lemma update_after_init_witness :
  exists layer,
    init (2, 4, 4, 1) 2 1 1 0 "none" B64.zero (ones 2 2 1 1) = Returned layer /\
    update_parameters repeated_product (B64.ratio 1 1000) 1 (B64.ratio 9 10)
      (B64.ratio 999 1000) (B64.ratio 1 100000000) layer
    = (layer, Returned tt).
Proof.
  eexists.
  assert (init (2, 4, 4, 1) 2 1 1 0 "none" B64.zero (ones 2 2 1 1)
          = Returned _) as Hi by (vm_compute; reflexivity).
  split; [exact Hi|].
  apply (@update_after_init 2 4 4 1 2 1 1 0 "none" B64.zero (ones 2 2 1 1) _
           repeated_product (B64.ratio 1 1000) 1 (B64.ratio 9 10)
           (B64.ratio 999 1000) (B64.ratio 1 100000000) Hi);
    vm_compute; reflexivity.
Defined.
